(** * The configuration resolver of fabric: [internal/cli/flags.go]

    A shallow embedding of [Init] and of the functions it calls
    ([extractFlag], [assignWithConversion], [loadYAMLConfig], [readStdin],
    [AppendMessage]), and the properties of the precedence rule between
    command line, YAML configuration file and defaults.

    Conventions.
    - A Go [string] is a [string] of Rocq: a sequence of bytes.
    - The struct [Flags] is read and written by [Init] through [reflect]:
      it is embedded as the sequence of its field values, in declaration
      order, next to the table [FlagsType] of its fields and their tags
      (the tags [description] and [hidden] are left out). A struct of type
      [Flags] is a sequence that is [typed].
    - The libraries [strconv], [go-flags] and [yaml.v3] are not part of
      the repository: the program is embedded over an arbitrary
      implementation of them (record [Lib]), and module [Ref] gives one to
      run examples.
    - [Debugf] only prints; its calls are left out. *)

From Stdlib Require Import ZArith String Ascii List Bool Lia SpecFloat.
From stdpp Require Import base option list gmap strings.

Local Open Scope Z_scope.

(** ** Go strings *)

Module strings.

(** [strings.HasPrefix(s, prefix)] *)
Definition HasPrefix (s prefix : string) : bool := String.prefix prefix s.

(** [s[n:]], for [n <= len(s)] *)
Fixpoint from (n : nat) (s : string) : string :=
  match n, s with
  | O, _ => s
  | S n', String _ s' => from n' s'
  | S _, EmptyString => EmptyString
  end.

(** [s[:n]], for [n <= len(s)] *)
Definition upto (n : nat) (s : string) : string := String.substring 0 n s.

(** [strings.TrimPrefix(s, prefix)] *)
Definition TrimPrefix (s prefix : string) : string :=
  if HasPrefix s prefix then from (String.length prefix) s else s.

(** [strings.Index(s, substr)]: the index of the first instance of
    [substr] in [s], or [-1]. *)
Definition Index (s substr : string) : Z :=
  match String.index 0 substr s with
  | Some i => Z.of_nat i
  | None => -1
  end.

End strings.

(** ** [extractFlag] *)

Definition extractFlag (arg : string) : string :=
  if strings.HasPrefix arg "--" then
    let flag := strings.TrimPrefix arg "--" in
    let i := strings.Index flag "=" in
    if 0 <? i then strings.upto (Z.to_nat i) flag else flag
  else if strings.HasPrefix arg "-" && (1 <? Z.of_nat (String.length arg)) then
    let flag := strings.TrimPrefix arg "-" in
    let i := strings.Index flag "=" in
    if 0 <? i then strings.upto (Z.to_nat i) flag else flag
  else "".

(** ** Errors *)

Inductive Errno := ENOENT | EACCES | EISDIR | EIO | EBADF.

(** [reflect.Kind], for the kinds of the fields of [Flags]. *)
Inductive Kind := KString | KInt | KFloat64 | KBool | KMap | KSlice.

(** An argument of a [fmt.Errorf] call. *)
Inductive fmt_arg :=
| a_string (s : string)
| a_Kind (k : Kind).

(** Error values. [fmt_Errorf_w format err] is [fmt.Errorf(format, err)]
    for a [format] with the verb [%w]: it wraps [err]. *)
Inductive error :=
| io_EOF
| PathError (op path : string) (e : Errno)
| lib_error (msg : string)
| fmt_Errorf (format : string) (args : list fmt_arg)
| fmt_Errorf_w (format : string) (err : error).

(** [errors.Is(err, io.EOF)]: [err] or an error it wraps is [io.EOF]. *)
Fixpoint errors_Is_EOF (err : error) : bool :=
  match err with
  | io_EOF => true
  | fmt_Errorf_w _ err' => errors_Is_EOF err'
  | _ => false
  end.

(** [os.IsNotExist(err)] *)
Definition os_IsNotExist (err : error) : bool :=
  match err with
  | PathError _ _ ENOENT => true
  | _ => false
  end.

(** ** The struct [Flags], seen through [reflect] *)

(** [float64]: the binary64 numbers. *)
Definition float64 : Type := spec_float.

(** The types of the fields of [Flags]. *)
Inductive reflect_Type :=
| string_t | int_t | float64_t | bool_t | map_string_string_t | slice_string_t.

Definition Type_Kind (t : reflect_Type) : Kind :=
  match t with
  | string_t => KString
  | int_t => KInt
  | float64_t => KFloat64
  | bool_t => KBool
  | map_string_string_t => KMap
  | slice_string_t => KSlice
  end.

Definition Type_eqb (t u : reflect_Type) : bool :=
  match t, u with
  | string_t, string_t | int_t, int_t | float64_t, float64_t | bool_t, bool_t
  | map_string_string_t, map_string_string_t
  | slice_string_t, slice_string_t => true
  | _, _ => false
  end.

(** A [reflect.Value] of one of these types. *)
Inductive Value :=
| VString (s : string)
| VInt (n : Z)
| VFloat (f : float64)
| VBool (b : bool)
| VMap (m : gmap string string)
| VSlice (l : list string).

Definition Value_Type (v : Value) : reflect_Type :=
  match v with
  | VString _ => string_t
  | VInt _ => int_t
  | VFloat _ => float64_t
  | VBool _ => bool_t
  | VMap _ => map_string_string_t
  | VSlice _ => slice_string_t
  end.

Definition Value_Kind (v : Value) : Kind := Type_Kind (Value_Type v).

(** The zero value of a type. *)
Definition zero (t : reflect_Type) : Value :=
  match t with
  | string_t => VString ""
  | int_t => VInt 0
  | float64_t => VFloat (S754_zero false)
  | bool_t => VBool false
  | map_string_string_t => VMap ∅
  | slice_string_t => VSlice []
  end.

(** A field of the struct type with the tags [Init], [go-flags] and
    [yaml.v3] read: [short], [long], [yaml] and [default]. A tag that is
    not written reads as the empty string, as [Tag.Get] returns it. *)
Record StructField := sfield {
  Name : string;
  Typ : reflect_Type;
  short : string;
  long : string;
  yaml : string;
  dflt : string
}.

(** [reflect.TypeOf(Flags{})]: the fields of [Flags] in declaration order. *)
Definition FlagsType : list StructField := [
  sfield "Pattern"                          string_t             "p"  "pattern"                     "pattern"              "";
  sfield "PatternVariables"                 map_string_string_t  "v"  "variable"                    ""                     "";
  sfield "Context"                          string_t             "C"  "context"                     ""                     "";
  sfield "Session"                          string_t             ""   "session"                     ""                     "";
  sfield "Attachments"                      slice_string_t       "a"  "attachment"                  ""                     "";
  sfield "Setup"                            bool_t               "S"  "setup"                       ""                     "";
  sfield "Temperature"                      float64_t            "t"  "temperature"                 "temperature"          "0.7";
  sfield "TopP"                             float64_t            "T"  "topp"                        "topp"                 "0.9";
  sfield "Stream"                           bool_t               "s"  "stream"                      "stream"               "";
  sfield "PresencePenalty"                  float64_t            "P"  "presencepenalty"             "presencepenalty"      "0.0";
  sfield "Raw"                              bool_t               "r"  "raw"                         "raw"                  "";
  sfield "FrequencyPenalty"                 float64_t            "F"  "frequencypenalty"            "frequencypenalty"     "0.0";
  sfield "ListPatterns"                     bool_t               "l"  "listpatterns"                ""                     "";
  sfield "ListAllModels"                    bool_t               "L"  "listmodels"                  ""                     "";
  sfield "ListAllContexts"                  bool_t               "x"  "listcontexts"                ""                     "";
  sfield "ListAllSessions"                  bool_t               "X"  "listsessions"                ""                     "";
  sfield "UpdatePatterns"                   bool_t               "U"  "updatepatterns"              ""                     "";
  sfield "Message"                          string_t             ""   ""                            ""                     "";
  sfield "Copy"                             bool_t               "c"  "copy"                        ""                     "";
  sfield "Model"                            string_t             "m"  "model"                       "model"                "";
  sfield "ModelContextLength"               int_t                ""   "modelContextLength"          "modelContextLength"   "";
  sfield "Output"                           string_t             "o"  "output"                      ""                     "";
  sfield "OutputSession"                    bool_t               ""   "output-session"              ""                     "";
  sfield "LatestPatterns"                   string_t             "n"  "latest"                      ""                     "0";
  sfield "ChangeDefaultModel"               bool_t               "d"  "changeDefaultModel"          ""                     "";
  sfield "YouTube"                          string_t             "y"  "youtube"                     ""                     "";
  sfield "YouTubePlaylist"                  bool_t               ""   "playlist"                    ""                     "";
  sfield "YouTubeTranscript"                bool_t               ""   "transcript"                  ""                     "";
  sfield "YouTubeTranscriptWithTimestamps"  bool_t               ""   "transcript-with-timestamps"  ""                     "";
  sfield "YouTubeComments"                  bool_t               ""   "comments"                    ""                     "";
  sfield "YouTubeMetadata"                  bool_t               ""   "metadata"                    ""                     "";
  sfield "Language"                         string_t             "g"  "language"                    ""                     "";
  sfield "ScrapeURL"                        string_t             "u"  "scrape_url"                  ""                     "";
  sfield "ScrapeQuestion"                   string_t             "q"  "scrape_question"             ""                     "";
  sfield "Seed"                             int_t                "e"  "seed"                        "seed"                 "";
  sfield "WipeContext"                      string_t             "w"  "wipecontext"                 ""                     "";
  sfield "WipeSession"                      string_t             "W"  "wipesession"                 ""                     "";
  sfield "PrintContext"                     string_t             ""   "printcontext"                ""                     "";
  sfield "PrintSession"                     string_t             ""   "printsession"                ""                     "";
  sfield "HtmlReadability"                  bool_t               ""   "readability"                 ""                     "";
  sfield "InputHasVars"                     bool_t               ""   "input-has-vars"              ""                     "";
  sfield "DryRun"                           bool_t               ""   "dry-run"                     ""                     "";
  sfield "Serve"                            bool_t               ""   "serve"                       ""                     "";
  sfield "ServeOllama"                      bool_t               ""   "serveOllama"                 ""                     "";
  sfield "ServeAddress"                     string_t             ""   "address"                     ""                     ":8080";
  sfield "ServeAPIKey"                      string_t             ""   "api-key"                     ""                     "";
  sfield "Config"                           string_t             ""   "config"                      ""                     "";
  sfield "Version"                          bool_t               ""   "version"                     ""                     "";
  sfield "ListExtensions"                   bool_t               ""   "listextensions"              ""                     "";
  sfield "AddExtension"                     string_t             ""   "addextension"                ""                     "";
  sfield "RemoveExtension"                  string_t             ""   "rmextension"                 ""                     "";
  sfield "Strategy"                         string_t             ""   "strategy"                    ""                     "";
  sfield "ListStrategies"                   bool_t               ""   "liststrategies"              ""                     "";
  sfield "ListVendors"                      bool_t               ""   "listvendors"                 ""                     "";
  sfield "ShellCompleteOutput"              bool_t               ""   "shell-complete-list"         ""                     "";
  sfield "Search"                           bool_t               ""   "search"                      ""                     "";
  sfield "SearchLocation"                   string_t             ""   "search-location"             ""                     "";
  sfield "ImageFile"                        string_t             ""   "image-file"                  ""                     "";
  sfield "ImageSize"                        string_t             ""   "image-size"                  ""                     "";
  sfield "ImageQuality"                     string_t             ""   "image-quality"               ""                     "";
  sfield "ImageCompression"                 int_t                ""   "image-compression"           ""                     "";
  sfield "ImageBackground"                  string_t             ""   "image-background"            ""                     "";
  sfield "SuppressThink"                    bool_t               ""   "suppress-think"              "suppressThink"        "";
  sfield "ThinkStartTag"                    string_t             ""   "think-start-tag"             "thinkStartTag"        "<think>";
  sfield "ThinkEndTag"                      string_t             ""   "think-end-tag"               "thinkEndTag"          "</think>";
  sfield "DisableResponsesAPI"              bool_t               ""   "disable-responses-api"       "disableResponsesAPI"  "";
  sfield "Voice"                            string_t             ""   "voice"                       "voice"                "Kore";
  sfield "ListGeminiVoices"                 bool_t               ""   "list-gemini-voices"          ""                     ""
].

Definition NumField : nat := length FlagsType.

(** A [Flags] value: the values of its fields, in declaration order. *)
Abbreviation Flags := (list Value).

(** [f] has the shape of the struct: one value per field, of its type. *)
Definition typed (f : Flags) : Prop :=
  Value_Type <$> f = Typ <$> FlagsType.

(** [Flags{}] *)
Definition Flags_zero : Flags := (fun sf => zero (Typ sf)) <$> FlagsType.

(** Position of the field named [name]. *)
Fixpoint index_of (name : string) (l : list StructField) : nat :=
  match l with
  | [] => O
  | sf :: l' => if String.eqb (Name sf) name then O else S (index_of name l')
  end.

Definition FieldByName (name : string) : nat := index_of name FlagsType.

(** A field of type [string], read and written by name. *)
Definition getString (f : Flags) (name : string) : string :=
  match f !! FieldByName name with
  | Some (VString s) => s
  | _ => ""
  end.

Definition setString (f : Flags) (name : string) (s : string) : Flags :=
  <[FieldByName name := VString s]> f.

Definition Message (f : Flags) : string := getString f "Message".
Definition Config (f : Flags) : string := getString f "Config".

(** [CanSet]: the field is exported (its name starts with a capital) and
    the struct is addressable, as both structs of [Init] are. *)
Definition CanSet (sf : StructField) : bool :=
  match Name sf with
  | String c _ => (65 <=? Z.of_nat (nat_of_ascii c)) && (Z.of_nat (nat_of_ascii c) <=? 90)
  | EmptyString => false
  end.

(** ** The libraries and the process

    [strconv], [go-flags] and [yaml.v3] are libraries outside the
    repository. The program is embedded over any implementation [L] of the
    calls it makes. *)
Record Lib := {
  (** [strconv.ParseFloat(s, 64)]: the number when [err == nil]. *)
  strconv_ParseFloat : string → option float64;
  (** [strconv.ParseInt(s, 10, 64)] *)
  strconv_ParseInt : string → option Z;
  (** [strconv.ParseBool(s)] *)
  strconv_ParseBool : string → option bool;
  (** [flags.NewParser(ret, flags.Default).Parse()] on the tokens of the
      command line: the struct as the parser leaves it, the tokens that
      are left over, and the error. *)
  flags_Parse : list string → Flags → Flags * list string * option error;
  (** [yaml.Unmarshal(data, config)]: the struct as the decoder leaves
      it, and the error. *)
  yaml_Unmarshal : string → Flags → Flags * option error
}.

(** A file of the file system: its bytes, or the error reading it meets
    (a directory, a file without read permission). *)
Abbreviation File := (string + Errno)%type.

(** The state of the process [Init] runs in. [os.Args] is the program
    name followed by [Args]; standard input is open, so that
    [os.Stdin.Stat()] delivers a mode. *)
Record World := {
  (** [os.Args[1:]] *)
  Args : list string;
  (** the conventional default location of the config file, or the error
      met when the home directory is not known *)
  defaultLocation : string + error;
  (** [util.GetAbsolutePath], which is not among the sources: any
      function of the path (its result depends on the working directory,
      the home directory and the symbolic links) *)
  GetAbsolutePath : string → string + error;
  (** the files, by absolute path *)
  files : gmap string File;
  (** [os.Stdin.Stat()]: the mode bits *)
  stdin_Mode : Z;
  (** the bytes standard input delivers, and the error its last read
      ends with ([io.EOF] at the end of the stream) *)
  stdin_data : string;
  stdin_end : error
}.

(** [os.ModeCharDevice]: bit 21 of a [FileMode]. *)
Definition os_ModeCharDevice : Z := Z.shiftl 1 21.

(** [os.ReadFile] *)
Definition os_ReadFile (w : World) (name : string) : string + error :=
  match files w !! name with
  | None => inr (PathError "open" name ENOENT)
  | Some (inl data) => inl data
  | Some (inr e) => inr (PathError "read" name e)
  end.

(** Modelled from the spec: [util.GetDefaultConfigPath] is not among the
    sources. Section 4.3: without an explicit path the "conventional
    default location" is taken, and "if that default does not exist
    either" resolution goes on without a config file; [Init] reads this as
    an empty path returned without error. *)
Definition GetDefaultConfigPath (w : World) : string * option error :=
  match defaultLocation w with
  | inl defaultConfigPath =>
      match files w !! defaultConfigPath with
      | Some _ => (defaultConfigPath, None)
      | None => ("", None)
      end
  | inr err => ("", Some err)
  end.

(** ** The pre-scan of the raw tokens *)

(** The map from flag names (short and long) to yaml tags that [Init]
    builds from the struct tags. *)
Definition flagToYamlTag : gmap string string :=
  foldl (fun (m : gmap string string) (field : StructField) =>
           let yamlTag := yaml field in
           if negb (String.eqb yamlTag "") then
             let m := if negb (String.eqb (long field) "")
                      then <[long field := yamlTag]> m else m in
             if negb (String.eqb (short field) "")
             then <[short field := yamlTag]> m else m
           else m)
        ∅ FlagsType.

(** One turn of the loop over [yamlArgsScan]. *)
Definition scanArg (usedFlags : gmap string bool) (arg : string) : gmap string bool :=
  let flag := extractFlag arg in
  if negb (String.eqb flag "") then
    match flagToYamlTag !! flag with
    | Some yamlTag => <[yamlTag := true]> usedFlags
    | None => usedFlags
    end
  else usedFlags.

Definition scanArgs (yamlArgsScan : list string) : gmap string bool :=
  foldl scanArg ∅ yamlArgsScan.

(** [usedFlags[yamlTag]]: [false] for a key that is not in the map. *)
Definition used (usedFlags : gmap string bool) (yamlTag : string) : bool :=
  default false (usedFlags !! yamlTag).

(** ** The input assembler's helpers *)

(** The line feed, ['\n'], and the double quote. *)
Definition LF : ascii := ascii_of_nat 10.
Definition dquote : ascii := ascii_of_nat 34.
Definition nl : string := String LF "".

Definition AppendMessage (message newMessage : string) : string :=
  if negb (String.eqb message "") then message +:+ nl +:+ newMessage
  else newMessage.

(** [cut delim s]: [s] up to and including the first [delim], and what
    follows it. *)
Fixpoint cut (delim : ascii) (s : string) : option (string * string) :=
  match s with
  | EmptyString => None
  | String c s' =>
      if Ascii.eqb c delim then Some (String c "", s')
      else match cut delim s' with
           | Some (line, rest) => Some (String c line, rest)
           | None => None
           end
  end.

(** [reader.ReadString(delim)] of a [bufio.Reader] whose source still
    delivers [pending] and then ends with [end_]: the line read, the
    error, and what the source still delivers afterwards. *)
Definition ReadString (delim : ascii) (pending : string) (end_ : error)
  : string * option error * string :=
  match cut delim pending with
  | Some (line, rest) => (line, None, rest)
  | None => (pending, Some end_, "")
  end.

(** The loop of [readStdin], [sb] being the [strings.Builder]. *)
Fixpoint readStdin_loop (fuel : nat) (end_ : error) (pending sb : string)
  : option (string * option error) :=
  match fuel with
  | O => None
  | S fuel' =>
      let '(line, readErr, pending') := ReadString LF pending end_ in
      match readErr with
      | Some readErr =>
          if errors_Is_EOF readErr then Some (sb +:+ line, None)
          else Some ("", Some (fmt_Errorf_w
                 "error reading piped message from stdin: %w" readErr))
      | None => readStdin_loop fuel' end_ pending' (sb +:+ line)
      end
  end.

(** [readStdin]: every turn of the loop but the last reads at least one
    byte, so that one turn more than there are bytes is enough
    ([readStdin_loop_enough]). *)
Definition readStdin (w : World) : string * option error :=
  match readStdin_loop (S (String.length (stdin_data w)))
          (stdin_end w) (stdin_data w) "" with
  | Some r => r
  | None => ("", None)
  end.

(** [(info.Mode() & os.ModeCharDevice) == 0] for the mode of standard
    input. *)
Definition pipedToStdin (w : World) : bool :=
  Z.land (stdin_Mode w) os_ModeCharDevice =? 0.

(** [int64(val)] for a [float64]: the fraction is discarded. Out of the
    range of [int64] the result depends on the platform; amd64 delivers
    the least [int64]. *)
Definition int64_of_float64 (val : float64) : Z :=
  match val with
  | S754_zero _ => 0
  | S754_finite s m e =>
      let mag := Z.shiftl (Zpos m) e in
      let z := if s then - mag else mag in
      if (- 2 ^ 63 <=? z) && (z <? 2 ^ 63) then z else - 2 ^ 63
  | _ => - 2 ^ 63
  end.

Section Program.

Variable L : Lib.

(** ** [assignWithConversion]

    The result is the content of [targetField] afterwards, and the
    error. *)
Definition assignWithConversion (targetField sourceField : Value)
  : Value * option error :=
  match sourceField with
  | VString str =>
      let failed := (targetField,
        Some (fmt_Errorf "cannot convert string %q to %v"
                [a_string str; a_Kind (Value_Kind targetField)])) in
      match Value_Kind targetField with
      | KInt =>
          match strconv_ParseFloat L str with
          | Some val => (VInt (int64_of_float64 val), None)
          | None =>
              match strconv_ParseInt L str with
              | Some val => (VInt val, None)
              | None => failed
              end
          end
      | KFloat64 =>
          match strconv_ParseFloat L str with
          | Some val => (VFloat val, None)
          | None => failed
          end
      | KBool =>
          match strconv_ParseBool L str with
          | Some val => (VBool val, None)
          | None => failed
          end
      | _ => failed
      end
  | _ =>
      (targetField,
       Some (fmt_Errorf "unsupported conversion from %v to %v"
               [a_Kind (Value_Kind sourceField); a_Kind (Value_Kind targetField)]))
  end.

(** ** [loadYAMLConfig] *)
Definition loadYAMLConfig (w : World) (configPath : string) : Flags + error :=
  match GetAbsolutePath w configPath with
  | inr err => inr (fmt_Errorf_w "invalid config path: %w" err)
  | inl absPath =>
      match os_ReadFile w absPath with
      | inr err =>
          if os_IsNotExist err
          then inr (fmt_Errorf "config file not found: %s" [a_string absPath])
          else inr (fmt_Errorf_w "error reading config file: %w" err)
      | inl data =>
          match yaml_Unmarshal L data Flags_zero with
          | (_, Some err) => inr (fmt_Errorf_w "error parsing config file: %w" err)
          | (config, None) => inl config
          end
      end
  end.

(** ** The merge: "Apply YAML values where CLI flags weren't used" *)

(** Turn [i] of the loop over the fields. [Field(i)] is in range for the
    structs [Init] has; on a sequence that is too short the turn does
    nothing. *)
Definition applyField (usedFlags : gmap string bool) (yamlVal : Flags)
    (flagsVal : Flags) (i : nat) : Flags :=
  match FlagsType !! i, flagsVal !! i, yamlVal !! i with
  | Some field, Some flagField, Some yamlField =>
      let yamlTag := yaml field in
      if negb (String.eqb yamlTag "") then
        if negb (used usedFlags yamlTag) then
          if CanSet field then
            if negb (Type_eqb (Value_Type yamlField) (Value_Type flagField)) then
              match assignWithConversion flagField yamlField with
              | (_, Some err) => flagsVal
              | (converted, None) => <[i := converted]> flagsVal
              end
            else <[i := yamlField]> flagsVal
          else flagsVal
        else flagsVal
      else flagsVal
  | _, _, _ => flagsVal
  end.

Definition applyYAML (usedFlags : gmap string bool) (yamlVal flagsVal : Flags)
  : Flags :=
  foldl (applyField usedFlags yamlVal) flagsVal (seq 0 NumField).

(** ** [Init] *)

(** The struct and the leftover tokens after [parser.Parse()]. *)
Definition parsed (w : World) : Flags := (flags_Parse L (Args w) Flags_zero).1.1.
Definition positional (w : World) : list string := (flags_Parse L (Args w) Flags_zero).1.2.
Definition parseError (w : World) : option error := (flags_Parse L (Args w) Flags_zero).2.

(** "Check to see if a ~/.config/fabric/config.yaml config file exists
    (only when user didn't specify a config)" *)
Definition withDefaultConfig (w : World) (ret : Flags) : Flags :=
  if String.eqb (Config ret) "" then
    match GetDefaultConfigPath w with
    | (defaultConfigPath, None) =>
        if negb (String.eqb defaultConfigPath "")
        then setString ret "Config" defaultConfigPath
        else ret
    | (_, Some err) => ret
    end
  else ret.

(** "Handle stdin and messages" *)
Definition handleInput (w : World) (args : list string) (ret : Flags)
  : Flags * option error :=
  let pipedToStdin := pipedToStdin w in
  let ret :=
    match last args with
    | Some a => setString ret "Message" (AppendMessage (Message ret) a)
    | None => ret
    end in
  if pipedToStdin then
    match readStdin w with
    | (_, Some err) => (ret, Some err)
    | (pipedMessage, None) =>
        (setString ret "Message" (AppendMessage (Message ret) pipedMessage), None)
    end
  else (ret, None).

(** "If config specified, load and apply YAML for unused flags", after the
    default path was looked for. *)
Definition resolveConfig (w : World) (usedFlags : gmap string bool) (ret : Flags)
  : Flags * option error :=
  let ret := withDefaultConfig w ret in
  if negb (String.eqb (Config ret) "") then
    match loadYAMLConfig w (Config ret) with
    | inr err => (ret, Some err)
    | inl yamlFlags => (applyYAML usedFlags yamlFlags ret, None)
    end
  else (ret, None).

(** [Init]: the struct [ret] points to on return, and [err]. *)
Definition Init (w : World) : Flags * option error :=
  let usedFlags := scanArgs (Args w) in
  let '(ret, args, err) := flags_Parse L (Args w) Flags_zero in
  match err with
  | Some err => (ret, Some err)
  | None =>
      let '(ret, err) := resolveConfig w usedFlags ret in
      match err with
      | Some err => (ret, Some err)
      | None => handleInput w args ret
      end
  end.

End Program.

(** ** A reference implementation of the libraries

    [Ref.lib] implements [Lib] on a part of what the Go libraries accept:
    decimal numbers, the option syntax [--name value], [--name=value],
    [-n value], [-n=value], and config files of one [key: scalar] entry
    per line, the scalar resolved as [yaml.v3] resolves it. It serves to run the program on examples; the theorems on
    [Init] hold for every [Lib]. *)
Module Ref.

(** *** [strconv] *)

Definition ParseBool (str : string) : option bool :=
  if bool_decide (str ∈ ["1"; "t"; "T"; "TRUE"; "true"; "True"]) then Some true
  else if bool_decide (str ∈ ["0"; "f"; "F"; "FALSE"; "false"; "False"]) then Some false
  else None.

Definition digit (c : ascii) : option Z :=
  let n := Z.of_nat (nat_of_ascii c) in
  if (48 <=? n) && (n <=? 57) then Some (n - 48) else None.

(** The number a string of decimal digits writes, after [acc]. *)
Fixpoint digits (acc : Z) (s : string) : option Z :=
  match s with
  | EmptyString => Some acc
  | String c s' =>
      match digit c with
      | Some d => digits (10 * acc + d) s'
      | None => None
      end
  end.

(** An optional sign, and what follows it. *)
Definition sign (s : string) : bool * string :=
  match s with
  | String "-" s' => (true, s')
  | String "+" s' => (false, s')
  | _ => (false, s)
  end.

Definition unsigned (s : string) : option Z :=
  match s with
  | EmptyString => None
  | _ => digits 0 s
  end.

Definition integer (s : string) : option Z :=
  let '(neg, s') := sign s in
  z ← unsigned s';
  Some (if neg then - z else z).

(** [strconv.ParseInt(str, 10, 64)] *)
Definition ParseInt (str : string) : option Z :=
  z ← integer str;
  if (- 2 ^ 63 <=? z) && (z <? 2 ^ 63) then Some z else None.

(** [s] at the first [c]: what is before, and what is after. *)
Fixpoint split_at (c : ascii) (s : string) : option (string * string) :=
  match s with
  | EmptyString => None
  | String a s' =>
      if Ascii.eqb a c then Some ("", s')
      else match split_at c s' with
           | Some (l, r) => Some (String a l, r)
           | None => None
           end
  end.

(** The binary64 number nearest to [m * 10 ^ e10], ties to even. *)
Definition nearest (neg : bool) (m e10 : Z) : float64 :=
  if m =? 0 then S754_zero neg
  else if 0 <=? e10 then
    binary_round_aux 53 1024 neg (m * 10 ^ e10) 0 loc_Exact
  else
    let d := 10 ^ (- e10) in
    let s := Z.max 0 (64 + Z.log2_up d - Z.log2 m) in
    let q := Z.shiftl m s / d in
    let r := Z.shiftl m s mod d in
    let loc := if r =? 0 then loc_Exact else loc_Inexact (2 * r ?= d) in
    binary_round_aux 53 1024 neg q (- s) loc.

Definition lower (c : ascii) : ascii :=
  let n := nat_of_ascii c in
  if (65 <=? Z.of_nat n) && (Z.of_nat n <=? 90) then ascii_of_nat (n + 32) else c.

Fixpoint ToLower (s : string) : string :=
  match s with
  | EmptyString => EmptyString
  | String c s' => String (lower c) (ToLower s')
  end.

(** A decimal number [digits[.digits][e[+-]digits]] as mantissa and
    decimal exponent. *)
Definition decimal (s : string) : option (Z * Z) :=
  let '(mant, e) :=
    match split_at "e" (ToLower s) with
    | Some (mant, ex) => (mant, integer ex)
    | None => (s, Some 0)
    end in
  e ← e;
  let '(ip, fp) :=
    match split_at "." mant with
    | Some (ip, fp) => (ip, fp)
    | None => (mant, "")
    end in
  if String.eqb (ip +:+ fp) "" then None
  else m ← digits 0 (ip +:+ fp); Some (m, e - Z.of_nat (String.length fp)).

(** [strconv.ParseFloat(str, 64)] on decimal numbers, infinities and NaN. *)
Definition ParseFloat (str : string) : option float64 :=
  let '(neg, body) := sign str in
  if bool_decide (ToLower body ∈ ["inf"; "infinity"]) then Some (S754_infinity neg)
  else if bool_decide (ToLower str = "nan") then Some S754_nan
  else
    '(m, e10) ← decimal body;
    match nearest neg m e10 with
    | S754_infinity _ => None
    | f => Some f
    end.

(** *** [go-flags] *)

Definition argumentIsOption (arg : string) : bool :=
  match arg with
  | String "-" (String "-" (String c _)) => negb (Ascii.eqb c "-")
  | String "-" (String "-" EmptyString) => false
  | String "-" (String _ _) => true
  | _ => false
  end.

(** The value of an option of the type of [old] written [arg]. *)
Definition convert (old : Value) (arg : string) : option Value :=
  match old with
  | VString _ => Some (VString arg)
  | VInt _ => VInt <$> ParseInt arg
  | VFloat _ => VFloat <$> ParseFloat arg
  | VBool _ => VBool <$> ParseBool arg
  | VMap m => '(k, v) ← split_at ":" arg; Some (VMap (<[k := v]> m))
  | VSlice l => Some (VSlice (l ++ [arg]))
  end.

(** The option with the long (or short) name [name]. *)
Definition lookup_option (tag : StructField → string) (name : string)
  : option (nat * StructField) :=
  if String.eqb name "" then None
  else list_find (λ sf, tag sf = name) FlagsType.

(** Sequencing of calls that may fail. *)
Definition andThen {A B : Type} (r : A + error) (k : A → B + error) : B + error :=
  match r with
  | inl a => k a
  | inr err => inr err
  end.

(** The struct being filled, and the positions of the options seen. *)
Definition state : Type := Flags * list nat.

Definition isSignedNumber (t : reflect_Type) : bool :=
  match t with
  | int_t | float64_t => true
  | _ => false
  end.

Definition isValidValue (t : reflect_Type) (arg : string) : bool :=
  negb (argumentIsOption arg)
  || (isSignedNumber t
      && match arg with
         | String "-" (String c _) => bool_decide (is_Some (digit c))
         | _ => false
         end).

Definition assign (st : state) (i : nat) (arg : string) : state + error :=
  match st.1 !! i with
  | Some old =>
      match convert old arg with
      | Some v => inl (<[i := v]> st.1, i :: st.2)
      | None => inr (lib_error "flags: invalid argument")
      end
  | None => inr (lib_error "flags: no such field")
  end.

(** One option, with the argument attached to it if any, and the token
    [next] that follows: the new state and whether [next] was taken. *)
Definition parseOption (st : state) (opt : nat * StructField) (canarg : bool)
    (argument next : option string) : state * bool + error :=
  let '(i, sf) := opt in
  match Typ sf with
  | bool_t =>
      match argument with
      | Some _ => inr (lib_error "flags: bool flag cannot have an argument")
      | None => inl (<[i := VBool true]> st.1, i :: st.2, false)
      end
  | t =>
      match argument, next with
      | Some a, _ => andThen (assign st i a) (λ st', inl (st', false))
      | None, Some a =>
          if canarg then
            if isValidValue t a && negb (String.eqb a "--")
            then andThen (assign st i a) (λ st', inl (st', true))
            else inr (lib_error "flags: expected argument, got option")
          else inr (lib_error "flags: expected argument")
      | None, None => inr (lib_error "flags: expected argument")
      end
  end.

Definition help : error := lib_error "flags: help".

(** The short options bundled in [optname], the last one taking the
    argument. *)
Fixpoint parseShort (st : state) (optname : string)
    (argument next : option string) : state * bool + error :=
  match optname with
  | EmptyString => inl (st, false)
  | String c rest =>
      if Ascii.eqb c "h" then inr help else
      match lookup_option short (String c "") with
      | None => inr (lib_error "flags: unknown flag")
      | Some opt =>
          match rest with
          | EmptyString => parseOption st opt true argument next
          | _ =>
              match parseOption st opt false None None with
              | inl r => parseShort r.1 rest argument next
              | inr err => inr err
              end
          end
      end
  end.

(** [-t0.2]: the first short option takes what follows it as argument,
    if it takes one. *)
Definition splitShortConcatArg (optname : string) : string * option string :=
  match optname with
  | String c (String _ _ as arg) =>
      match lookup_option short (String c "") with
      | Some (_, sf) =>
          if negb (Type_eqb (Typ sf) bool_t) then (String c "", Some arg)
          else (optname, None)
      | None => (optname, None)
      end
  | _ => (optname, None)
  end.

Definition splitOption (opt : string) (islong : bool) : string * option string :=
  match split_at "=" opt with
  | Some (name, arg) =>
      if islong || (String.length name =? 1)%nat then (name, Some arg)
      else (opt, None)
  | None => (opt, None)
  end.

Fixpoint run (toks : list string) (st : state) (retargs : list string)
  : state * list string * option error :=
  match toks with
  | [] => (st, retargs, None)
  | arg :: toks' =>
      if String.eqb arg "--" then (st, retargs ++ toks', None)
      else if negb (argumentIsOption arg) then run toks' st (retargs ++ [arg])
      else
        let islong := strings.HasPrefix arg "--" in
        let '(optname, argument) :=
          splitOption (strings.from (if islong then 2 else 1) arg) islong in
        let r :=
          if islong then
            if String.eqb optname "help" then inr help else
            match lookup_option long optname with
            | Some opt => parseOption st opt true argument (head toks')
            | None => inr (lib_error "flags: unknown flag")
            end
          else
            let '(optname, argument) :=
              match argument with
              | None => splitShortConcatArg optname
              | Some _ => (optname, argument)
              end in
            parseShort st optname argument (head toks') in
        match r, toks' with
        | inr err, _ => (st, arg :: toks', Some err)
        | inl (st', true), _ :: toks'' => run toks'' st' retargs
        | inl (st', _), _ => run toks' st' retargs
        end
  end.

(** The defaults of the options that were not seen. *)
Definition applyDefault (seen : list nat) (ret : Flags) (i : nat) : Flags :=
  match FlagsType !! i, ret !! i with
  | Some sf, Some old =>
      if bool_decide (i ∈ seen) || String.eqb (dflt sf) ""
         || (String.eqb (short sf) "" && String.eqb (long sf) "")
      then ret
      else match convert old (dflt sf) with
           | Some v => <[i := v]> ret
           | None => ret
           end
  | _, _ => ret
  end.

Definition Parse (args : list string) (ret : Flags)
  : Flags * list string * option error :=
  let '(st, retargs, err) := run args (ret, []) [] in
  match err with
  | Some _ => (st.1, retargs, err)
  | None => (foldl (applyDefault st.2) st.1 (seq 0 NumField), retargs, None)
  end.

(** *** [yaml.v3] *)

(** The lines of a text. *)
Fixpoint lines (s : string) : list string :=
  match s with
  | EmptyString => [EmptyString]
  | String c s' =>
      match lines s' with
      | l :: ls => if Ascii.eqb c LF then EmptyString :: l :: ls else String c l :: ls
      | [] => []
      end
  end.

Fixpoint trim_left (s : string) : string :=
  match s with
  | String " " s' => trim_left s'
  | _ => s
  end.

Definition trim (s : string) : string :=
  String.rev (trim_left (String.rev (trim_left s))).

(** [s] without the comment that ends it, if any. *)
Fixpoint uncomment (s : string) : string :=
  match s with
  | String " " (String "#" _) => EmptyString
  | String c s' => String c (uncomment s')
  | EmptyString => EmptyString
  end.

(** A scalar node: its text, and whether it is quoted. *)
Record node := scalar { text : string; quoted : bool }.

(** What a scalar resolves to. *)
Inductive resolved :=
| r_null
| r_bool (b : bool)
| r_int (n : Z)
| r_float (f : float64)
| r_str (s : string).

(** The value of a digit in a base up to sixteen. *)
Definition digit_in (base : Z) (c : ascii) : option Z :=
  let n := Z.of_nat (nat_of_ascii c) in
  let d := if (48 <=? n) && (n <=? 57) then n - 48
           else if (97 <=? n) && (n <=? 102) then n - 87
           else if (65 <=? n) && (n <=? 70) then n - 55
           else 16 in
  if d <? base then Some d else None.

Fixpoint digits_in (base acc : Z) (s : string) : option Z :=
  match s with
  | EmptyString => Some acc
  | String c s' =>
      match digit_in base c with
      | Some d => digits_in base (base * acc + d) s'
      | None => None
      end
  end.

Definition number (base : Z) (s : string) : option Z :=
  match s with
  | EmptyString => None
  | _ => digits_in base 0 s
  end.

(** [strings.Replace(in, "_", "", -1)] *)
Fixpoint plain (s : string) : string :=
  match s with
  | EmptyString => EmptyString
  | String c s' => if Ascii.eqb c "_" then plain s' else String c (plain s')
  end.

(** An unsigned integer in base 0: the prefix gives the base, a leading
    zero makes it octal. *)
Definition literal (s : string) : option Z :=
  match s with
  | String "0" (String c (String _ _ as rest)) =>
      if Ascii.eqb (lower c) "x" then number 16 rest
      else if Ascii.eqb (lower c) "b" then number 2 rest
      else if Ascii.eqb (lower c) "o" then number 8 rest
      else number 8 (String c rest)
  | String "0" (String _ _ as rest) => number 8 rest
  | _ => number 10 s
  end.

(** [strconv.ParseInt(plain, 0, 64)] and, when that fails,
    [strconv.ParseUint(plain, 0, 64)], which takes no sign. *)
Definition resolve_int (s : string) : option Z :=
  match s with
  | String "-" s' => z ← literal s'; if z <=? 2 ^ 63 then Some (- z) else None
  | String "+" s' => z ← literal s'; if z <? 2 ^ 63 then Some z else None
  | _ => z ← literal s; if z <? 2 ^ 64 then Some z else None
  end.

(** A decimal number that [strconv.ParseFloat] returns without error. *)
Definition resolve_float (s : string) : option float64 :=
  '(m, e10) ← decimal (sign s).2;
  match nearest (sign s).1 m e10 with
  | S754_infinity _ => None
  | f => Some f
  end.

(** [resolve]: the table of the fixed scalars, then, by the first
    character, a number or the text. *)
Definition resolve (n : node) : resolved :=
  if quoted n then r_str (text n)
  else if bool_decide (text n ∈ [""; "~"; "null"; "Null"; "NULL"]) then r_null
  else if bool_decide (text n ∈ ["true"; "True"; "TRUE"]) then r_bool true
  else if bool_decide (text n ∈ ["false"; "False"; "FALSE"]) then r_bool false
  else if bool_decide (text n ∈ [".nan"; ".NaN"; ".NAN"]) then r_float S754_nan
  else if bool_decide (text n ∈ [".inf"; ".Inf"; ".INF"; "+.inf"; "+.Inf"; "+.INF"])
  then r_float (S754_infinity false)
  else if bool_decide (text n ∈ ["-.inf"; "-.Inf"; "-.INF"]) then r_float (S754_infinity true)
  else match text n with
       | String "." _ =>
           match resolve_float (text n) with
           | Some f => r_float f
           | None => r_str (text n)
           end
       | String c _ =>
           if bool_decide (is_Some (digit c)) || Ascii.eqb c "+" || Ascii.eqb c "-" then
             match resolve_int (plain (text n)) with
             | Some z => r_int z
             | None =>
                 match resolve_float (plain (text n)) with
                 | Some f => r_float f
                 | None => r_str (text n)
                 end
             end
           else r_str (text n)
       | EmptyString => r_null
       end.

(** The value written after [key:]. *)
Definition parse_value (s : string) : option node :=
  match trim_left s with
  | String q s' =>
      if Ascii.eqb q dquote || Ascii.eqb q "'" then
        match split_at q s' with
        | Some (body, rest) =>
            if String.eqb (trim (uncomment (String " " rest))) ""
               && negb (bool_decide (is_Some (split_at "\" body)))
            then Some (scalar body true) else None
        | None => None
        end
      else Some (scalar (trim (uncomment (String q s'))) false)
  | EmptyString => Some (scalar "" false)
  end.

(** One line of a flat mapping: nothing, or a key and its scalar. *)
Definition parse_line (l : string) : option (option (string * node)) :=
  if String.eqb (trim l) "" then Some None else
  match l with
  | String "#" _ => Some None
  | String " " _ => None
  | _ =>
      match split_at ":" l with
      | Some (key, rest) =>
          let plain := negb (bool_decide (is_Some (split_at " " key)))
                       && negb (bool_decide (is_Some (split_at dquote key)))
                       && negb (String.eqb key "") in
          let spaced := match rest with
                        | EmptyString | String " " _ => true
                        | _ => false
                        end in
          if plain && spaced
          then n ← parse_value rest; Some (Some (key, n))
          else None
      | None => None
      end
  end.

(** The entries of a document that is a flat mapping of scalars. *)
Fixpoint parse_lines (ls : list string) : option (list (string * node)) :=
  match ls with
  | [] => Some []
  | l :: ls' =>
      e ← parse_line l;
      es ← parse_lines ls';
      Some (match e with Some kv => kv :: es | None => es end)
  end.

Definition document (data : string) : option (list (string * node)) :=
  es ← parse_lines (lines data);
  if bool_decide (NoDup es.*1) then Some es else None.

(** The key a field is decoded from: its [yaml] tag, or its name in
    lower case. *)
Definition key_of (sf : StructField) : string :=
  if String.eqb (yaml sf) "" then ToLower (Name sf) else yaml sf.

(** [resolved <= math.MaxInt64] for a float: the constant is rounded to
    [2 ^ 63]. *)
Definition fits (f : float64) : bool := SFleb f (S754_finite false (2 ^ 52) 11).

(** A scalar decoded into a field that holds [old]: the new content, or
    [None] for a type error. *)
Definition decode (old : Value) (n : node) : option Value :=
  match resolve n, old with
  | r_null, (VMap _ | VSlice _) => Some (zero (Value_Type old))
  | r_null, _ => Some old
  | _, VString _ => Some (VString (text n))
  | r_int z, VInt _ => if (- 2 ^ 63 <=? z) && (z <? 2 ^ 63) then Some (VInt z) else None
  | r_float f, VInt _ => if fits f then Some (VInt (int64_of_float64 f)) else None
  | r_int z, VFloat _ => Some (VFloat (binary_normalize 53 1024 z 0 false))
  | r_float f, VFloat _ => Some (VFloat f)
  | r_bool b, VBool _ => Some (VBool b)
  | r_str s, VBool _ =>
      if bool_decide (s ∈ ["y"; "Y"; "yes"; "Yes"; "YES"; "on"; "On"; "ON"]) then Some (VBool true)
      else if bool_decide (s ∈ ["n"; "N"; "no"; "No"; "NO"; "off"; "Off"; "OFF"]) then Some (VBool false)
      else None
  | _, _ => None
  end.

(** One entry decoded into the struct: the struct afterwards, and whether
    a type error was met. *)
Definition decode_entry (acc : Flags * bool) (kv : string * node) : Flags * bool :=
  match list_find (λ sf, key_of sf = kv.1) FlagsType with
  | Some (i, _) =>
      match acc.1 !! i with
      | Some old =>
          match decode old kv.2 with
          | Some v => (<[i := v]> acc.1, acc.2)
          | None => (acc.1, true)
          end
      | None => acc
      end
  | None => acc
  end.

Definition Unmarshal (data : string) (config : Flags) : Flags * option error :=
  match document data with
  | None => (config, Some (lib_error "yaml: cannot parse the document"))
  | Some es =>
      let '(config', failed) := foldl decode_entry (config, false) es in
      (config', if failed then Some (lib_error "yaml: unmarshal errors") else None)
  end.

Definition lib : Lib := {|
  strconv_ParseFloat := ParseFloat;
  strconv_ParseInt := ParseInt;
  strconv_ParseBool := ParseBool;
  flags_Parse := Parse;
  yaml_Unmarshal := Unmarshal
|}.

End Ref.

(** ** Sample runs *)
Module Sample.

(** A terminal and a pipe, as [os.Stdin.Stat()] reports them. *)
Definition terminal : Z := Z.lor (Z.shiftl 1 26) (Z.lor (Z.shiftl 1 21) 400).
Definition pipe : Z := Z.lor (Z.shiftl 1 25) 432.

(** A process started from a terminal, with no config file anywhere. *)
Definition world (args : list string) : World := {|
  Args := args;
  defaultLocation := inl "/home/u/.config/fabric/config.yaml";
  GetAbsolutePath := inl;
  files := ∅;
  stdin_Mode := terminal;
  stdin_data := "";
  stdin_end := io_EOF
|}.

Definition with_file (path data : string) (w : World) : World := {|
  Args := Args w;
  defaultLocation := defaultLocation w;
  GetAbsolutePath := GetAbsolutePath w;
  files := <[path := inl data]> (files w);
  stdin_Mode := stdin_Mode w;
  stdin_data := stdin_data w;
  stdin_end := stdin_end w
|}.

Definition with_stdin (data : string) (end_ : error) (w : World) : World := {|
  Args := Args w;
  defaultLocation := defaultLocation w;
  GetAbsolutePath := GetAbsolutePath w;
  files := files w;
  stdin_Mode := pipe;
  stdin_data := data;
  stdin_end := end_
|}.

Definition line (s : string) : string := s +:+ nl.

(** The value of the field named [name]. *)
Definition get (name : string) (f : Flags) : option Value := f !! FieldByName name.

(** The field at position [i]. *)
Definition fieldAt (i : nat) : StructField :=
  default (sfield "" string_t "" "" "" "") (FlagsType !! i).

Definition quote (s : string) : string := String dquote (s +:+ String dquote "").

(** [fabric -t 0.2 --config /c.yaml], the file setting [temperature: 0.9]. *)
Definition w_cli_and_file : World :=
  with_file "/c.yaml" (line "temperature: 0.9")
    (world ["-t"; "0.2"; "--config"; "/c.yaml"]).

(** [fabric -t 0.7 --config /c.yaml]: the default, typed by the user. *)
Definition w_cli_default : World :=
  with_file "/c.yaml" (line "temperature: 0.9")
    (world ["-t"; "0.7"; "--config"; "/c.yaml"]).

(** [fabric --config /c.yaml], the file setting [temperature: 0.9] only. *)
Definition w_file_only : World :=
  with_file "/c.yaml" (line "temperature: 0.9") (world ["--config"; "/c.yaml"]).

(** [fabric], the default config file holding the line [seed: "7"]. *)
Definition w_seed_text : World :=
  with_file "/home/u/.config/fabric/config.yaml" (line ("seed: " +:+ quote "7"))
    (world []).

(** [fabric], the default config file holding the line [seed: 7]. *)
Definition w_seed_number : World :=
  with_file "/home/u/.config/fabric/config.yaml" (line "seed: 7") (world []).

(** [fabric --config /c.yaml] with no such file, and with a file that is
    no mapping. *)
Definition w_missing : World := world ["--config"; "/c.yaml"].
Definition w_not_yaml : World := with_file "/c.yaml" (line "just text") w_missing.

(** [fabric --model gpt-4 hello] from a terminal. *)
Definition w_terminal : World := world ["--model"; "gpt-4"; "hello"].

(** [fabric] and [fabric a b] reading two lines from a pipe. *)
Definition w_piped : World := with_stdin (line "line1" +:+ line "line2") io_EOF (world []).
Definition w_piped_args : World :=
  with_stdin (line "line1" +:+ "line2") io_EOF (world ["a"; "b"]).

(** [fabric a b] on a pipe whose read fails after a line and a half. *)
Definition w_broken_pipe : World :=
  with_stdin (line "line1" +:+ "line2") (PathError "read" "/dev/stdin" EIO)
    (world ["a"; "b"]).

(** [w_cli_and_file] in a file system with one more file, where another
    path resolves otherwise. *)
Definition w_cli_and_file' : World := {|
  Args := Args w_cli_and_file;
  defaultLocation := defaultLocation w_cli_and_file;
  GetAbsolutePath := λ p, if String.eqb p "other" then inl "/tmp/other" else inl p;
  files := <["/tmp/other" := inl "x"]> (files w_cli_and_file);
  stdin_Mode := stdin_Mode w_cli_and_file;
  stdin_data := stdin_data w_cli_and_file;
  stdin_end := stdin_end w_cli_and_file
|}.

End Sample.

(** ** The vocabulary of the properties *)

(** The position of the first [c] in [s]. *)
Fixpoint find (c : ascii) (s : string) : option nat :=
  match s with
  | EmptyString => None
  | String a s' => if Ascii.eqb c a then Some O else S <$> find c s'
  end.

(** The option name in what follows the dashes: [r] as a whole, unless an
    ["="] stands at a position greater than 0; then what precedes it. *)
Definition name_of (r : string) : string :=
  match find "=" r with
  | Some (S i) => strings.upto (S i) r
  | _ => r
  end.

(** A flag name the pre-scan can extract from a token: it is not empty,
    does not start with a dash and holds no ["="]. *)
Definition validName (n : string) : Prop :=
  n ≠ "" ∧ strings.HasPrefix n "-" = false ∧ find "=" n = None.

Global Instance validName_dec n : Decision (validName n) :=
  ltac:(unfold validName; apply _).

(** What [Init] relies on in the tags of a field with a yaml tag: its
    flag names are valid and map to its yaml tag. *)
Definition tags_ok (sf : StructField) : Prop :=
  yaml sf ≠ "" →
  (long sf ≠ "" → validName (long sf) ∧ flagToYamlTag !! long sf = Some (yaml sf))
  ∧ (short sf ≠ "" → validName (short sf) ∧ flagToYamlTag !! short sf = Some (yaml sf)).

Global Instance tags_ok_dec sf : Decision (tags_ok sf) :=
  ltac:(unfold tags_ok; apply _).

(** Every entry of [flagToYamlTag] comes from the field with that yaml
    tag. *)
Definition entry_ok (flag yamlTag : string) : Prop :=
  validName flag ∧
  Forall (λ sf, yaml sf = yamlTag → flag = long sf ∨ flag = short sf) FlagsType.

Global Instance entry_ok_dec flag yamlTag : Decision (entry_ok flag yamlTag) :=
  ltac:(unfold entry_ok; apply _).

(** [tok] is the flag name [n] in the shape of a flag: one or two dashes,
    the name, and possibly ["="] and a value. *)
Definition invokes (n tok : string) : Prop :=
  ∃ dashes, dashes ∈ ["-"; "--"]
    ∧ (tok = dashes +:+ n ∨ ∃ v, tok = dashes +:+ n +:+ "=" +:+ v).

(** The error [readStdin] returns for a read that failed with [cause]. *)
Definition stdinError (cause : error) : error :=
  fmt_Errorf_w "error reading piped message from stdin: %w" cause.

(** The segments appended to the message: the last leftover token, then
    the piped text. *)
Definition segments (w : World) (args : list string) : list string :=
  option_list (last args) ++ (if pipedToStdin w then [stdin_data w] else []).

Definition appendAll (ret : Flags) (segs : list string) : Flags :=
  match segs with
  | [] => ret
  | _ => setString ret "Message" (foldl AppendMessage (Message ret) segs)
  end.

(** The struct after the merge, and the error of the config stage. *)
Definition afterMerge (L : Lib) (w : World) : Flags * option error :=
  resolveConfig L w (scanArgs (Args w)) (parsed L w).

(** Two runs have the same inputs: the same raw tokens, the same standard
    input (mode, bytes, end), and the same config file: the default
    location is looked up with one result, and the config path in effect
    resolves to one absolute path that names one file. *)
Definition same_inputs (L : Lib) (w1 w2 : World) : Prop :=
  Args w1 = Args w2
  ∧ stdin_Mode w1 = stdin_Mode w2
  ∧ stdin_data w1 = stdin_data w2
  ∧ stdin_end w1 = stdin_end w2
  ∧ GetDefaultConfigPath w1 = GetDefaultConfigPath w2
  ∧ (let configPath := Config (withDefaultConfig w1 (parsed L w1)) in
     GetAbsolutePath w1 configPath = GetAbsolutePath w2 configPath
     ∧ ∀ absPath, GetAbsolutePath w1 configPath = inl absPath →
                  files w1 !! absPath = files w2 !! absPath).

(** [arg] without the dashes that make it a flag. *)
Definition remainder (arg : string) : string :=
  if strings.HasPrefix arg "--" then strings.from 2 arg
  else if strings.HasPrefix arg "-" && (1 <? Z.of_nat (String.length arg))
       then strings.from 1 arg
       else "".

(** The extraction as section 4.1 of the specification words it: "strip
    the prefix; if the remainder contains a value-separator character,
    keep only the portion before it as the option name". *)
Definition extractFlag_spec (arg : string) : string :=
  let r := remainder arg in
  match find "=" r with
  | Some i => strings.upto i r
  | None => r
  end.

(** The second half of C2 as the specification states it, for a run on
    the reference libraries: an option with a config-file key that no
    token invokes, and whose key is not in the config file that was
    loaded, keeps the value the parser delivered. *)
Definition absent_key_keeps_default (w : World) : Prop :=
  ∀ i sf absPath data yamlFlags,
    FlagsType !! i = Some sf → yaml sf ≠ "" →
    (∀ tok n, tok ∈ Args w → n ∈ [short sf; long sf] → n ≠ "" → ¬ invokes n tok) →
    parseError Ref.lib w = None →
    GetAbsolutePath w (Config (withDefaultConfig w (parsed Ref.lib w))) = inl absPath →
    files w !! absPath = Some (inl data) →
    loadYAMLConfig Ref.lib w (Config (withDefaultConfig w (parsed Ref.lib w)))
      = inl yamlFlags →
    (∀ es, Ref.document data = Some es → yaml sf ∉ es.*1) →
    (Init Ref.lib w).1 !! i = parsed Ref.lib w !! i.

(** Membership in a list that is written out. *)
Ltac in_cases H :=
  repeat (apply elem_of_cons in H as [H|H]; [try subst|]);
  try (apply elem_of_nil in H; destruct H).

(** ** The other functions of [flags.go] *)

(** Fields of the struct read by name, each at its type. *)
Definition getBool (f : Flags) (name : string) : bool :=
  match f !! FieldByName name with
  | Some (VBool b) => b
  | _ => false
  end.

Definition getInt (f : Flags) (name : string) : Z :=
  match f !! FieldByName name with
  | Some (VInt n) => n
  | _ => 0
  end.

Definition getFloat (f : Flags) (name : string) : float64 :=
  match f !! FieldByName name with
  | Some (VFloat x) => x
  | _ => S754_zero false
  end.

Definition getMap (f : Flags) (name : string) : gmap string string :=
  match f !! FieldByName name with
  | Some (VMap m) => m
  | _ => ∅
  end.

Definition getSlice (f : Flags) (name : string) : list string :=
  match f !! FieldByName name with
  | Some (VSlice l) => l
  | _ => []
  end.

(** [o.AppendMessage(message)] *)
Definition Flags_AppendMessage (o : Flags) (message : string) : Flags :=
  setString o "Message" (AppendMessage (Message o) message).

(** [o.IsChatRequest()] *)
Definition IsChatRequest (o : Flags) : bool :=
  negb (String.eqb (Message o) "")
  || (0 <? Z.of_nat (length (getSlice o "Attachments")))
  || negb (String.eqb (getString o "Context") "")
  || negb (String.eqb (getString o "Session") "")
  || negb (String.eqb (getString o "Pattern") "").

(** *** What the functions call outside the file *)

Module filepath.

(** The loop of [filepath.Ext] from the last byte of the path backwards,
    ['/'] being the separator: [rest] is the path before the byte looked
    at, reversed, and [suffix] what follows it. *)
Fixpoint Ext_loop (rest suffix : string) : string :=
  match rest with
  | EmptyString => EmptyString
  | String c rest' =>
      if Ascii.eqb c "/" then EmptyString
      else if Ascii.eqb c "." then String c suffix
      else Ext_loop rest' (String c suffix)
  end.

(** [filepath.Ext(path)] *)
Definition Ext (path : string) : string := Ext_loop (String.rev path) "".

End filepath.

(** The bytes of [s] are below [utf8.RuneSelf]. *)
Fixpoint isASCII (s : string) : bool :=
  match s with
  | EmptyString => true
  | String c s' => (Z.of_nat (nat_of_ascii c) <? 128) && isASCII s'
  end.

(** The lower case of the letters ['A'] to ['Z']. *)
Definition lowerByte (c : ascii) : ascii :=
  let n := nat_of_ascii c in
  if (65 <=? Z.of_nat n) && (Z.of_nat n <=? 90) then ascii_of_nat (n + 32) else c.

Fixpoint lowerASCII (s : string) : string :=
  match s with
  | EmptyString => EmptyString
  | String c s' => String (lowerByte c) (lowerASCII s')
  end.

Module domain.

(** A [domain.Attachment], by what [BuildChatRequest] reads of it: the
    field [URL] and the results of its methods. *)
Record Attachment := {
  URL : option string;
  Base64Content : string + error;
  ResolveType : string + error
}.

(** The fields of [domain.ChatOptions] that [BuildChatOptions] sets. *)
Record ChatOptions := {
  Model : string;
  Temperature : float64;
  TopP : float64;
  PresencePenalty : float64;
  FrequencyPenalty : float64;
  Raw : bool;
  Seed : Z;
  ModelContextLength : Z;
  SearchLocation : string; Search : bool;
  ImageFile : string;
  ImageSize : string;
  ImageQuality : string;
  ImageCompression : Z;
  ImageBackground : string;
  SuppressThink : bool;
  ThinkStartTag : string;
  ThinkEndTag : string;
  Voice : string
}.

End domain.

Module chat.

Inductive PartType := ChatMessagePartTypeText | ChatMessagePartTypeImageURL.

(** A [chat.ChatMessagePart]; [ImageURL] is the [URL] of the
    [ChatMessageImageURL] the part points to, if it points to one. *)
Record ChatMessagePart := {
  Type_ : option PartType;
  Text : string;
  ImageURL : option string
}.

Inductive Role := ChatMessageRoleUser.

(** The fields of [chat.ChatCompletionMessage] that [BuildChatRequest]
    sets. *)
Record ChatCompletionMessage := {
  Role_ : option Role;
  Content : string;
  MultiContent : list ChatMessagePart
}.

End chat.

Module request.

(** The fields of [domain.ChatRequest] that [BuildChatRequest] sets. *)
Record ChatRequest := {
  ContextName : string;
  SessionName : string;
  PatternName : string;
  StrategyName : string;
  PatternVariables : gmap string string;
  InputHasVars : bool;
  Meta : string;
  Message : option chat.ChatCompletionMessage;
  Language : string
}.

End request.

(** The calls of the functions below that leave the file, for any
    implementation of them. *)
Record Env := {
  (** [strings.Map(unicode.ToLower, s)], which [strings.ToLower] returns
      for a string that is not ASCII *)
  unicode_ToLower : string → string;
  (** [os.Stat(name)] returns no error *)
  os_Stat : string → bool;
  (** [strings.TrimSpace(s)] *)
  strings_TrimSpace : string → string;
  (** [language.Parse(s)]: [langTag.String()] when [langErr == nil] *)
  language_Parse : string → option string;
  (** [domain.NewAttachment(value)] *)
  domain_NewAttachment : string → domain.Attachment + error
}.

(** [strings.ToLower(s)]: ASCII strings are lowered byte by byte. *)
Definition strings_ToLower (E : Env) (s : string) : string :=
  if isASCII s then lowerASCII s else unicode_ToLower E s.

(** *** The validation of the image options *)

(** The errors of [validateImageFile] and [validateImageParameters], one
    constructor for each message, with the values the message shows. *)
Inductive ImageError :=
| ImageFileExists (imagePath : string)
| InvalidExtension (ext : string)
| ParametersWithoutFile
| InvalidSize (size : string)
| InvalidQuality (quality : string)
| InvalidBackground (background : string)
| CompressionFormat (ext : string)
| CompressionRange (compression : Z)
| TransparentFormat (ext : string).

(** [for _, v := range valid { if s == v { ... } }] *)
Definition among (s : string) (valid : list string) : bool :=
  existsb (String.eqb s) valid.

Definition validateImageFile (E : Env) (imagePath : string) : option ImageError :=
  if String.eqb imagePath "" then None
  else if os_Stat E imagePath then Some (ImageFileExists imagePath)
  else
    let ext := strings_ToLower E (filepath.Ext imagePath) in
    if among ext [".png"; ".jpeg"; ".jpg"; ".webp"] then None
    else Some (InvalidExtension ext).

Definition validateImageParameters (E : Env)
    (imagePath size quality background : string) (compression : Z)
  : option ImageError :=
  if String.eqb imagePath "" then
    if negb (String.eqb size "") || negb (String.eqb quality "")
       || negb (String.eqb background "") || negb (compression =? 0)
    then Some ParametersWithoutFile
    else None
  else if negb (String.eqb size "")
          && negb (among size ["1024x1024"; "1536x1024"; "1024x1536"; "auto"])
  then Some (InvalidSize size)
  else if negb (String.eqb quality "")
          && negb (among quality ["low"; "medium"; "high"; "auto"])
  then Some (InvalidQuality quality)
  else if negb (String.eqb background "")
          && negb (among background ["opaque"; "transparent"])
  then Some (InvalidBackground background)
  else
    let ext := strings_ToLower E (filepath.Ext imagePath) in
    if negb (compression =? 0)
       && (negb (String.eqb ext ".jpg") && negb (String.eqb ext ".jpeg")
           && negb (String.eqb ext ".webp"))
    then Some (CompressionFormat ext)
    else if negb (compression =? 0) && ((compression <? 0) || (100 <? compression))
    then Some (CompressionRange compression)
    else if String.eqb background "transparent"
            && (negb (String.eqb ext ".png") && negb (String.eqb ext ".webp"))
    then Some (TransparentFormat ext)
    else None.

(** [o.BuildChatOptions()] *)
Definition BuildChatOptions (E : Env) (o : Flags) : domain.ChatOptions + ImageError :=
  match validateImageFile E (getString o "ImageFile") with
  | Some err => inr err
  | None =>
      match validateImageParameters E (getString o "ImageFile")
              (getString o "ImageSize") (getString o "ImageQuality")
              (getString o "ImageBackground") (getInt o "ImageCompression") with
      | Some err => inr err
      | None =>
          let startTag := getString o "ThinkStartTag" in
          let startTag := if String.eqb startTag "" then "<think>" else startTag in
          let endTag := getString o "ThinkEndTag" in
          let endTag := if String.eqb endTag "" then "</think>" else endTag in
          inl {|
            domain.Model := getString o "Model";
            domain.Temperature := getFloat o "Temperature";
            domain.TopP := getFloat o "TopP";
            domain.PresencePenalty := getFloat o "PresencePenalty";
            domain.FrequencyPenalty := getFloat o "FrequencyPenalty";
            domain.Raw := getBool o "Raw";
            domain.Seed := getInt o "Seed";
            domain.ModelContextLength := getInt o "ModelContextLength";
            domain.Search := getBool o "Search";
            domain.SearchLocation := getString o "SearchLocation";
            domain.ImageFile := getString o "ImageFile";
            domain.ImageSize := getString o "ImageSize";
            domain.ImageQuality := getString o "ImageQuality";
            domain.ImageCompression := getInt o "ImageCompression";
            domain.ImageBackground := getString o "ImageBackground";
            domain.SuppressThink := getBool o "SuppressThink";
            domain.ThinkStartTag := startTag;
            domain.ThinkEndTag := endTag;
            domain.Voice := getString o "Voice"
          |}
      end
  end.

(** *** [BuildChatRequest] *)

Definition textPart (text : string) : chat.ChatMessagePart := {|
  chat.Type_ := Some chat.ChatMessagePartTypeText;
  chat.Text := text;
  chat.ImageURL := None
|}.

Definition imagePart (url : string) : chat.ChatMessagePart := {|
  chat.Type_ := Some chat.ChatMessagePartTypeImageURL;
  chat.Text := "";
  chat.ImageURL := Some url
|}.

(** The URL of an attachment: its own, or the data URL of its content. *)
Definition attachmentURL (attachment : domain.Attachment) : string + error :=
  match domain.URL attachment with
  | Some url => inl url
  | None =>
      match domain.Base64Content attachment with
      | inr err => inr err
      | inl base64Image =>
          match domain.ResolveType attachment with
          | inr err => inr err
          | inl mimeType => inl ("data:" +:+ mimeType +:+ ";base64," +:+ base64Image)
          end
      end
  end.

(** The loop over [o.Attachments]: the parts of the message afterwards,
    or the error the loop returns with. *)
Fixpoint attachAll (E : Env) (attachments : list string)
    (MultiContent : list chat.ChatMessagePart)
  : list chat.ChatMessagePart + error :=
  match attachments with
  | [] => inl MultiContent
  | attachmentValue :: attachments' =>
      match domain_NewAttachment E attachmentValue with
      | inr err => inr err
      | inl attachment =>
          match attachmentURL attachment with
          | inr err => inr err
          | inl url => attachAll E attachments' (MultiContent ++ [imagePart url])
          end
      end
  end.

(** [o.BuildChatRequest(Meta)]: the request [ret] points to on return,
    and [err]. *)
Definition BuildChatRequest (E : Env) (o : Flags) (Meta : string)
  : request.ChatRequest * option error :=
  let ret message language := {|
    request.ContextName := getString o "Context";
    request.SessionName := getString o "Session";
    request.PatternName := getString o "Pattern";
    request.StrategyName := getString o "Strategy";
    request.PatternVariables := getMap o "PatternVariables";
    request.InputHasVars := getBool o "InputHasVars";
    request.Meta := Meta;
    request.Message := message;
    request.Language := language
  |} in
  let message :=
    if 0 <? Z.of_nat (length (getSlice o "Attachments")) then
      let MultiContent :=
        if negb (String.eqb (Message o) "")
        then [textPart (strings_TrimSpace E (Message o))] else [] in
      match attachAll E (getSlice o "Attachments") MultiContent with
      | inr err => inr err
      | inl MultiContent =>
          inl (Some {| chat.Role_ := Some chat.ChatMessageRoleUser;
                       chat.Content := "";
                       chat.MultiContent := MultiContent |})
      end
    else if negb (String.eqb (Message o) "") then
      inl (Some {| chat.Role_ := Some chat.ChatMessageRoleUser;
                   chat.Content := strings_TrimSpace E (Message o);
                   chat.MultiContent := [] |})
    else inl None in
  match message with
  | inr err => (ret None "", Some err)
  | inl message =>
      let language :=
        if negb (String.eqb (getString o "Language") "") then
          match language_Parse E (getString o "Language") with
          | Some tag => tag
          | None => ""
          end
        else "" in
      (ret message language, None)
  end.

(** *** The merge, field by field *)

(** What turn [i] of the merge loop makes of the field that holds
    [flagField], the other struct holding [yamlField]. *)
Definition mergedField (L : Lib) (usedFlags : gmap string bool) (field : StructField)
    (flagField yamlField : Value) : Value :=
  if negb (String.eqb (yaml field) "") && negb (used usedFlags (yaml field))
     && CanSet field
  then
    if Type_eqb (Value_Type yamlField) (Value_Type flagField) then yamlField
    else match assignWithConversion L flagField yamlField with
         | (_, Some _) => flagField
         | (converted, None) => converted
         end
  else flagField.

(** *** Vocabulary for the functions above *)

(** No byte of [s] is a dot or a path separator. *)
Fixpoint plainName (s : string) : bool :=
  match s with
  | EmptyString => true
  | String c s' => negb (Ascii.eqb c "/") && negb (Ascii.eqb c ".") && plainName s'
  end.

(** No byte of [s] is a dot. *)
Fixpoint noDot (s : string) : bool :=
  match s with
  | EmptyString => true
  | String c s' => negb (Ascii.eqb c ".") && noDot s'
  end.

(** [url] is what the attachment [value] is sent as: the URL it has, or
    the data URL of its type and content. *)
Definition sent_as (E : Env) (value url : string) : Prop :=
  ∃ attachment,
    domain_NewAttachment E value = inl attachment
    ∧ match domain.URL attachment with
      | Some u => url = u
      | None =>
          ∃ base64Image mimeType,
            domain.Base64Content attachment = inl base64Image
            ∧ domain.ResolveType attachment = inl mimeType
            ∧ url = "data:" +:+ mimeType +:+ ";base64," +:+ base64Image
      end.

(** The attachment [value] is made into a URL. *)
Definition attaches (E : Env) (value : string) : Prop :=
  ∃ attachment url,
    domain_NewAttachment E value = inl attachment ∧ attachmentURL attachment = inl url.

(** An environment to run the functions in: one file exists, white space
    is blank, tab, line feed and carriage return, three language tags are
    known, an attachment is a URL or a file, one of which is missing. *)
Module SampleEnv.

Definition isSpace (c : ascii) : bool :=
  existsb (Nat.eqb (nat_of_ascii c)) [32; 9; 10; 13]%nat.

Fixpoint TrimLeft (s : string) : string :=
  match s with
  | EmptyString => EmptyString
  | String c s' => if isSpace c then TrimLeft s' else s
  end.

Definition TrimSpace (s : string) : string :=
  String.rev (TrimLeft (String.rev (TrimLeft s))).

Definition Parse (s : string) : option string :=
  if among (lowerASCII s) ["en"; "fr"; "de"] then Some (lowerASCII s) else None.

Definition NewAttachment (value : string) : domain.Attachment + error :=
  if strings.HasPrefix value "http" then
    inl {| domain.URL := Some value;
           domain.Base64Content := inl "";
           domain.ResolveType := inl "" |}
  else if String.eqb value "missing.png" then
    inr (PathError "open" value ENOENT)
  else
    inl {| domain.URL := None;
           domain.Base64Content := inl "aGVsbG8=";
           domain.ResolveType := inl "image/png" |}.

Definition env : Env := {|
  unicode_ToLower := lowerASCII;
  os_Stat := λ name, String.eqb name "taken.png";
  strings_TrimSpace := TrimSpace;
  language_Parse := Parse;
  domain_NewAttachment := NewAttachment
|}.

(** [o] with the field [name] set to [v]. *)
Definition set (o : Flags) (name : string) (v : Value) : Flags :=
  <[FieldByName name := v]> o.

(** [--image-file a.webp --image-compression 80 --image-background transparent] *)
Definition o_webp : Flags :=
  set (set (set Flags_zero "ImageFile" (VString "a.webp"))
         "ImageCompression" (VInt 80))
    "ImageBackground" (VString "transparent").

(** [--image-file a.png --image-compression 5] *)
Definition o_png : Flags :=
  set (set Flags_zero "ImageFile" (VString "a.png")) "ImageCompression" (VInt 5).

(** [fabric --config /c.yaml a b] reading two lines from a pipe, the file
    holding [message: from the file]. *)
Definition w_message : World :=
  Sample.with_file "/c.yaml" (Sample.line "message: from the file")
    (Sample.with_stdin (Sample.line "line1" +:+ "line2") io_EOF
       (Sample.world ["--config"; "/c.yaml"; "a"; "b"])).

(** A message and two attachments, a URL and a file. *)
Definition o_attachments : Flags :=
  set (set Flags_zero "Message" (VString " what is this? "))
    "Attachments" (VSlice ["http://example.com/cat.png"; "dog.png"]).

(** Every option that has a long name, on the command line. *)
Definition all_options : list string :=
  (λ sf, "--" +:+ long sf) <$> filter (λ sf, long sf ≠ "") FlagsType.

End SampleEnv.

(** * Properties *)

(** ** Strings *)

Local Arguments String.append !_ _ / : simpl nomatch.

Lemma prefix_nil s : String.prefix "" s = true.
Proof. now destruct s. Qed.

Lemma prefix_cons a p b s :
  String.prefix (String a p) (String b s) = Ascii.eqb a b && String.prefix p s.
Proof.
  cbn [String.prefix]. destruct (ascii_dec a b) as [->|Hne].
  - now rewrite Ascii.eqb_refl.
  - apply Ascii.eqb_neq in Hne. now rewrite Hne.
Qed.

Lemma index_find c s : String.index 0 (String c "") s = find c s.
Proof.
  induction s as [|a s IH]; [reflexivity|].
  cbn [String.index find String.prefix].
  destruct (ascii_dec c a) as [->|Hne].
  - rewrite Ascii.eqb_refl. now destruct s.
  - apply Ascii.eqb_neq in Hne. rewrite Hne, IH. now destruct (find c s).
Qed.

Lemma Index_find s c :
  strings.Index s (String c "") = from_option Z.of_nat (-1) (find c s).
Proof. unfold strings.Index. rewrite index_find. now destruct (find c s). Qed.

Lemma find_app_None c s t : find c s = None → find c (s +:+ t) = find c t ≫= λ i, Some (String.length s + i)%nat.
Proof.
  induction s as [|a s IH]; cbn; intros H.
  - now destruct (find c t).
  - destruct (Ascii.eqb c a); [discriminate|].
    destruct (find c s) eqn:E; [discriminate|].
    rewrite IH by reflexivity. now destruct (find c t).
Qed.

Lemma find_here c s t : find c s = None → find c (s +:+ String c t) = Some (String.length s).
Proof.
  intros H. rewrite find_app_None by assumption. cbn.
  rewrite Ascii.eqb_refl. cbn. f_equal. lia.
Qed.

Lemma upto_app s t : strings.upto (String.length s) (s +:+ t) = s.
Proof.
  unfold strings.upto. induction s as [|a s IH]; cbn.
  - now destruct t.
  - now rewrite IH.
Qed.

Lemma from_app s t : strings.from (String.length s) (s +:+ t) = t.
Proof. induction s as [|a s IH]; cbn; [reflexivity|exact IH]. Qed.

(** A string splits at a position where [c] is found. *)
Lemma find_split c s i :
  find c s = Some i →
  s = strings.upto i s +:+ String c (strings.from (S i) s)
  ∧ String.length (strings.upto i s) = i.
Proof.
  unfold strings.upto. revert i. induction s as [|a s IH]; cbn; intros i H; [discriminate|].
  destruct (Ascii.eqb c a) eqn:E.
  - apply Ascii.eqb_eq in E as ->. now injection H as <-.
  - destruct (find c s) as [j|]; [|discriminate]. injection H as <-.
    destruct (IH j eq_refl) as [H1 H2]. cbn. split; [f_equal; exact H1|f_equal; exact H2].
Qed.

Lemma HasPrefix_split s p :
  strings.HasPrefix s p = true → s = p +:+ strings.from (String.length p) s.
Proof.
  unfold strings.HasPrefix. revert s. induction p as [|a p IH]; intros s H; [reflexivity|].
  destruct s as [|b s]; cbn in H; [discriminate|].
  destruct (ascii_dec a b) as [->|]; [|discriminate].
  cbn. now rewrite <- IH.
Qed.

(** ** [extractFlag] *)

Lemma extract_name r :
  (let i := strings.Index r "=" in
   if 0 <? i then strings.upto (Z.to_nat i) r else r) = name_of r.
Proof.
  cbv zeta. rewrite Index_find. unfold name_of.
  destruct (find "=" r) as [[|i]|]; cbn [from_option]; try reflexivity.
  replace (0 <? Z.of_nat (S i)) with true by (symmetry; apply Z.ltb_lt; lia).
  now rewrite Nat2Z.id.
Qed.

Lemma HasPrefix_app p r : strings.HasPrefix (p +:+ r) p = true.
Proof.
  unfold strings.HasPrefix. induction p as [|a p IH]; cbn; [now destruct r|].
  now destruct (ascii_dec a a).
Qed.

Lemma TrimPrefix_app p r : strings.TrimPrefix (p +:+ r) p = r.
Proof. unfold strings.TrimPrefix. now rewrite HasPrefix_app, from_app. Qed.

Lemma extractFlag_long r : extractFlag ("--" +:+ r) = name_of r.
Proof.
  unfold extractFlag. rewrite HasPrefix_app, TrimPrefix_app. apply extract_name.
Qed.

Lemma extractFlag_short r :
  r ≠ "" → strings.HasPrefix r "-" = false → extractFlag ("-" +:+ r) = name_of r.
Proof.
  intros Hr Hp. unfold extractFlag.
  replace (strings.HasPrefix ("-" +:+ r) "--") with (strings.HasPrefix r "-")
    by reflexivity.
  rewrite Hp, HasPrefix_app, TrimPrefix_app.
  replace (1 <? Z.of_nat (String.length ("-" +:+ r))) with true.
  - apply extract_name.
  - symmetry. apply Z.ltb_lt. destruct r; [done|]. cbn [String.append String.length]. lia.
Qed.

Lemma HasPrefix_dash arg :
  strings.HasPrefix arg "-" = false → strings.HasPrefix arg "--" = false.
Proof.
  unfold strings.HasPrefix. destruct arg as [|a arg]; [reflexivity|].
  rewrite !prefix_cons, prefix_nil, andb_true_r. now intros ->.
Qed.

Lemma extractFlag_other arg :
  strings.HasPrefix arg "-" = false → extractFlag arg = "".
Proof.
  intros H. unfold extractFlag. now rewrite (HasPrefix_dash _ H), H.
Qed.

Lemma extractFlag_dash : extractFlag "-" = "".
Proof. reflexivity. Qed.

(** A token is of one of four kinds. *)
Lemma token_cases arg :
  (∃ r, arg = "--" +:+ r)
  ∨ (∃ r, arg = "-" +:+ r ∧ r ≠ "" ∧ strings.HasPrefix r "-" = false)
  ∨ arg = "-"
  ∨ strings.HasPrefix arg "-" = false.
Proof.
  destruct (strings.HasPrefix arg "-") eqn:H1; [|auto].
  apply HasPrefix_split in H1. change (String.length "-") with 1%nat in H1.
  destruct (strings.from 1 arg) as [|a r] eqn:E.
  - right; right; left. exact H1.
  - destruct (strings.HasPrefix (String a r) "-") eqn:H2.
    + left. apply HasPrefix_split in H2. change (String.length "-") with 1%nat in H2.
      exists (strings.from 1 (String a r)). now rewrite H1, H2 at 1.
    + right; left. exists (String a r). split; [exact H1|]. split; [done|exact H2].
Qed.

(** ** The struct tags *)

Lemma FlagsType_tags_ok : Forall tags_ok FlagsType.
Proof. apply (bool_decide_unpack _). vm_compute. exact I. Qed.

Lemma flagToYamlTag_entries : map_Forall entry_ok flagToYamlTag.
Proof. apply (bool_decide_unpack _). vm_compute. exact I. Qed.

Lemma FlagsType_CanSet : Forall (λ sf, CanSet sf = true) FlagsType.
Proof. apply (bool_decide_unpack _). vm_compute. exact I. Qed.

Lemma flagToYamlTag_name i sf n :
  FlagsType !! i = Some sf → yaml sf ≠ "" → n ∈ [short sf; long sf] → n ≠ "" →
  validName n ∧ flagToYamlTag !! n = Some (yaml sf).
Proof.
  intros Hi Hy Hn Hne.
  pose proof (proj1 (Forall_lookup _ _) FlagsType_tags_ok i sf Hi Hy) as [Hl Hs].
  apply elem_of_cons in Hn as [->|Hn]; [now apply Hs|].
  apply list_elem_of_singleton in Hn as ->. now apply Hl.
Qed.

Lemma flagToYamlTag_inv i sf flag :
  FlagsType !! i = Some sf → flagToYamlTag !! flag = Some (yaml sf) →
  flag ≠ "" ∧ flag ∈ [short sf; long sf].
Proof.
  intros Hi Hf. destruct (flagToYamlTag_entries flag _ Hf) as [[Hne _] Hall].
  split; [exact Hne|].
  destruct (proj1 (Forall_lookup _ _) Hall i sf Hi eq_refl) as [->| ->];
    [apply elem_of_cons; right; apply list_elem_of_singleton; reflexivity
    |apply elem_of_cons; left; reflexivity].
Qed.

(** ** The pre-scan *)

Lemma scanArg_lookup usedFlags arg :
  scanArg usedFlags arg =
  match flagToYamlTag !! extractFlag arg with
  | Some yamlTag => <[yamlTag := true]> usedFlags
  | None => usedFlags
  end.
Proof.
  unfold scanArg. destruct (String.eqb_spec (extractFlag arg) "") as [->|]; reflexivity.
Qed.

Lemma used_insert usedFlags y y' :
  used (<[y' := true]> usedFlags) y = true ↔ y' = y ∨ used usedFlags y = true.
Proof.
  unfold used. destruct (decide (y' = y)) as [->|Hne].
  - rewrite lookup_insert_eq. cbn. split; auto.
  - rewrite lookup_insert_ne by done. split; [auto|]. now intros [?|?].
Qed.

Lemma used_foldl args usedFlags y :
  used (foldl scanArg usedFlags args) y = true ↔
  used usedFlags y = true
  ∨ ∃ tok, tok ∈ args ∧ flagToYamlTag !! extractFlag tok = Some y.
Proof.
  revert usedFlags. induction args as [|arg args IH]; intros usedFlags; cbn [foldl].
  - split; [auto|]. intros [H|(tok & Hin & _)]; [exact H|]. now apply elem_of_nil in Hin.
  - rewrite IH, scanArg_lookup. split.
    + intros [H|(tok & Hin & Htok)].
      * destruct (flagToYamlTag !! extractFlag arg) as [y'|] eqn:E; [|auto].
        apply used_insert in H as [->|H']; [|auto].
        right. exists arg. split; [left|exact E].
      * right. exists tok. split; [now right|exact Htok].
    + intros [H|(tok & Hin & Htok)].
      * left. destruct (flagToYamlTag !! extractFlag arg); [|exact H].
        apply used_insert. auto.
      * apply elem_of_cons in Hin as [->|Hin].
        -- left. rewrite Htok. apply used_insert. auto.
        -- right. eauto.
Qed.

(** [usedFlags] holds a yaml tag exactly when a token of the command line
    gives a flag name that maps to it. *)
Lemma used_scanArgs args y :
  used (scanArgs args) y = true ↔
  ∃ tok, tok ∈ args ∧ flagToYamlTag !! extractFlag tok = Some y.
Proof.
  unfold scanArgs. rewrite used_foldl. unfold used at 1. rewrite lookup_empty.
  split; [intros [H|H]; [discriminate H|exact H]|auto].
Qed.

(** ** The merge *)

Lemma seq_split_at (n i : nat) :
  (i < n)%nat → seq 0 n = seq 0 i ++ i :: seq (S i) (n - S i).
Proof.
  intros H. replace n with (i + S (n - S i))%nat at 1 by lia.
  rewrite seq_app. reflexivity.
Qed.

Section Merge.

Variable L : Lib.
Variable usedFlags : gmap string bool.
Variable yamlVal : Flags.

Lemma insert_lookup_same (r : Flags) i v w :
  r !! i = Some w → <[i := v]> r !! i = Some v.
Proof. intros H. apply list_lookup_insert_eq. eapply lookup_lt_Some, H. Qed.

(** A turn of the loop writes no field but its own. *)
Lemma applyField_other r i j :
  i ≠ j → applyField L usedFlags yamlVal r i !! j = r !! j.
Proof.
  intros Hne. unfold applyField.
  repeat (case_match; try reflexivity); now apply list_lookup_insert_ne.
Qed.

(** What a turn makes of its field depends on that field only. *)
Lemma applyField_congr r r' i :
  r !! i = r' !! i →
  applyField L usedFlags yamlVal r i !! i = applyField L usedFlags yamlVal r' i !! i.
Proof.
  intros H. unfold applyField. rewrite <- H.
  destruct (FlagsType !! i) as [field|]; [|exact H].
  destruct (r !! i) as [flagField|] eqn:E; [|now rewrite E].
  destruct (yamlVal !! i) as [yamlField|]; [|now rewrite E].
  repeat (case_match; try (now rewrite E));
    now rewrite !(insert_lookup_same _ _ _ flagField).
Qed.

Lemma foldl_applyField_other l r i :
  i ∉ l → foldl (applyField L usedFlags yamlVal) r l !! i = r !! i.
Proof.
  revert r. induction l as [|j l IH]; intros r Hi; [reflexivity|].
  cbn [foldl]. rewrite IH by (intros ?; apply Hi; now right).
  apply applyField_other. intros ->. apply Hi. left.
Qed.

(** The loop makes of field [i] what turn [i] makes of it. *)
Lemma applyYAML_lookup r i :
  applyYAML L usedFlags yamlVal r !! i =
  if decide (i < NumField)%nat
  then applyField L usedFlags yamlVal r i !! i
  else r !! i.
Proof.
  unfold applyYAML. case_decide as Hi.
  - rewrite (seq_split_at _ _ Hi), foldl_app. cbn [foldl].
    rewrite foldl_applyField_other by (rewrite elem_of_seq; lia).
    apply applyField_congr, foldl_applyField_other. rewrite elem_of_seq. lia.
  - apply foldl_applyField_other. rewrite elem_of_seq. lia.
Qed.

(** A field without yaml tag, or whose yaml tag is in [usedFlags], is
    left as it is. *)
Lemma applyYAML_skips r i :
  (∀ sf, FlagsType !! i = Some sf → yaml sf = "" ∨ used usedFlags (yaml sf) = true) →
  applyYAML L usedFlags yamlVal r !! i = r !! i.
Proof.
  intros H. rewrite applyYAML_lookup. case_decide; [|reflexivity].
  unfold applyField. destruct (FlagsType !! i) as [field|]; [|reflexivity].
  destruct (r !! i) as [flagField|] eqn:E; [|now rewrite E].
  destruct (yamlVal !! i) as [yamlField|]; [|now rewrite E].
  destruct (H field eq_refl) as [Hy | Hu].
  - rewrite Hy. cbn. now rewrite E.
  - rewrite Hu. destruct (negb (String.eqb (yaml field) "")); cbn; now rewrite E.
Qed.

(** A field with a yaml tag that is not in [usedFlags] takes the value
    the other struct has, when both values have one type: the branch of
    the conversion is not taken. *)
Lemma applyYAML_sets r i sf flagField yamlField :
  FlagsType !! i = Some sf → yaml sf ≠ "" → used usedFlags (yaml sf) = false →
  r !! i = Some flagField → yamlVal !! i = Some yamlField →
  Value_Type yamlField = Value_Type flagField →
  applyYAML L usedFlags yamlVal r !! i = Some yamlField.
Proof.
  intros Hsf Hy Hu Hr Hyv Ht. rewrite applyYAML_lookup.
  rewrite decide_True by (eapply lookup_lt_Some, Hsf).
  unfold applyField. rewrite Hsf, Hr, Hyv, Hu.
  destruct (String.eqb_spec (yaml sf) "") as [|_]; [done|]. cbn [negb].
  rewrite (proj1 (Forall_lookup _ _) FlagsType_CanSet i sf Hsf), Ht.
  replace (Type_eqb (Value_Type flagField) (Value_Type flagField)) with true
    by now destruct (Value_Type flagField).
  cbn [negb]. eapply insert_lookup_same, Hr.
Qed.

Lemma applyYAML_length r :
  length (applyYAML L usedFlags yamlVal r) = length r.
Proof.
  unfold applyYAML. generalize (seq 0 NumField). intros l. revert r.
  induction l as [|i l IH]; intros r; [reflexivity|]. cbn [foldl]. rewrite IH.
  unfold applyField. repeat (case_match; try reflexivity); apply length_insert.
Qed.

End Merge.

(** Two structs of type [Flags] have values of one type in every field. *)
Lemma typed_lookup f i sf :
  typed f → FlagsType !! i = Some sf → ∃ v, f !! i = Some v ∧ Value_Type v = Typ sf.
Proof.
  unfold typed. intros Ht Hsf.
  assert (H : (Value_Type <$> f) !! i = Some (Typ sf))
    by now rewrite Ht, list_lookup_fmap, Hsf.
  apply list_lookup_fmap_Some_1 in H as (v & Htv & Hv). eauto.
Qed.

Lemma typed_length f : typed f → length f = NumField.
Proof.
  unfold typed, NumField. intros H.
  now rewrite <- (length_fmap Value_Type f), H, length_fmap.
Qed.

(** ** Tokens that invoke an option *)

Lemma name_of_plain n : find "=" n = None → name_of n = n.
Proof. unfold name_of. now intros ->. Qed.

Lemma name_of_value n v : n ≠ "" → find "=" n = None → name_of (n +:+ "=" +:+ v) = n.
Proof.
  intros Hn Hf. unfold name_of. change ("=" +:+ v) with (String "=" v).
  rewrite find_here by assumption.
  destruct n as [|a n]; [done|]. cbn [String.length]. apply (upto_app (String a n)).
Qed.

Lemma name_of_cases r :
  name_of r = r ∨ ∃ v, name_of r ≠ "" ∧ r = name_of r +:+ "=" +:+ v.
Proof.
  unfold name_of. destruct (find "=" r) as [[|i]|] eqn:E; [auto| |auto].
  right. destruct (find_split _ _ _ E) as [H1 H2].
  exists (strings.from (S (S i)) r). split; [|exact H1].
  intros H0. rewrite H0 in H2. discriminate H2.
Qed.

Lemma HasPrefix_app_l n r p :
  n ≠ "" → strings.HasPrefix n (String p "") = false →
  strings.HasPrefix (n +:+ r) (String p "") = false.
Proof.
  unfold strings.HasPrefix. destruct n as [|a n]; [done|]. intros _.
  cbn [String.append]. now rewrite !prefix_cons, !prefix_nil.
Qed.

(** The pre-scan extracts [n] from the tokens that invoke [n]... *)
Lemma invokes_extractFlag n tok : validName n → invokes n tok → extractFlag tok = n.
Proof.
  intros (Hn & Hp & Hf) (dashes & Hd & Htok).
  assert (Hv : ∀ v, n +:+ "=" +:+ v ≠ "") by (intros v; now destruct n).
  apply elem_of_cons in Hd as [->|Hd]; [|apply list_elem_of_singleton in Hd as ->].
  - destruct Htok as [->|[v ->]].
    + rewrite extractFlag_short by assumption. now apply name_of_plain.
    + rewrite extractFlag_short; [now apply name_of_value|apply Hv|now apply HasPrefix_app_l].
  - destruct Htok as [->|[v ->]]; rewrite extractFlag_long;
      [now apply name_of_plain|now apply name_of_value].
Qed.

(** ... and from such tokens only. *)
Lemma extractFlag_invokes tok : extractFlag tok ≠ "" → invokes (extractFlag tok) tok.
Proof.
  intros Hn.
  destruct (token_cases tok) as [[r ->]|[(r & -> & Hr & Hp)|[->|Hp]]].
  - rewrite extractFlag_long in *. exists "--". split; [set_solver|].
    destruct (name_of_cases r) as [->|(v & _ & Hv)]; [now left|].
    right. exists v. now rewrite <- Hv.
  - rewrite extractFlag_short in * by assumption. exists "-". split; [set_solver|].
    destruct (name_of_cases r) as [->|(v & _ & Hv)]; [now left|].
    right. exists v. now rewrite <- Hv.
  - now rewrite extractFlag_dash in Hn.
  - now rewrite extractFlag_other in Hn.
Qed.

(** ** [Init] *)

(** The fields [Init] assigns by name carry no yaml tag. *)
Lemma yaml_field_not_named i sf :
  FlagsType !! i = Some sf → yaml sf ≠ "" →
  i ≠ FieldByName "Message" ∧ i ≠ FieldByName "Config".
Proof.
  intros Hsf Hy. split; intros ->; vm_compute in Hsf; injection Hsf as <-; now apply Hy.
Qed.

Lemma setString_other f name s i :
  i ≠ FieldByName name → setString f name s !! i = f !! i.
Proof. intros H. unfold setString. now apply list_lookup_insert_ne. Qed.

Lemma setString_length f name s : length (setString f name s) = length f.
Proof. apply length_insert. Qed.

Lemma getString_setString f name s :
  (FieldByName name < length f)%nat → getString (setString f name s) name = s.
Proof.
  intros H. unfold getString, setString. now rewrite list_lookup_insert_eq.
Qed.

Section InitFacts.

Variable L : Lib.

Lemma Init_stages w :
  Init L w =
  match parseError L w with
  | Some err => (parsed L w, Some err)
  | None =>
      match resolveConfig L w (scanArgs (Args w)) (parsed L w) with
      | (ret, Some err) => (ret, Some err)
      | (ret, None) => handleInput w (positional L w) ret
      end
  end.
Proof.
  unfold Init, parseError, parsed, positional.
  destruct (flags_Parse L (Args w) Flags_zero) as [[ret args] [err|]]; cbn; [reflexivity|].
  now destruct (resolveConfig L w (scanArgs (Args w)) ret) as [ret' [err|]].
Qed.

Lemma withDefaultConfig_other w ret i :
  i ≠ FieldByName "Config" → withDefaultConfig w ret !! i = ret !! i.
Proof.
  intros H. unfold withDefaultConfig.
  repeat (case_match; try reflexivity). now apply setString_other.
Qed.

Lemma withDefaultConfig_length w ret :
  length (withDefaultConfig w ret) = length ret.
Proof.
  unfold withDefaultConfig.
  repeat (case_match; try reflexivity). apply setString_length.
Qed.

Lemma handleInput_other w args ret i :
  i ≠ FieldByName "Message" → (handleInput w args ret).1 !! i = ret !! i.
Proof.
  intros H. unfold handleInput.
  repeat (case_match; cbn [fst]); rewrite ?setString_other by assumption; reflexivity.
Qed.

(** C8. The merge writes only fields that have a yaml tag: a field
    without one keeps its value, whatever the struct decoded from the
    config file holds and whatever flags were used. *)
Theorem merge_frame usedFlags yamlVal ret i :
  (∀ sf, FlagsType !! i = Some sf → yaml sf = "") →
  applyYAML L usedFlags yamlVal ret !! i = ret !! i
  ∧ length (applyYAML L usedFlags yamlVal ret) = length ret.
Proof.
  intros H. split; [|apply applyYAML_length].
  apply applyYAML_skips. intros sf Hsf. left. now apply H.
Qed.

(** [Init] leaves a field as the parser delivered it when the field is
    not one of [Message] and [Config] and the merge skips it. *)
Lemma Init_field_kept w i :
  i ≠ FieldByName "Message" → i ≠ FieldByName "Config" →
  (∀ sf, FlagsType !! i = Some sf →
         yaml sf = "" ∨ used (scanArgs (Args w)) (yaml sf) = true) →
  (Init L w).1 !! i = parsed L w !! i.
Proof.
  intros Hm Hc Hskip. rewrite Init_stages.
  destruct (parseError L w); [reflexivity|].
  assert (Hr : (resolveConfig L w (scanArgs (Args w)) (parsed L w)).1 !! i
               = parsed L w !! i).
  { unfold resolveConfig. repeat (case_match; cbn [fst]);
      rewrite ?applyYAML_skips by assumption; now apply withDefaultConfig_other. }
  destruct (resolveConfig L w (scanArgs (Args w)) (parsed L w)) as [ret [err|]];
    [exact Hr|].
  rewrite handleInput_other by assumption. exact Hr.
Qed.

(** C1. For every option with a config-file key: when a token of the raw
    token list is one of the option's command-line names in the shape of a
    flag ([-n], [--n], with or without [=value]), the value [Init] returns
    for the option is the value the parser delivered, whatever the config
    file holds and whatever the value is (the schema default included). *)
Theorem cli_value_wins w i sf n tok :
  FlagsType !! i = Some sf → yaml sf ≠ "" →
  n ∈ [short sf; long sf] → n ≠ "" →
  tok ∈ Args w → invokes n tok →
  (Init L w).1 !! i = parsed L w !! i.
Proof.
  intros Hsf Hy Hn Hne Htok Hinv.
  destruct (yaml_field_not_named _ _ Hsf Hy) as [Hm Hc].
  apply Init_field_kept; [exact Hm|exact Hc|].
  intros sf' Hsf'. right. rewrite Hsf in Hsf'. injection Hsf' as <-.
  destruct (flagToYamlTag_name _ _ _ Hsf Hy Hn Hne) as [Hvalid Hmap].
  apply used_scanArgs. exists tok. split; [exact Htok|].
  now rewrite (invokes_extractFlag _ _ Hvalid Hinv).
Qed.

(** The yaml tag of an option is in [usedFlags] only if a token invokes
    one of its names. *)
Lemma used_invokes w i sf :
  FlagsType !! i = Some sf →
  (∀ tok n, tok ∈ Args w → n ∈ [short sf; long sf] → n ≠ "" → ¬ invokes n tok) →
  used (scanArgs (Args w)) (yaml sf) = false.
Proof.
  intros Hsf Hno. apply not_true_is_false. intros Hu.
  apply used_scanArgs in Hu as (tok & Htok & Hmap).
  destruct (flagToYamlTag_inv _ _ _ Hsf Hmap) as [Hne Hin].
  apply (Hno tok (extractFlag tok) Htok Hin Hne). now apply extractFlag_invokes.
Qed.

(** The value [Init] returns for an option that no token invokes, once
    the config file is loaded. *)
Lemma unused_option_from_config w i sf yamlFlags :
  FlagsType !! i = Some sf → yaml sf ≠ "" →
  (∀ tok n, tok ∈ Args w → n ∈ [short sf; long sf] → n ≠ "" → ¬ invokes n tok) →
  parseError L w = None → typed (parsed L w) →
  Config (withDefaultConfig w (parsed L w)) ≠ "" →
  loadYAMLConfig L w (Config (withDefaultConfig w (parsed L w))) = inl yamlFlags →
  typed yamlFlags →
  (Init L w).1 !! i = yamlFlags !! i.
Proof.
  intros Hsf Hy Hno Hparse Htp Hcfg Hload Hty.
  destruct (yaml_field_not_named _ _ Hsf Hy) as [Hm Hc].
  rewrite Init_stages, Hparse. unfold resolveConfig.
  destruct (String.eqb_spec (Config (withDefaultConfig w (parsed L w))) "");
    [done|]. cbn [negb]. rewrite Hload.
  rewrite handleInput_other by assumption.
  destruct (typed_lookup _ _ _ Htp Hsf) as (fv & Hfv & Hft).
  destruct (typed_lookup _ _ _ Hty Hsf) as (yv & Hyv & Hyt).
  rewrite Hyv. apply (applyYAML_sets L _ _ _ i sf fv yv Hsf Hy).
  - now apply used_invokes with i.
  - now rewrite withDefaultConfig_other.
  - exact Hyv.
  - congruence.
Qed.

(** C2, as the code has it. For every option with a config-file key none
    of whose names is invoked by a token: when the config file is loaded,
    the value [Init] returns is the value of the field in the struct the
    file was decoded into. That struct starts as [Flags{}]: for a key the
    decoder does not assign, the value is the zero value of the type, not
    the parsed default. *)
Theorem config_value_applies w i sf yamlFlags :
  FlagsType !! i = Some sf → yaml sf ≠ "" →
  (∀ tok n, tok ∈ Args w → n ∈ [short sf; long sf] → n ≠ "" → ¬ invokes n tok) →
  parseError L w = None → typed (parsed L w) →
  Config (withDefaultConfig w (parsed L w)) ≠ "" →
  loadYAMLConfig L w (Config (withDefaultConfig w (parsed L w))) = inl yamlFlags →
  typed yamlFlags →
  (Init L w).1 !! i = yamlFlags !! i
  ∧ (yamlFlags !! i = Flags_zero !! i → (Init L w).1 !! i = Some (zero (Typ sf))).
Proof.
  intros Hsf Hy Hno Hparse Htp Hcfg Hload Hty.
  pose proof (unused_option_from_config w i sf yamlFlags
                Hsf Hy Hno Hparse Htp Hcfg Hload Hty) as Hfinal.
  split; [exact Hfinal|]. intros Hz. rewrite Hfinal, Hz.
  unfold Flags_zero. now rewrite list_lookup_fmap, Hsf.
Qed.

End InitFacts.

(** ** Reading standard input *)

Lemma append_assoc (s t u : string) : (s +:+ t) +:+ u = s +:+ t +:+ u.
Proof. induction s as [|a s IH]; cbn; [reflexivity|now rewrite IH]. Qed.

Lemma append_nil_r (s : string) : s +:+ "" = s.
Proof. induction s as [|a s IH]; cbn; [reflexivity|now rewrite IH]. Qed.

Lemma cut_Some delim s line rest :
  cut delim s = Some (line, rest) →
  s = line +:+ rest ∧ (String.length rest < String.length s)%nat.
Proof.
  revert line rest. induction s as [|a s IH]; intros line rest H; cbn in H; [discriminate|].
  destruct (Ascii.eqb a delim).
  - injection H as <- <-. cbn. split; [reflexivity|lia].
  - destruct (cut delim s) as [[l r]|]; [|discriminate]. injection H as <- <-.
    destruct (IH l r eq_refl) as [H1 H2]. cbn. split; [now rewrite <- H1|lia].
Qed.

(** With more turns than bytes, the loop ends: with all the bytes if the
    stream ends in [io.EOF], with the error otherwise. *)
Lemma readStdin_loop_enough fuel end_ pending sb :
  (String.length pending < fuel)%nat →
  readStdin_loop fuel end_ pending sb =
  Some (if errors_Is_EOF end_ then (sb +:+ pending, None)
        else ("", Some (stdinError end_))).
Proof.
  revert pending sb. induction fuel as [|fuel IH]; intros pending sb Hlen; [lia|].
  cbn [readStdin_loop]. unfold ReadString.
  destruct (cut LF pending) as [[line rest]|] eqn:E.
  - destruct (cut_Some _ _ _ _ E) as [-> Hlt].
    rewrite IH by lia. now rewrite append_assoc.
  - now destruct (errors_Is_EOF end_).
Qed.

Lemma readStdin_result w :
  readStdin w =
  if errors_Is_EOF (stdin_end w) then (stdin_data w, None)
  else ("", Some (stdinError (stdin_end w))).
Proof. unfold readStdin. rewrite readStdin_loop_enough by lia. reflexivity. Qed.

(** ** The input assembler *)

Lemma setString_twice f name s t :
  setString (setString f name s) name t = setString f name t.
Proof. unfold setString. apply list_insert_insert_eq. Qed.

Lemma Message_setString f s :
  (FieldByName "Message" < length f)%nat → Message (setString f "Message" s) = s.
Proof. apply getString_setString. Qed.

Lemma handleInput_read w args ret :
  (FieldByName "Message" < length ret)%nat →
  handleInput w args ret =
  if pipedToStdin w && negb (errors_Is_EOF (stdin_end w))
  then (appendAll ret (option_list (last args)), Some (stdinError (stdin_end w)))
  else (appendAll ret (segments w args), None).
Proof.
  intros Hlen. unfold handleInput, segments. rewrite readStdin_result.
  destruct (pipedToStdin w); cbn [andb negb];
    [destruct (errors_Is_EOF (stdin_end w)); cbn [negb]|];
    destruct (last args) as [a|]; cbn [option_list app appendAll foldl];
    rewrite ?app_nil_r; try reflexivity.
  rewrite Message_setString by exact Hlen.
  now rewrite setString_twice.
Qed.

Lemma AppendMessage_empty s : AppendMessage "" s = s.
Proof. reflexivity. Qed.

Lemma AppendMessage_nonempty m s : m ≠ "" → AppendMessage m s = m +:+ nl +:+ s.
Proof. intros H. unfold AppendMessage. now destruct (String.eqb_spec m ""). Qed.

Section Resolution.

Variable L : Lib.

Lemma afterMerge_length w : length (afterMerge L w).1 = length (parsed L w).
Proof.
  unfold afterMerge, resolveConfig.
  repeat (case_match; cbn [fst]); rewrite ?applyYAML_length;
    apply withDefaultConfig_length.
Qed.

Lemma Init_after_merge w merged :
  parseError L w = None → afterMerge L w = (merged, None) → typed (parsed L w) →
  Init L w =
  if pipedToStdin w && negb (errors_Is_EOF (stdin_end w))
  then (appendAll merged (option_list (last (positional L w))),
        Some (stdinError (stdin_end w)))
  else (appendAll merged (segments w (positional L w)), None).
Proof.
  intros Hp Hm Ht. rewrite Init_stages, Hp. fold (afterMerge L w). rewrite Hm.
  apply handleInput_read.
  pose proof (afterMerge_length w) as Hl. rewrite Hm in Hl. cbn [fst] in Hl.
  rewrite Hl, (typed_length _ Ht). vm_compute. lia.
Qed.

(** C6. After the merge [Init] appends to [Message] the last leftover
    token, if there is one, and then, when standard input is piped, the
    whole piped text, each by [AppendMessage]: after a line feed when the
    message so far is not empty. No other field changes. With no leftover
    token and an empty message, the piped text is the message. *)
Theorem input_assembly w merged :
  parseError L w = None → afterMerge L w = (merged, None) → typed (parsed L w) →
  (pipedToStdin w = true → errors_Is_EOF (stdin_end w) = true) →
  Init L w = (appendAll merged (segments w (positional L w)), None)
  ∧ (∀ a, last (positional L w) = Some a → pipedToStdin w = true →
          Message merged = "" → a ≠ "" →
          Message (Init L w).1 = a +:+ nl +:+ stdin_data w)
  ∧ (positional L w = [] → pipedToStdin w = true → Message merged = "" →
     Message (Init L w).1 = stdin_data w).
Proof.
  intros Hp Hm Ht Heof.
  assert (Hlen : (FieldByName "Message" < length merged)%nat).
  { pose proof (afterMerge_length w) as Hl. rewrite Hm in Hl. cbn [fst] in Hl.
    rewrite Hl, (typed_length _ Ht). vm_compute. lia. }
  assert (HI : Init L w = (appendAll merged (segments w (positional L w)), None)).
  { rewrite (Init_after_merge _ _ Hp Hm Ht).
    destruct (pipedToStdin w); [|reflexivity]. now rewrite Heof. }
  split; [exact HI|]. rewrite HI. cbn [fst]. unfold segments. split.
  - intros a Ha Hpiped Hmsg Hne. rewrite Ha, Hpiped.
    change (option_list (Some a) ++ [stdin_data w]) with [a; stdin_data w].
    unfold appendAll. cbn [foldl].
    rewrite Message_setString, Hmsg by exact Hlen.
    rewrite AppendMessage_empty. now apply AppendMessage_nonempty.
  - intros Hnil Hpiped Hmsg. rewrite Hnil, Hpiped.
    change (option_list (last []) ++ [stdin_data w]) with [stdin_data w].
    unfold appendAll. cbn [foldl].
    now rewrite Message_setString, Hmsg by exact Hlen.
Qed.

(** C7. [readStdin] returns all the bytes of the stream, the last line
    included when no line feed ends it, when the stream ends in [io.EOF],
    and the error wrapping the cause of the failed read otherwise. When
    standard input is piped and the stages before it succeeded, [Init]
    fails exactly when the stream ends in an error other than [io.EOF],
    and with that error. *)
Theorem stdin_read w merged :
  parseError L w = None → afterMerge L w = (merged, None) → typed (parsed L w) →
  pipedToStdin w = true →
  readStdin w = (if errors_Is_EOF (stdin_end w) then (stdin_data w, None)
                 else ("", Some (stdinError (stdin_end w))))
  ∧ ((Init L w).2 = None ↔ errors_Is_EOF (stdin_end w) = true)
  ∧ (errors_Is_EOF (stdin_end w) = false →
     (Init L w).2 = Some (stdinError (stdin_end w)))
  ∧ (errors_Is_EOF (stdin_end w) = true →
     Message (Init L w).1
     = AppendMessage (Message (appendAll merged (option_list (last (positional L w)))))
         (stdin_data w)).
Proof.
  intros Hp Hm Ht Hpiped. split; [apply readStdin_result|].
  assert (Hlen : (FieldByName "Message" < length merged)%nat).
  { pose proof (afterMerge_length w) as Hl. rewrite Hm in Hl. cbn [fst] in Hl.
    rewrite Hl, (typed_length _ Ht). vm_compute. lia. }
  rewrite (Init_after_merge _ _ Hp Hm Ht), Hpiped. cbn [andb].
  destruct (errors_Is_EOF (stdin_end w)); cbn [negb snd fst].
  - split; [done|]. split; [done|]. intros _. unfold segments. rewrite Hpiped.
    destruct (last (positional L w)) as [a|].
    + change (option_list (Some a) ++ [stdin_data w]) with [a; stdin_data w].
      change (option_list (Some a)) with [a].
      unfold appendAll. cbn [foldl]. now rewrite !Message_setString by exact Hlen.
    + change (option_list None ++ [stdin_data w]) with [stdin_data w].
      change (option_list None) with (@nil string).
      unfold appendAll. cbn [foldl]. now rewrite !Message_setString by exact Hlen.
  - split; [split; discriminate|]. split; [reflexivity|discriminate].
Qed.

Lemma withDefaultConfig_explicit w ret :
  Config ret ≠ "" → withDefaultConfig w ret = ret.
Proof.
  intros H. unfold withDefaultConfig. now destruct (String.eqb_spec (Config ret) "").
Qed.

Lemma withDefaultConfig_none w ret :
  Config ret = "" → (∀ d, defaultLocation w = inl d → files w !! d = None) →
  withDefaultConfig w ret = ret.
Proof.
  intros Hc Hd. unfold withDefaultConfig, GetDefaultConfigPath. rewrite Hc.
  destruct (defaultLocation w) as [d|err]; [|reflexivity].
  now rewrite (Hd d eq_refl).
Qed.

(** C5. With a config path given on the command line, [Init] fails with
    "config file not found" when no file is at the absolute path, and with
    "error parsing config file" when the decoder rejects the bytes of the
    file. With no path given and no file at the default location, the
    merge is skipped: [Init] is the input assembler on the parsed struct,
    and returns no error unless reading piped input fails. *)
Theorem config_loading w :
  parseError L w = None →
  (∀ absPath, Config (parsed L w) ≠ "" →
     GetAbsolutePath w (Config (parsed L w)) = inl absPath →
     files w !! absPath = None →
     (Init L w).2 = Some (fmt_Errorf "config file not found: %s" [a_string absPath]))
  ∧ (∀ absPath data err, Config (parsed L w) ≠ "" →
     GetAbsolutePath w (Config (parsed L w)) = inl absPath →
     files w !! absPath = Some (inl data) →
     (yaml_Unmarshal L data Flags_zero).2 = Some err →
     (Init L w).2 = Some (fmt_Errorf_w "error parsing config file: %w" err))
  ∧ (Config (parsed L w) = "" →
     (∀ d, defaultLocation w = inl d → files w !! d = None) →
     Init L w = handleInput w (positional L w) (parsed L w)
     ∧ ((pipedToStdin w = true → errors_Is_EOF (stdin_end w) = true) →
        (Init L w).2 = None)).
Proof.
  intros Hp. rewrite Init_stages, Hp. unfold resolveConfig.
  split; [|split].
  - intros absPath Hc Habs Hfile. rewrite withDefaultConfig_explicit by exact Hc.
    destruct (String.eqb_spec (Config (parsed L w)) "") as [|_]; [done|].
    cbn [negb]. unfold loadYAMLConfig, os_ReadFile. rewrite Habs.
    cbv beta iota. now rewrite Hfile.
  - intros absPath data err Hc Habs Hfile Herr.
    rewrite withDefaultConfig_explicit by exact Hc.
    destruct (String.eqb_spec (Config (parsed L w)) "") as [|_]; [done|].
    cbn [negb]. unfold loadYAMLConfig, os_ReadFile. rewrite Habs.
    cbv beta iota. rewrite Hfile.
    destruct (yaml_Unmarshal L data Flags_zero) as [config e]. cbn in Herr.
    now rewrite Herr.
  - intros Hc Hd. rewrite withDefaultConfig_none, Hc by assumption.
    cbn [String.eqb negb]. split; [reflexivity|].
    intros Heof. unfold handleInput. rewrite readStdin_result.
    destruct (pipedToStdin w); [rewrite Heof by reflexivity|]; reflexivity.
Qed.

End Resolution.

(** ** What [Init] reads *)

(** [Init] reads the process through the raw tokens, standard input, the
    default location and the file the config path resolves to, and
    through nothing else: two worlds that agree on these give the same
    struct and the same error, whatever else differs between them (the
    other files, the resolution of other paths). *)
Lemma Init_reads L w1 w2 :
  same_inputs L w1 w2 → Init L w1 = Init L w2.
Proof.
  intros (Ha & Hm & Hd & He & Hdef & Habs & Hfile).
  assert (Hparsed : parsed L w1 = parsed L w2) by (unfold parsed; now rewrite Ha).
  assert (Hdflt : ∀ ret, withDefaultConfig w1 ret = withDefaultConfig w2 ret)
    by (intros ret; unfold withDefaultConfig; now rewrite Hdef).
  assert (Hin : ∀ args ret, handleInput w1 args ret = handleInput w2 args ret).
  { intros args ret. unfold handleInput, pipedToStdin, readStdin.
    now rewrite Hm, Hd, He. }
  assert (Hload : loadYAMLConfig L w1 (Config (withDefaultConfig w1 (parsed L w1)))
                  = loadYAMLConfig L w2 (Config (withDefaultConfig w1 (parsed L w1)))).
  { unfold loadYAMLConfig, os_ReadFile. rewrite <- Habs.
    destruct (GetAbsolutePath w1 _) as [absPath|err]; [|reflexivity].
    now rewrite (Hfile absPath eq_refl). }
  rewrite !Init_stages. unfold parseError, positional, resolveConfig.
  rewrite <- Ha, <- Hparsed, <- Hdflt, <- Hload.
  repeat (case_match; try reflexivity); apply Hin.
Qed.

(** ** What the pre-scan extracts *)

Lemma extractFlag_remainder arg : extractFlag arg = name_of (remainder arg).
Proof.
  unfold extractFlag, remainder, strings.TrimPrefix.
  destruct (strings.HasPrefix arg "--"); [apply extract_name|].
  destruct (strings.HasPrefix arg "-"); [|reflexivity]. cbn [andb].
  destruct (1 <? Z.of_nat (String.length arg)); [apply extract_name|reflexivity].
Qed.

Lemma flagToYamlTag_valid flag yamlTag :
  flagToYamlTag !! flag = Some yamlTag → validName flag.
Proof. intros H. now destruct (flagToYamlTag_entries _ _ H). Qed.

Lemma flagToYamlTag_invalid flag : ¬ validName flag → flagToYamlTag !! flag = None.
Proof.
  intros H. destruct (flagToYamlTag !! flag) eqn:E; [|reflexivity].
  now apply flagToYamlTag_valid in E.
Qed.

(** C4, as the code has it. For every raw token the pre-scanner takes
    what follows ["--"], or what follows ["-"] when something does, and
    keeps the portion before the first ["="] unless that ["="] comes
    first: then it keeps the whole remainder. The name is mapped to its
    config-file key; a token that is not flag-shaped or matches no schema
    entry leaves [usedFlags] as it is, without error. The keys recorded
    are those the extraction of the specification gives. *)
Theorem prescan_extraction usedFlags arg :
  extractFlag arg =
    (if strings.HasPrefix (remainder arg) "=" then remainder arg
     else extractFlag_spec arg)
  ∧ scanArg usedFlags arg =
    match flagToYamlTag !! extractFlag_spec arg with
    | Some yamlTag => <[yamlTag := true]> usedFlags
    | None => usedFlags
    end.
Proof.
  rewrite scanArg_lookup, extractFlag_remainder. unfold extractFlag_spec, name_of.
  generalize (remainder arg). intros r. unfold strings.HasPrefix.
  destruct r as [|a r]; [split; reflexivity|].
  rewrite prefix_cons, prefix_nil, andb_true_r. cbn [find].
  destruct (Ascii.eqb_spec "="%char a) as [<-|Hne].
  - split; [reflexivity|]. cbv beta iota.
    change (strings.upto 0 (String "=" r)) with "".
    rewrite (flagToYamlTag_invalid (String "=" r)) by (intros (_ & _ & H); discriminate H).
    now rewrite (flagToYamlTag_invalid "") by (intros (H & _); now apply H).
  - now destruct (find "=" r).
Qed.

(** C10. The pre-scan looks up the whole remainder of a short-form token
    as one name. A token that bundles short flags, and whose remainder is
    no name of the schema, records nothing, wherever it stands in the raw
    token list; nor do the bare tokens ["-"] and ["--"]. *)
Theorem bundle_not_decomposed r l1 l2 :
  r ≠ "" → strings.HasPrefix r "-" = false → find "=" r = None →
  flagToYamlTag !! r = None →
  extractFlag ("-" +:+ r) = r
  ∧ scanArgs (l1 ++ ("-" +:+ r) :: l2) = scanArgs (l1 ++ l2)
  ∧ scanArgs (l1 ++ "-" :: l2) = scanArgs (l1 ++ l2)
  ∧ scanArgs (l1 ++ "--" :: l2) = scanArgs (l1 ++ l2).
Proof.
  intros Hr Hp Hf Hmap.
  assert (He : extractFlag ("-" +:+ r) = r)
    by (rewrite extractFlag_short by assumption; now apply name_of_plain).
  split; [exact He|].
  unfold scanArgs. rewrite !foldl_app. cbn [foldl].
  rewrite !scanArg_lookup, He, Hmap. repeat split; reflexivity.
Qed.

(** ** The conversion *)

(** [assignWithConversion] on a text the three parsers reject: the
    target keeps its content and the error is returned. *)
Lemma assignWithConversion_rejects L targetField str :
  strconv_ParseFloat L str = None → strconv_ParseInt L str = None →
  strconv_ParseBool L str = None →
  assignWithConversion L targetField (VString str) =
  (targetField, Some (fmt_Errorf "cannot convert string %q to %v"
                        [a_string str; a_Kind (Value_Kind targetField)])).
Proof.
  intros Hf Hi Hb. unfold assignWithConversion. rewrite Hf, Hi, Hb.
  now destruct (Value_Kind targetField).
Qed.

Lemma assignWithConversion_int L n str val :
  strconv_ParseFloat L str = Some val →
  assignWithConversion L (VInt n) (VString str) = (VInt (int64_of_float64 val), None).
Proof. intros H. unfold assignWithConversion. cbn. now rewrite H. Qed.

Lemma assignWithConversion_bool L b str val :
  strconv_ParseBool L str = Some val →
  assignWithConversion L (VBool b) (VString str) = (VBool val, None).
Proof. intros H. unfold assignWithConversion. cbn. now rewrite H. Qed.

(** The merge of two structs of type [Flags] does not depend on
    [strconv]: [assignWithConversion] is not called, both values of a
    field having the type of the field. *)
Lemma merge_without_conversion L L' usedFlags yamlVal ret :
  typed ret → typed yamlVal →
  applyYAML L usedFlags yamlVal ret = applyYAML L' usedFlags yamlVal ret.
Proof.
  intros Hr Hy. apply list_eq. intros i. rewrite !applyYAML_lookup.
  case_decide as Hi; [|reflexivity].
  destruct (lookup_lt_is_Some_2 FlagsType i Hi) as [sf Hsf].
  destruct (typed_lookup _ _ _ Hr Hsf) as (fv & Hfv & Hft).
  destruct (typed_lookup _ _ _ Hy Hsf) as (yv & Hyv & Hyt).
  unfold applyField. rewrite Hsf, Hfv, Hyv, Hyt, Hft.
  replace (Type_eqb (Typ sf) (Typ sf)) with true by now destruct (Typ sf).
  reflexivity.
Qed.

(** ** The reference decoder and the keys of the file *)

(** An entry of the document leaves the fields of the other keys as they
    are. *)
Lemma Ref_decode_entry_other acc kv i sf :
  FlagsType !! i = Some sf → Ref.key_of sf ≠ kv.1 →
  (Ref.decode_entry acc kv).1 !! i = acc.1 !! i.
Proof.
  intros Hsf Hk. unfold Ref.decode_entry.
  destruct (list_find _ FlagsType) as [[j sf']|] eqn:E; [|reflexivity].
  apply list_find_Some in E as (Hj & Hkey & _).
  assert (Hne : j ≠ i) by (intros ->; rewrite Hsf in Hj; now injection Hj as <-).
  repeat (case_match; try reflexivity). cbn [fst]. now apply list_lookup_insert_ne.
Qed.

(** The reference decoder leaves the field of a key that is not in the
    file as it finds it: zero, in the struct [loadYAMLConfig] passes. *)
Lemma Ref_Unmarshal_absent data es config i sf :
  Ref.document data = Some es → Ref.key_of sf ∉ es.*1 →
  FlagsType !! i = Some sf →
  (Ref.Unmarshal data config).1 !! i = config !! i.
Proof.
  intros Hdoc Hk Hsf. unfold Ref.Unmarshal. rewrite Hdoc.
  assert (H : ∀ acc, (foldl Ref.decode_entry acc es).1 !! i = acc.1 !! i).
  { clear Hdoc. induction es as [|kv es IH]; intros acc; [reflexivity|].
    cbn [foldl]. rewrite IH.
    - apply Ref_decode_entry_other with sf; [exact Hsf|].
      intros Heq. apply Hk. rewrite Heq. cbn. left.
    - intros Hin. apply Hk. cbn. now right. }
  specialize (H (config, false)).
  now destruct (foldl Ref.decode_entry (config, false) es).
Qed.

(** On the reference decoder, a key that is not in the file gives the
    zero value of the type to an option that no token invokes. *)
Lemma absent_key_gives_zero w i sf absPath data :
  FlagsType !! i = Some sf → yaml sf ≠ "" →
  (∀ tok n, tok ∈ Args w → n ∈ [short sf; long sf] → n ≠ "" → ¬ invokes n tok) →
  parseError Ref.lib w = None → typed (parsed Ref.lib w) →
  Config (withDefaultConfig w (parsed Ref.lib w)) ≠ "" →
  GetAbsolutePath w (Config (withDefaultConfig w (parsed Ref.lib w))) = inl absPath →
  files w !! absPath = Some (inl data) →
  (Ref.Unmarshal data Flags_zero).2 = None →
  typed (Ref.Unmarshal data Flags_zero).1 →
  (∀ es, Ref.document data = Some es → yaml sf ∉ es.*1) →
  (Init Ref.lib w).1 !! i = Some (zero (Typ sf)).
Proof.
  intros Hsf Hy Hno Hparse Htp Hcfg Habs Hfile Herr Hty Hkeys.
  assert (Hload : loadYAMLConfig Ref.lib w (Config (withDefaultConfig w (parsed Ref.lib w)))
                  = inl (Ref.Unmarshal data Flags_zero).1).
  { unfold loadYAMLConfig, os_ReadFile. rewrite Habs. cbv beta iota. rewrite Hfile.
    change (yaml_Unmarshal Ref.lib) with Ref.Unmarshal.
    destruct (Ref.Unmarshal data Flags_zero) as [config e]. cbn in Herr.
    now rewrite Herr. }
  rewrite (unused_option_from_config Ref.lib w i sf _ Hsf Hy Hno Hparse Htp Hcfg Hload Hty).
  destruct (Ref.document data) as [es|] eqn:Hdoc.
  - rewrite (Ref_Unmarshal_absent data es Flags_zero i sf Hdoc); [| |exact Hsf].
    + unfold Flags_zero. now rewrite list_lookup_fmap, Hsf.
    + unfold Ref.key_of. destruct (String.eqb_spec (yaml sf) ""); [done|].
      now apply Hkeys.
  - unfold Ref.Unmarshal in Herr. rewrite Hdoc in Herr. discriminate Herr.
Qed.

(** * Examples and witnesses *)

Import Sample.

(** ** The scenarios of the specification, on the reference libraries *)

(** Scenario A. *)
Example scenario_A :
  let r := Init Ref.lib w_terminal in
  get "Model" r.1 = Some (VString "gpt-4") ∧ get "Message" r.1 = Some (VString "hello")
  ∧ r.2 = None.
Proof. vm_compute. auto. Qed.

(** Scenarios B, C and D: the temperature is the one of the command
    line, of the file, of the schema. *)
Example scenario_B :
  get "Temperature" (Init Ref.lib w_cli_and_file).1 = VFloat <$> Ref.ParseFloat "0.2".
Proof. vm_compute. reflexivity. Qed.

Example scenario_C :
  get "Temperature" (Init Ref.lib w_file_only).1 = VFloat <$> Ref.ParseFloat "0.9".
Proof. vm_compute. reflexivity. Qed.

Example scenario_D :
  get "Temperature" (Init Ref.lib w_terminal).1 = VFloat <$> Ref.ParseFloat "0.7".
Proof. vm_compute. reflexivity. Qed.

(** The default typed on the command line stands against the file. *)
Example default_typed_by_user :
  get "Temperature" (Init Ref.lib w_cli_default).1 = VFloat <$> Ref.ParseFloat "0.7".
Proof. vm_compute. reflexivity. Qed.

(** Scenario F. *)
Example scenario_F :
  get "Message" (Init Ref.lib w_piped).1 = Some (VString (line "line1" +:+ line "line2")).
Proof. vm_compute. reflexivity. Qed.

(** Of the leftover tokens [a b] the last one is kept, and the piped text
    follows it after a line feed. *)
Example only_last_positional :
  get "Message" (Init Ref.lib w_piped_args).1
  = Some (VString ("b" +:+ nl +:+ line "line1" +:+ "line2")).
Proof. vm_compute. reflexivity. Qed.

(** A number for [seed] is applied. *)
Example seed_number :
  get "Seed" (Init Ref.lib w_seed_number).1 = Some (VInt 7)
  ∧ (Init Ref.lib w_seed_number).2 = None.
Proof. vm_compute. auto. Qed.

(** The conversions of [assignWithConversion], called on its own. *)
Example convert_42_9 :
  assignWithConversion Ref.lib (VInt 0) (VString "42.9") = (VInt 42, None).
Proof. vm_compute. reflexivity. Qed.

Example convert_true :
  assignWithConversion Ref.lib (VBool false) (VString "true") = (VBool true, None)
  ∧ assignWithConversion Ref.lib (VBool true) (VString "false") = (VBool false, None).
Proof. vm_compute. auto. Qed.

Example convert_text :
  assignWithConversion Ref.lib (VInt 5) (VString "abc") =
  (VInt 5, Some (fmt_Errorf "cannot convert string %q to %v" [a_string "abc"; a_Kind KInt])).
Proof. vm_compute. reflexivity. Qed.

(** C3, on the code. A config file with the line [seed: "7"]: the decoder
    fills a struct of type [Flags], whose field [Seed] is an [int], and
    rejects the text; [loadYAMLConfig] fails and [Init] returns the error
    with [Seed] as parsed. The merge never reaches [assignWithConversion]
    ([merge_without_conversion]). *)
Theorem text_seed_rejected :
  (Init Ref.lib w_seed_text).2
  = Some (fmt_Errorf_w "error parsing config file: %w"
            (lib_error "yaml: unmarshal errors"))
  ∧ get "Seed" (Init Ref.lib w_seed_text).1 = Some (VInt 0)
  ∧ get "Seed" (Init Ref.lib w_seed_text).1 ≠ Some (VInt 7).
Proof.
  split; [vm_compute; reflexivity|].
  split; [vm_compute; reflexivity|vm_compute; discriminate].
Qed.

(** ** The statements of the specification that the code does not meet *)

Lemma not_invoked (names : list string) (args : list string) :
  Forall validName names →
  Forall (λ tok, extractFlag tok ∉ names) args →
  ∀ tok n, tok ∈ args → n ∈ names → n ≠ "" → ¬ invokes n tok.
Proof.
  intros Hv Ha tok n Htok Hn _ Hinv.
  rewrite Forall_forall in Hv, Ha.
  apply (Ha tok Htok). now rewrite (invokes_extractFlag n tok (Hv n Hn) Hinv).
Qed.

(** C2 fails where a key is absent from the config file: [fabric --config
    /c.yaml] with a file that sets [temperature] only returns [TopP] as 0,
    not as the default 0.9 the parser delivered. *)
Lemma absent_key_counterexample : ¬ absent_key_keeps_default w_file_only.
Proof.
  intros H.
  specialize (H 7%nat (fieldAt 7) "/c.yaml" (line "temperature: 0.9")
                (Ref.Unmarshal (line "temperature: 0.9") Flags_zero).1).
  assert (Hno : ∀ tok n, tok ∈ Args w_file_only →
                  n ∈ [short (fieldAt 7); long (fieldAt 7)] → n ≠ "" → ¬ invokes n tok).
  { apply not_invoked; apply (bool_decide_unpack _); vm_compute; exact I. }
  specialize (H eq_refl ltac:(discriminate) Hno eq_refl eq_refl eq_refl eq_refl).
  assert (Hkeys : ∀ es, Ref.document (line "temperature: 0.9") = Some es →
                        yaml (fieldAt 7) ∉ es.*1).
  { intros es Hes. vm_compute in Hes. injection Hes as <-.
    intros Hin. in_cases Hin. discriminate Hin. }
  specialize (H Hkeys). vm_compute in H. discriminate H.
Qed.

(** C4 fails on a remainder that starts with ["="]: the code keeps it
    whole, the extraction of the specification gives the empty name. *)
Lemma extraction_counterexample : ¬ (∀ arg, extractFlag arg = extractFlag_spec arg).
Proof. intros H. specialize (H "--=x"). vm_compute in H. discriminate H. Qed.

(** ** Witnesses *)

Lemma cli_value_wins_witness :
  (FlagsType !! 6%nat = Some (fieldAt 6) ∧ yaml (fieldAt 6) ≠ ""
   ∧ "t" ∈ [short (fieldAt 6); long (fieldAt 6)] ∧ "t" ≠ ""
   ∧ "-t" ∈ Args w_cli_and_file ∧ invokes "t" "-t")
  ∧ (Init Ref.lib w_cli_and_file).1 !! 6%nat = parsed Ref.lib w_cli_and_file !! 6%nat.
Proof.
  assert (H1 : FlagsType !! 6%nat = Some (fieldAt 6)) by reflexivity.
  assert (H2 : yaml (fieldAt 6) ≠ "") by discriminate.
  assert (H3 : "t" ∈ [short (fieldAt 6); long (fieldAt 6)]) by apply list_elem_of_here.
  assert (H4 : "t" ≠ "") by discriminate.
  assert (H5 : "-t" ∈ Args w_cli_and_file) by apply list_elem_of_here.
  assert (H6 : invokes "t" "-t").
  { exists "-". split; [apply list_elem_of_here|left; reflexivity]. }
  split; [tauto|].
  exact (cli_value_wins Ref.lib w_cli_and_file 6 (fieldAt 6) "t" "-t" H1 H2 H3 H4 H5 H6).
Defined.

Lemma config_value_applies_witness :
  let w := w_file_only in
  let yamlFlags := (Ref.Unmarshal (line "temperature: 0.9") Flags_zero).1 in
  (FlagsType !! 7%nat = Some (fieldAt 7) ∧ yaml (fieldAt 7) ≠ ""
   ∧ (∀ tok n, tok ∈ Args w → n ∈ [short (fieldAt 7); long (fieldAt 7)] →
               n ≠ "" → ¬ invokes n tok)
   ∧ parseError Ref.lib w = None ∧ typed (parsed Ref.lib w)
   ∧ Config (withDefaultConfig w (parsed Ref.lib w)) ≠ ""
   ∧ loadYAMLConfig Ref.lib w (Config (withDefaultConfig w (parsed Ref.lib w)))
     = inl yamlFlags
   ∧ typed yamlFlags)
  ∧ (Init Ref.lib w).1 !! 7%nat = yamlFlags !! 7%nat
  ∧ (yamlFlags !! 7%nat = Flags_zero !! 7%nat →
     (Init Ref.lib w).1 !! 7%nat = Some (zero (Typ (fieldAt 7)))).
Proof.
  intros w yamlFlags.
  assert (H1 : FlagsType !! 7%nat = Some (fieldAt 7)) by reflexivity.
  assert (H2 : yaml (fieldAt 7) ≠ "") by discriminate.
  assert (H3 : ∀ tok n, tok ∈ Args w → n ∈ [short (fieldAt 7); long (fieldAt 7)] →
                        n ≠ "" → ¬ invokes n tok).
  { apply not_invoked; apply (bool_decide_unpack _); vm_compute; exact I. }
  assert (H4 : parseError Ref.lib w = None) by reflexivity.
  assert (H5 : typed (parsed Ref.lib w)) by (vm_compute; reflexivity).
  assert (H6 : Config (withDefaultConfig w (parsed Ref.lib w)) ≠ "")
    by (vm_compute; discriminate).
  assert (H7 : loadYAMLConfig Ref.lib w (Config (withDefaultConfig w (parsed Ref.lib w)))
               = inl yamlFlags) by (vm_compute; reflexivity).
  assert (H8 : typed yamlFlags) by (vm_compute; reflexivity).
  split; [tauto|].
  exact (config_value_applies Ref.lib w 7 (fieldAt 7) yamlFlags H1 H2 H3 H4 H5 H6 H7 H8).
Defined.

Lemma merge_frame_witness :
  let yamlVal := (Ref.Unmarshal (line "temperature: 0.9") Flags_zero).1 in
  let ret := parsed Ref.lib w_terminal in
  (∀ sf, FlagsType !! 17%nat = Some sf → yaml sf = "")
  ∧ applyYAML Ref.lib ∅ yamlVal ret !! 17%nat = ret !! 17%nat
  ∧ length (applyYAML Ref.lib ∅ yamlVal ret) = length ret.
Proof.
  intros yamlVal ret.
  assert (H : ∀ sf, FlagsType !! 17%nat = Some sf → yaml sf = "").
  { intros sf Hsf. vm_compute in Hsf. injection Hsf as <-. reflexivity. }
  split; [exact H|].
  exact (merge_frame Ref.lib ∅ yamlVal ret 17 H).
Defined.

Lemma input_assembly_witness :
  let w := w_piped in
  let merged := (afterMerge Ref.lib w).1 in
  (parseError Ref.lib w = None ∧ afterMerge Ref.lib w = (merged, None)
   ∧ typed (parsed Ref.lib w)
   ∧ (pipedToStdin w = true → errors_Is_EOF (stdin_end w) = true))
  ∧ Init Ref.lib w = (appendAll merged (segments w (positional Ref.lib w)), None)
  ∧ (∀ a, last (positional Ref.lib w) = Some a → pipedToStdin w = true →
          Message merged = "" → a ≠ "" →
          Message (Init Ref.lib w).1 = a +:+ nl +:+ stdin_data w)
  ∧ (positional Ref.lib w = [] → pipedToStdin w = true → Message merged = "" →
     Message (Init Ref.lib w).1 = line "line1" +:+ line "line2").
Proof.
  intros w merged.
  assert (H1 : parseError Ref.lib w = None) by reflexivity.
  assert (H2 : afterMerge Ref.lib w = (merged, None)) by (vm_compute; reflexivity).
  assert (H3 : typed (parsed Ref.lib w)) by (vm_compute; reflexivity).
  assert (H4 : pipedToStdin w = true → errors_Is_EOF (stdin_end w) = true)
    by (intros _; reflexivity).
  split; [tauto|].
  exact (input_assembly Ref.lib w merged H1 H2 H3 H4).
Defined.

Lemma stdin_read_witness :
  let w := w_broken_pipe in
  let merged := (afterMerge Ref.lib w).1 in
  (parseError Ref.lib w = None ∧ afterMerge Ref.lib w = (merged, None)
   ∧ typed (parsed Ref.lib w) ∧ pipedToStdin w = true)
  ∧ readStdin w = (if errors_Is_EOF (stdin_end w) then (stdin_data w, None)
                   else ("", Some (stdinError (stdin_end w))))
  ∧ ((Init Ref.lib w).2 = None ↔ errors_Is_EOF (stdin_end w) = true)
  ∧ (errors_Is_EOF (stdin_end w) = false →
     (Init Ref.lib w).2 = Some (stdinError (PathError "read" "/dev/stdin" EIO)))
  ∧ (errors_Is_EOF (stdin_end w) = true →
     Message (Init Ref.lib w).1
     = AppendMessage
         (Message (appendAll merged (option_list (last (positional Ref.lib w)))))
         (stdin_data w)).
Proof.
  intros w merged.
  assert (H1 : parseError Ref.lib w = None) by reflexivity.
  assert (H2 : afterMerge Ref.lib w = (merged, None)) by (vm_compute; reflexivity).
  assert (H3 : typed (parsed Ref.lib w)) by (vm_compute; reflexivity).
  assert (H4 : pipedToStdin w = true) by reflexivity.
  split; [tauto|].
  exact (stdin_read Ref.lib w merged H1 H2 H3 H4).
Defined.

(** The bytes of a stream that ends in [io.EOF] without a last line feed
    are all read. *)
Example stdin_last_line :
  readStdin w_piped_args = (line "line1" +:+ "line2", None).
Proof. vm_compute. reflexivity. Qed.

Lemma config_loading_witness :
  (parseError Ref.lib w_missing = None ∧ Config (parsed Ref.lib w_missing) ≠ ""
   ∧ GetAbsolutePath w_missing (Config (parsed Ref.lib w_missing)) = inl "/c.yaml"
   ∧ files w_missing !! "/c.yaml" = None
   ∧ (Init Ref.lib w_missing).2
     = Some (fmt_Errorf "config file not found: %s" [a_string "/c.yaml"]))
  ∧ (parseError Ref.lib w_not_yaml = None ∧ Config (parsed Ref.lib w_not_yaml) ≠ ""
     ∧ GetAbsolutePath w_not_yaml (Config (parsed Ref.lib w_not_yaml)) = inl "/c.yaml"
     ∧ files w_not_yaml !! "/c.yaml" = Some (inl (line "just text"))
     ∧ (yaml_Unmarshal Ref.lib (line "just text") Flags_zero).2
       = Some (lib_error "yaml: cannot parse the document")
     ∧ (Init Ref.lib w_not_yaml).2
       = Some (fmt_Errorf_w "error parsing config file: %w"
                 (lib_error "yaml: cannot parse the document")))
  ∧ (parseError Ref.lib w_terminal = None ∧ Config (parsed Ref.lib w_terminal) = ""
     ∧ (∀ d, defaultLocation w_terminal = inl d → files w_terminal !! d = None)
     ∧ (pipedToStdin w_terminal = true → errors_Is_EOF (stdin_end w_terminal) = true)
     ∧ Init Ref.lib w_terminal
       = handleInput w_terminal (positional Ref.lib w_terminal) (parsed Ref.lib w_terminal)
     ∧ (Init Ref.lib w_terminal).2 = None).
Proof.
  split; [|split].
  - assert (H1 : parseError Ref.lib w_missing = None) by reflexivity.
    assert (H2 : Config (parsed Ref.lib w_missing) ≠ "") by (vm_compute; discriminate).
    assert (H3 : GetAbsolutePath w_missing (Config (parsed Ref.lib w_missing))
                 = inl "/c.yaml") by reflexivity.
    assert (H4 : files w_missing !! "/c.yaml" = None) by reflexivity.
    repeat (split; [assumption|]).
    exact (proj1 (config_loading Ref.lib w_missing H1) "/c.yaml" H2 H3 H4).
  - assert (H1 : parseError Ref.lib w_not_yaml = None) by reflexivity.
    assert (H2 : Config (parsed Ref.lib w_not_yaml) ≠ "") by (vm_compute; discriminate).
    assert (H3 : GetAbsolutePath w_not_yaml (Config (parsed Ref.lib w_not_yaml))
                 = inl "/c.yaml") by reflexivity.
    assert (H4 : files w_not_yaml !! "/c.yaml" = Some (inl (line "just text")))
      by reflexivity.
    assert (H5 : (yaml_Unmarshal Ref.lib (line "just text") Flags_zero).2
                 = Some (lib_error "yaml: cannot parse the document")) by reflexivity.
    repeat (split; [assumption|]).
    exact (proj1 (proj2 (config_loading Ref.lib w_not_yaml H1))
             "/c.yaml" (line "just text") _ H2 H3 H4 H5).
  - assert (H1 : parseError Ref.lib w_terminal = None) by reflexivity.
    assert (H2 : Config (parsed Ref.lib w_terminal) = "") by reflexivity.
    assert (H3 : ∀ d, defaultLocation w_terminal = inl d → files w_terminal !! d = None)
      by (intros d Hd; injection Hd as <-; reflexivity).
    assert (H4 : pipedToStdin w_terminal = true
                 → errors_Is_EOF (stdin_end w_terminal) = true) by (intros _; reflexivity).
    repeat (split; [assumption|]).
    pose proof (proj2 (proj2 (config_loading Ref.lib w_terminal H1)) H2 H3) as [H5 H6].
    split; [exact H5|exact (H6 H4)].
Defined.

Lemma Init_reads_run :
  same_inputs Ref.lib w_cli_and_file w_cli_and_file'
  ∧ files w_cli_and_file ≠ files w_cli_and_file'
  ∧ Init Ref.lib w_cli_and_file = Init Ref.lib w_cli_and_file'.
Proof.
  assert (H : same_inputs Ref.lib w_cli_and_file w_cli_and_file').
  { do 5 (split; [reflexivity|]). cbv zeta. split; [reflexivity|].
    intros absPath Habs. vm_compute in Habs. injection Habs as <-. reflexivity. }
  split; [exact H|]. split.
  - intros Hf. apply (f_equal (λ m, m !! "/tmp/other")) in Hf.
    vm_compute in Hf. discriminate Hf.
  - exact (Init_reads Ref.lib w_cli_and_file w_cli_and_file' H).
Qed.

Lemma bundle_not_decomposed_witness :
  ("sp" ≠ "" ∧ strings.HasPrefix "sp" "-" = false ∧ find "=" "sp" = None
   ∧ flagToYamlTag !! "sp" = None)
  ∧ extractFlag ("-" +:+ "sp") = "sp"
  ∧ scanArgs (["-t"; "0.2"] ++ ("-" +:+ "sp") :: ["x"]) = scanArgs (["-t"; "0.2"] ++ ["x"])
  ∧ scanArgs (["-t"; "0.2"] ++ "-" :: ["x"]) = scanArgs (["-t"; "0.2"] ++ ["x"])
  ∧ scanArgs (["-t"; "0.2"] ++ "--" :: ["x"]) = scanArgs (["-t"; "0.2"] ++ ["x"]).
Proof.
  assert (H1 : "sp" ≠ "") by discriminate.
  assert (H2 : strings.HasPrefix "sp" "-" = false) by reflexivity.
  assert (H3 : find "=" "sp" = None) by reflexivity.
  assert (H4 : flagToYamlTag !! "sp" = None) by reflexivity.
  split; [tauto|].
  exact (bundle_not_decomposed "sp" ["-t"; "0.2"] ["x"] H1 H2 H3 H4).
Defined.

(** The flags [-s] and [-p] bundled record nothing, though each is a
    name of the schema. *)
Example bundle_sp :
  scanArgs ["-sp"] = ∅
  ∧ flagToYamlTag !! "s" = Some "stream" ∧ flagToYamlTag !! "p" = Some "pattern"
  ∧ used (scanArgs ["-s"; "-p"]) "stream" = true.
Proof. repeat split; vm_compute; reflexivity. Qed.

(** * Further properties of the code *)

(** ** The pre-scan *)

(** One dash or two before a name make no difference to the pre-scan:
    [-temperature] is recorded like [--temperature], and [--t] like
    [-t]. *)
Theorem dashes_not_distinguished r usedFlags :
  r ≠ "" → strings.HasPrefix r "-" = false →
  extractFlag ("-" +:+ r) = extractFlag ("--" +:+ r)
  ∧ scanArg usedFlags ("-" +:+ r) = scanArg usedFlags ("--" +:+ r).
Proof.
  intros Hr Hp.
  assert (H : extractFlag ("-" +:+ r) = extractFlag ("--" +:+ r))
    by now rewrite extractFlag_short, extractFlag_long.
  split; [exact H|]. now rewrite !scanArg_lookup, H.
Qed.

(** Every yaml tag in [flagToYamlTag] is the tag of a field. *)
Lemma flagToYamlTag_fields :
  map_Forall (λ _ yamlTag, yamlTag ≠ "" ∧ Exists (λ sf, yaml sf = yamlTag) FlagsType)
    flagToYamlTag.
Proof. apply (bool_decide_unpack _). vm_compute. exact I. Qed.

(** [usedFlags] never holds [false]. *)
Lemma scanArgs_true args y b : scanArgs args !! y = Some b → b = true.
Proof.
  unfold scanArgs.
  assert (H : ∀ u, map_Forall (λ _ b, b = true) u →
                   map_Forall (λ _ b, b = true) (foldl scanArg u args)).
  { induction args as [|arg args IH]; intros u Hu; [exact Hu|].
    cbn [foldl]. apply IH. rewrite scanArg_lookup.
    destruct (flagToYamlTag !! extractFlag arg); [|exact Hu].
    now apply map_Forall_insert_2. }
  intros Hy. exact (H ∅ (map_Forall_empty _) y b Hy).
Qed.

Lemma scanArgs_lookup args y :
  scanArgs args !! y = if used (scanArgs args) y then Some true else None.
Proof.
  unfold used. destruct (scanArgs args !! y) as [b|] eqn:E; [|reflexivity].
  now rewrite (scanArgs_true _ _ _ E).
Qed.

(** [usedFlags] is determined by which keys it holds. *)
Lemma scanArgs_ext args args' :
  (∀ y, used (scanArgs args) y = used (scanArgs args') y) →
  scanArgs args = scanArgs args'.
Proof. intros H. apply map_eq. intros y. now rewrite !scanArgs_lookup, H. Qed.

(** The key of an option is in [usedFlags] exactly when a token of the
    command line invokes one of the names of the option; no other key is
    ever recorded. *)
Theorem usedFlags_characterised args y :
  used (scanArgs args) y = true ↔
  ∃ i sf n tok, FlagsType !! i = Some sf ∧ yaml sf = y ∧ y ≠ ""
                ∧ n ∈ [short sf; long sf] ∧ n ≠ "" ∧ tok ∈ args ∧ invokes n tok.
Proof.
  rewrite used_scanArgs. split.
  - intros (tok & Htok & Hmap).
    destruct (flagToYamlTag_fields _ _ Hmap) as [Hy Hex].
    apply Exists_exists in Hex as (sf & Hin & Hsf).
    apply list_elem_of_lookup in Hin as [i Hi]. subst y.
    destruct (flagToYamlTag_inv _ _ _ Hi Hmap) as [Hne Hn].
    exists i, sf, (extractFlag tok), tok. repeat split; try assumption.
    now apply extractFlag_invokes.
  - intros (i & sf & n & tok & Hi & <- & Hy & Hn & Hne & Htok & Hinv).
    destruct (flagToYamlTag_name _ _ _ Hi Hy Hn Hne) as [Hvalid Hmap].
    exists tok. split; [exact Htok|].
    now rewrite (invokes_extractFlag _ _ Hvalid Hinv).
Qed.

(** The pre-scan of a list of tokens depends on the set of the tokens
    only: neither their order nor their repetition matters. *)
Theorem scanArgs_set args args' :
  (∀ tok, tok ∈ args ↔ tok ∈ args') → scanArgs args = scanArgs args'.
Proof.
  intros H. apply scanArgs_ext. intros y.
  apply eq_true_iff_eq. rewrite !used_scanArgs.
  split; intros (tok & Htok & Hmap); exists tok; (split; [now apply H|exact Hmap]).
Qed.

(** The pre-scan of two lists of tokens one after the other records the
    keys of both: tokens never take a key away, wherever they stand. *)
Theorem scanArgs_app l1 l2 : scanArgs (l1 ++ l2) = scanArgs l1 ∪ scanArgs l2.
Proof.
  apply map_eq. intros y. rewrite lookup_union, !scanArgs_lookup.
  assert (H : used (scanArgs (l1 ++ l2)) y
              = used (scanArgs l1) y || used (scanArgs l2) y).
  { apply eq_true_iff_eq. rewrite orb_true_iff, !used_scanArgs. split.
    - intros (tok & Htok & Hmap). apply elem_of_app in Htok as [Htok|Htok]; eauto.
    - intros [(tok & Htok & Hmap)|(tok & Htok & Hmap)];
        exists tok; (split; [apply elem_of_app; auto|exact Hmap]). }
  rewrite H. now destruct (used (scanArgs l1) y), (used (scanArgs l2) y).
Qed.

(** ** The conversion and the merge *)

Lemma Type_eqb_eq t u : Type_eqb t u = true ↔ t = u.
Proof. destruct t, u; cbn; split; (discriminate || reflexivity). Qed.

Lemma assignWithConversion_type L targetField sourceField :
  Value_Type (assignWithConversion L targetField sourceField).1 = Value_Type targetField.
Proof.
  unfold assignWithConversion.
  destruct sourceField as [str| | | | |]; try reflexivity.
  destruct targetField; cbn;
    destruct (strconv_ParseFloat L str), (strconv_ParseInt L str),
      (strconv_ParseBool L str); reflexivity.
Qed.

Lemma assignWithConversion_error L targetField sourceField err :
  (assignWithConversion L targetField sourceField).2 = Some err →
  (assignWithConversion L targetField sourceField).1 = targetField.
Proof.
  unfold assignWithConversion.
  destruct sourceField as [str| | | | |]; try reflexivity.
  destruct targetField; cbn;
    destruct (strconv_ParseFloat L str), (strconv_ParseInt L str),
      (strconv_ParseBool L str); cbn; (reflexivity || discriminate).
Qed.

(** The value a conversion gives depends on the kind of the target, not
    on what the target holds: converting again gives the same. *)
Lemma assignWithConversion_again L targetField sourceField converted :
  assignWithConversion L targetField sourceField = (converted, None) →
  assignWithConversion L converted sourceField = (converted, None).
Proof.
  unfold assignWithConversion.
  destruct sourceField as [str| | | | |]; try discriminate.
  destruct targetField; cbn;
    destruct (strconv_ParseFloat L str), (strconv_ParseInt L str),
      (strconv_ParseBool L str); cbn;
    intros H; try discriminate H; now injection H as <-.
Qed.

(** [assignWithConversion] never changes the type of the target; it
    changes the target only when it returns no error, and returns no
    error only for a text source and a target that is an [int], a
    [float64] or a [bool]. *)
Theorem assignWithConversion_outcome L targetField sourceField :
  let r := assignWithConversion L targetField sourceField in
  Value_Type r.1 = Value_Type targetField
  ∧ (r.2 = None ∨ r.1 = targetField)
  ∧ (r.2 = None →
     Value_Kind sourceField = KString
     ∧ Value_Kind targetField ∈ [KInt; KFloat64; KBool]).
Proof.
  cbv zeta. split; [apply assignWithConversion_type|]. split.
  - destruct (assignWithConversion L targetField sourceField).2 as [err|] eqn:E; [|now left].
    right. eapply assignWithConversion_error, E.
  - unfold assignWithConversion.
    destruct sourceField as [str| | | | |]; try discriminate.
    destruct targetField; cbn;
      destruct (strconv_ParseFloat L str), (strconv_ParseInt L str),
        (strconv_ParseBool L str); cbn; try discriminate; intros _;
      (split; [reflexivity|]); repeat constructor.
Qed.

Lemma int64_of_float64_range val :
  - 2 ^ 63 <= int64_of_float64 val < 2 ^ 63.
Proof.
  unfold int64_of_float64. destruct val as [| | |s m e]; try lia.
  destruct (_ && _) eqn:E; [|lia].
  apply andb_true_iff in E as [H1 H2].
  apply Z.leb_le in H1. apply Z.ltb_lt in H2. lia.
Qed.

(** An [int] field set by the conversion holds a number of 64 bits, if
    the numbers [strconv.ParseInt] returns are. *)
Theorem converted_int_range L n str m :
  (∀ s z, strconv_ParseInt L s = Some z → - 2 ^ 63 <= z < 2 ^ 63) →
  assignWithConversion L (VInt n) (VString str) = (VInt m, None) →
  - 2 ^ 63 <= m < 2 ^ 63.
Proof.
  intros Hint. unfold assignWithConversion. cbn.
  destruct (strconv_ParseFloat L str) as [val|].
  - intros H. injection H as <-. apply int64_of_float64_range.
  - destruct (strconv_ParseInt L str) as [z|] eqn:E; [|discriminate].
    intros H. injection H as <-. eapply Hint, E.
Qed.

Section MergeMore.

Variable L : Lib.
Variable usedFlags : gmap string bool.
Variable yamlVal : Flags.

(** Turn [i] of the loop, on the field it may write. *)
Lemma applyField_at r i :
  applyField L usedFlags yamlVal r i !! i =
  match FlagsType !! i, r !! i, yamlVal !! i with
  | Some field, Some flagField, Some yamlField =>
      Some (mergedField L usedFlags field flagField yamlField)
  | _, _, _ => r !! i
  end.
Proof.
  unfold applyField, mergedField.
  destruct (FlagsType !! i) as [field|]; [|reflexivity].
  destruct (r !! i) as [flagField|] eqn:Hr; [|exact Hr].
  destruct (yamlVal !! i) as [yamlField|]; [|exact Hr].
  destruct (negb (String.eqb (yaml field) "")); cbn [andb]; [|exact Hr].
  destruct (negb (used usedFlags (yaml field))); cbn [andb]; [|exact Hr].
  destruct (CanSet field); [|exact Hr].
  destruct (Type_eqb (Value_Type yamlField) (Value_Type flagField)); cbn [negb].
  - eapply insert_lookup_same, Hr.
  - destruct (assignWithConversion L flagField yamlField) as [converted [err|]];
      [exact Hr|eapply insert_lookup_same, Hr].
Qed.

Lemma applyYAML_at r i :
  applyYAML L usedFlags yamlVal r !! i =
  match FlagsType !! i, r !! i, yamlVal !! i with
  | Some field, Some flagField, Some yamlField =>
      Some (mergedField L usedFlags field flagField yamlField)
  | _, _, _ => r !! i
  end.
Proof.
  rewrite applyYAML_lookup. case_decide as Hi; [apply applyField_at|].
  now rewrite (lookup_ge_None_2 FlagsType i) by (unfold NumField in Hi; lia).
Qed.

Lemma mergedField_type field flagField yamlField :
  Value_Type (mergedField L usedFlags field flagField yamlField) = Value_Type flagField.
Proof.
  unfold mergedField. destruct (_ && _); [|reflexivity].
  destruct (Type_eqb _ _) eqn:E; [now apply Type_eqb_eq|].
  pose proof (assignWithConversion_type L flagField yamlField) as Ht.
  now destruct (assignWithConversion L flagField yamlField) as [converted [err|]].
Qed.

Lemma mergedField_again field flagField yamlField :
  mergedField L usedFlags field (mergedField L usedFlags field flagField yamlField) yamlField
  = mergedField L usedFlags field flagField yamlField.
Proof.
  unfold mergedField. destruct (_ && _); [|reflexivity].
  destruct (Type_eqb (Value_Type yamlField) (Value_Type flagField)) eqn:E.
  - now replace (Type_eqb (Value_Type yamlField) (Value_Type yamlField)) with true
      by (symmetry; now apply Type_eqb_eq).
  - pose proof (assignWithConversion_type L flagField yamlField) as Ht.
    destruct (assignWithConversion L flagField yamlField) as [converted [err|]] eqn:Hc.
    + now rewrite E, Hc.
    + cbn in Ht. rewrite Ht, E. now rewrite (assignWithConversion_again _ _ _ _ Hc).
Qed.

(** The merge keeps the type of every field, whatever the struct it
    merges from holds: a struct of type [Flags] stays one. *)
Lemma applyYAML_typed ret :
  typed ret → typed (applyYAML L usedFlags yamlVal ret).
Proof.
  unfold typed. intros Ht. rewrite <- Ht. apply list_eq. intros i.
  rewrite !list_lookup_fmap, applyYAML_at.
  destruct (FlagsType !! i) as [field|]; [|reflexivity].
  destruct (ret !! i) as [flagField|]; [|reflexivity].
  destruct (yamlVal !! i) as [yamlField|]; [|reflexivity].
  cbn. now rewrite mergedField_type.
Qed.

(** Merging the same struct a second time changes nothing. *)
Theorem applyYAML_idempotent ret :
  applyYAML L usedFlags yamlVal (applyYAML L usedFlags yamlVal ret)
  = applyYAML L usedFlags yamlVal ret.
Proof.
  apply list_eq. intros i. rewrite applyYAML_at. rewrite applyYAML_at.
  destruct (FlagsType !! i) as [field|]; [|reflexivity].
  destruct (ret !! i) as [flagField|]; [|reflexivity].
  destruct (yamlVal !! i) as [yamlField|]; [|reflexivity].
  now rewrite mergedField_again.
Qed.

(** When every option with a config-file key was used on the command
    line, the merge leaves the struct as it is. *)
Theorem applyYAML_all_used ret :
  (∀ sf, sf ∈ FlagsType → yaml sf ≠ "" → used usedFlags (yaml sf) = true) →
  applyYAML L usedFlags yamlVal ret = ret.
Proof.
  intros H. apply list_eq. intros i. apply applyYAML_skips. intros sf Hsf.
  destruct (String.eqb_spec (yaml sf) ""); [now left|right].
  apply H; [|assumption]. eapply list_elem_of_lookup_2, Hsf.
Qed.

End MergeMore.

(** ** [AppendMessage] *)

Lemma length_append (s t : string) :
  String.length (s +:+ t) = (String.length s + String.length t)%nat.
Proof. induction s as [|a s IH]; cbn; [reflexivity|now rewrite IH]. Qed.

Lemma AppendMessage_prefix m s : strings.HasPrefix (AppendMessage m s) m = true.
Proof.
  unfold AppendMessage. destruct (String.eqb_spec m "") as [->|]; cbn [negb].
  - apply prefix_nil.
  - apply HasPrefix_app.
Qed.

Lemma AppendMessage_eq_empty m s : AppendMessage m s = "" ↔ m = "" ∧ s = "".
Proof.
  unfold AppendMessage. destruct (String.eqb_spec m "") as [->|Hm]; cbn [negb].
  - tauto.
  - split; [|tauto]. intros H. destruct m; [done|discriminate H].
Qed.

(** [AppendMessage] loses nothing: the message so far starts the result,
    whose length is that of the two messages and of the line feed between
    them, and which is empty only when both are. Appending the empty
    message to a message that is not empty adds a line feed. *)
Theorem AppendMessage_keeps m s :
  strings.HasPrefix (AppendMessage m s) m = true
  ∧ String.length (AppendMessage m s)
    = (String.length m + String.length s + (if String.eqb m "" then 0 else 1))%nat
  ∧ (AppendMessage m s = "" ↔ m = "" ∧ s = "")
  ∧ (m ≠ "" → AppendMessage m "" = m +:+ nl).
Proof.
  split; [apply AppendMessage_prefix|]. split; [|split; [apply AppendMessage_eq_empty|]].
  - unfold AppendMessage. destruct (String.eqb_spec m "") as [->|Hm]; cbn [negb].
    + cbn. lia.
    + rewrite !length_append. cbn. lia.
  - intros Hm. now rewrite AppendMessage_nonempty.
Qed.

(** Appending is associative when the message in the middle is not
    empty; an empty message in the middle leaves a second line feed. *)
Theorem AppendMessage_assoc m s t :
  s ≠ "" →
  AppendMessage (AppendMessage m s) t = AppendMessage m (AppendMessage s t)
  ∧ (m ≠ "" → AppendMessage (AppendMessage m "") t = m +:+ nl +:+ nl +:+ t).
Proof.
  intros Hs. split.
  - rewrite (AppendMessage_nonempty s t) by exact Hs.
    destruct (String.eqb_spec m "") as [->|Hm].
    + rewrite !AppendMessage_empty. now apply AppendMessage_nonempty.
    + rewrite (AppendMessage_nonempty m s), (AppendMessage_nonempty m) by exact Hm.
      rewrite AppendMessage_nonempty by (destruct m; [done|discriminate]).
      now rewrite !append_assoc.
  - intros Hm. rewrite (AppendMessage_nonempty m "") by exact Hm.
    rewrite AppendMessage_nonempty by (destruct m; [done|discriminate]).
    now rewrite !append_assoc.
Qed.

Lemma foldl_AppendMessage_nonempty segs m :
  (m ≠ "" ∨ ∃ s, s ∈ segs ∧ s ≠ "") → foldl AppendMessage m segs ≠ "".
Proof.
  revert m. induction segs as [|s segs IH]; intros m H; cbn [foldl].
  - destruct H as [H|(s & Hs & _)]; [exact H|]. now apply elem_of_nil in Hs.
  - apply IH. destruct (String.eqb_spec (AppendMessage m s) "") as [E|]; [|now left].
    apply AppendMessage_eq_empty in E as [-> ->].
    destruct H as [H|(s & Hs & Hne)]; [done|].
    apply elem_of_cons in Hs as [->|Hs]; [done|]. right. eauto.
Qed.

(** ** The struct [Init] returns *)

Lemma typed_setString f name s sf :
  FlagsType !! FieldByName name = Some sf → Typ sf = string_t →
  typed f → typed (setString f name s).
Proof.
  unfold typed, setString. intros Hsf Ht Hf.
  rewrite list_fmap_insert, Hf. apply list_insert_id.
  rewrite list_lookup_fmap, Hsf. cbn. now rewrite Ht.
Qed.

Lemma typed_set_Message f s : typed f → typed (setString f "Message" s).
Proof. now apply typed_setString with (sfield "Message" string_t "" "" "" ""). Qed.

Lemma typed_set_Config f s : typed f → typed (setString f "Config" s).
Proof. now apply typed_setString with (sfield "Config" string_t "" "config" "" ""). Qed.

Lemma Message_appendAll ret segs :
  typed ret → Message (appendAll ret segs) = foldl AppendMessage (Message ret) segs.
Proof.
  intros Ht. destruct segs as [|s segs]; [reflexivity|].
  unfold appendAll. apply Message_setString.
  rewrite (typed_length _ Ht). vm_compute. lia.
Qed.

Lemma typed_appendAll ret segs : typed ret → typed (appendAll ret segs).
Proof. intros Ht. destruct segs; [exact Ht|]. now apply typed_set_Message. Qed.

Section InitMore.

Variable L : Lib.

Lemma typed_withDefaultConfig w ret : typed ret → typed (withDefaultConfig w ret).
Proof.
  intros Ht. unfold withDefaultConfig.
  repeat (case_match; try exact Ht). now apply typed_set_Config.
Qed.

Lemma typed_afterMerge w : typed (parsed L w) → typed (afterMerge L w).1.
Proof.
  intros Ht. unfold afterMerge, resolveConfig.
  repeat (case_match; cbn [fst]); try apply applyYAML_typed;
    now apply typed_withDefaultConfig.
Qed.

(** [Init] when the parser returned no error, in the shape
    [handleInput_read] gives it. *)
Lemma Init_shape w :
  parseError L w = None → typed (parsed L w) →
  Init L w =
  match (afterMerge L w).2 with
  | Some err => ((afterMerge L w).1, Some err)
  | None =>
      if pipedToStdin w && negb (errors_Is_EOF (stdin_end w))
      then (appendAll (afterMerge L w).1 (option_list (last (positional L w))),
            Some (stdinError (stdin_end w)))
      else (appendAll (afterMerge L w).1 (segments w (positional L w)), None)
  end.
Proof.
  intros Hp Ht. destruct (afterMerge L w) as [merged [err|]] eqn:E; cbn [fst snd].
  - rewrite Init_stages, Hp. fold (afterMerge L w). now rewrite E.
  - now apply Init_after_merge.
Qed.

(** The struct [Init] returns has the type [Flags] if the struct the
    parser delivers has it, whatever the decoder delivers and whether
    [Init] fails or not. *)
Theorem Init_typed w : typed (parsed L w) → typed (Init L w).1.
Proof.
  intros Ht. destruct (parseError L w) as [err|] eqn:Hp.
  - now rewrite Init_stages, Hp.
  - rewrite (Init_shape w Hp Ht). pose proof (typed_afterMerge w Ht) as Hm.
    repeat (case_match; cbn [fst]); try exact Hm; now apply typed_appendAll.
Qed.

(** [Init] returns the error of the first stage that fails: parsing, then
    the config file, then standard input. A later stage does not run. *)
Theorem Init_error_order w :
  (Init L w).2 =
  match parseError L w with
  | Some err => Some err
  | None =>
      match (afterMerge L w).2 with
      | Some err => Some err
      | None =>
          if pipedToStdin w && negb (errors_Is_EOF (stdin_end w))
          then Some (stdinError (stdin_end w))
          else None
      end
  end.
Proof.
  rewrite Init_stages. destruct (parseError L w); [reflexivity|].
  fold (afterMerge L w). destruct (afterMerge L w) as [merged [err|]]; [reflexivity|].
  cbn [snd]. unfold handleInput. rewrite readStdin_result.
  destruct (pipedToStdin w); [|reflexivity].
  now destruct (errors_Is_EOF (stdin_end w)).
Qed.

Lemma afterMerge_other w i :
  i ≠ FieldByName "Config" →
  (∀ sf, FlagsType !! i = Some sf →
         yaml sf = "" ∨ used (scanArgs (Args w)) (yaml sf) = true) →
  (afterMerge L w).1 !! i = parsed L w !! i.
Proof.
  intros Hc Hskip. unfold afterMerge, resolveConfig.
  repeat (case_match; cbn [fst]);
    rewrite ?applyYAML_skips by assumption; now apply withDefaultConfig_other.
Qed.

Lemma Message_afterMerge w : Message (afterMerge L w).1 = Message (parsed L w).
Proof.
  unfold Message, getString. rewrite afterMerge_other; [reflexivity|discriminate|].
  intros sf Hsf. vm_compute in Hsf. injection Hsf as <-. now left.
Qed.

(** The merge never writes [Message], whatever the decoder delivered for
    it, and the message [Init] returns is the message of the parser with
    the input appended: nothing when parsing or the config file fails,
    the last leftover token when the read of standard input fails, and
    otherwise the last leftover token and then the piped text. *)
Theorem Init_Message w :
  typed (parsed L w) →
  Message (afterMerge L w).1 = Message (parsed L w)
  ∧ Message (Init L w).1 =
    foldl AppendMessage (Message (parsed L w))
      (match parseError L w, (afterMerge L w).2 with
       | None, None =>
           if pipedToStdin w && negb (errors_Is_EOF (stdin_end w))
           then option_list (last (positional L w))
           else segments w (positional L w)
       | _, _ => []
       end).
Proof.
  intros Ht. split; [apply Message_afterMerge|].
  destruct (parseError L w) as [err|] eqn:Hp.
  - now rewrite Init_stages, Hp.
  - rewrite (Init_shape w Hp Ht). pose proof (typed_afterMerge w Ht) as Hm.
    rewrite <- Message_afterMerge.
    destruct (afterMerge L w).2; [reflexivity|].
    case_match; cbn [fst]; now rewrite Message_appendAll by exact Hm.
Qed.

(** An option that has no config-file key and is neither [Message] nor
    [Config] is returned by [Init] as the parser delivered it. *)
Theorem Init_keeps_cli_only w i sf :
  FlagsType !! i = Some sf → yaml sf = "" →
  Name sf ≠ "Message" → Name sf ≠ "Config" →
  (Init L w).1 !! i = parsed L w !! i.
Proof.
  intros Hsf Hy Hm Hc. apply Init_field_kept.
  - intros ->. vm_compute in Hsf. injection Hsf as <-. now apply Hm.
  - intros ->. vm_compute in Hsf. injection Hsf as <-. now apply Hc.
  - intros sf' Hsf'. rewrite Hsf in Hsf'. injection Hsf' as <-. now left.
Qed.

Lemma Config_appendAll ret segs : Config (appendAll ret segs) = Config ret.
Proof.
  destruct segs; [reflexivity|]. unfold appendAll, Config, getString.
  now rewrite setString_other by discriminate.
Qed.

(** After [Init], [Config] holds the path of the config file that was
    looked for: the path given on the command line if there is one, else
    the default location if a file is there, else nothing. *)
Theorem Init_Config w :
  parseError L w = None → typed (parsed L w) →
  Config (Init L w).1 =
  if negb (String.eqb (Config (parsed L w)) "") then Config (parsed L w)
  else match defaultLocation w with
       | inl d => if bool_decide (is_Some (files w !! d)) then d else ""
       | inr _ => ""
       end.
Proof.
  intros Hp Ht.
  assert (H1 : Config (Init L w).1 = Config (withDefaultConfig w (parsed L w))).
  { rewrite (Init_shape w Hp Ht).
    assert (Hm : Config (afterMerge L w).1 = Config (withDefaultConfig w (parsed L w))).
    { unfold afterMerge, resolveConfig. repeat (case_match; cbn [fst]); try reflexivity.
      unfold Config, getString. rewrite applyYAML_skips; [reflexivity|].
      intros sf Hsf. vm_compute in Hsf. injection Hsf as <-. now left. }
    repeat (case_match; cbn [fst]); rewrite ?Config_appendAll; exact Hm. }
  rewrite H1. unfold withDefaultConfig, GetDefaultConfigPath.
  destruct (String.eqb_spec (Config (parsed L w)) "") as [E|]; [|reflexivity].
  cbn [negb]. destruct (defaultLocation w) as [d|err]; [|exact E].
  destruct (files w !! d) as [file|] eqn:Hf.
  - rewrite bool_decide_eq_true_2 by eauto.
    destruct (String.eqb_spec d "") as [->|]; cbn [negb]; [exact E|].
    apply getString_setString. rewrite (typed_length _ Ht). vm_compute. lia.
  - rewrite bool_decide_eq_false_2 by (intros [? ?]; discriminate). exact E.
Qed.

End InitMore.

(** ** [loadYAMLConfig] *)

(** [loadYAMLConfig] returns a struct exactly when the path resolves, the
    file is read and the decoder, started on [Flags{}], returns no error.
    A path that does not resolve and a file that cannot be read are errors
    of their own, apart from "config file not found". *)
Theorem loadYAMLConfig_outcome L w configPath :
  (∀ config, loadYAMLConfig L w configPath = inl config ↔
     ∃ absPath data, GetAbsolutePath w configPath = inl absPath
       ∧ files w !! absPath = Some (inl data)
       ∧ yaml_Unmarshal L data Flags_zero = (config, None))
  ∧ (∀ err, GetAbsolutePath w configPath = inr err →
       loadYAMLConfig L w configPath = inr (fmt_Errorf_w "invalid config path: %w" err))
  ∧ (∀ absPath e, GetAbsolutePath w configPath = inl absPath →
       files w !! absPath = Some (inr e) → e ≠ ENOENT →
       loadYAMLConfig L w configPath
       = inr (fmt_Errorf_w "error reading config file: %w" (PathError "read" absPath e))).
Proof.
  unfold loadYAMLConfig, os_ReadFile. split; [|split].
  - intros config. split.
    + destruct (GetAbsolutePath w configPath) as [absPath|]; [|discriminate].
      destruct (files w !! absPath) as [[data|e]|] eqn:Hf;
        [|cbn; repeat case_match; discriminate..].
      destruct (yaml_Unmarshal L data Flags_zero) as [c [err|]] eqn:Hu; [discriminate|].
      intros H. injection H as <-. eauto.
    + intros (absPath & data & -> & Hf & Hu). cbv beta iota. now rewrite Hf, Hu.
  - now intros err ->.
  - intros absPath e -> Hf He. cbv beta iota. rewrite Hf. now destruct e.
Qed.

(** ** [IsChatRequest] and [o.AppendMessage] *)

Lemma eqb_AppendMessage m s :
  String.eqb (AppendMessage m s) "" = String.eqb m "" && String.eqb s "".
Proof.
  apply eq_true_iff_eq. rewrite andb_true_iff, !String.eqb_eq.
  apply AppendMessage_eq_empty.
Qed.

(** [o.AppendMessage(message)] makes [o] a chat request when [message] is
    not empty, and otherwise leaves it the chat request it was or was
    not. *)
Theorem AppendMessage_chat_request o message :
  typed o →
  IsChatRequest (Flags_AppendMessage o message)
  = IsChatRequest o || negb (String.eqb message "").
Proof.
  intros Ht. unfold IsChatRequest, Flags_AppendMessage.
  rewrite Message_setString by (rewrite (typed_length _ Ht); vm_compute; lia).
  unfold getSlice, getString. rewrite !setString_other by discriminate.
  rewrite eqb_AppendMessage.
  destruct (String.eqb (Message o) ""), (String.eqb message ""); cbn;
    rewrite ?orb_false_r, ?orb_true_r; reflexivity.
Qed.

(** When [Init] succeeds up to the merge and the last leftover token, or
    the text piped in, is not empty, the struct it returns is a chat
    request. *)
Theorem Init_chat_request L w :
  parseError L w = None → (afterMerge L w).2 = None → typed (parsed L w) →
  (∃ a, last (positional L w) = Some a ∧ a ≠ "")
  ∨ (pipedToStdin w = true ∧ errors_Is_EOF (stdin_end w) = true ∧ stdin_data w ≠ "") →
  IsChatRequest (Init L w).1 = true.
Proof.
  intros Hp Hm Ht Hin. rewrite (Init_shape L w Hp Ht), Hm.
  assert (Hne : ∀ segs, (∃ s, s ∈ segs ∧ s ≠ "") →
                        IsChatRequest (appendAll (afterMerge L w).1 segs) = true).
  { intros segs Hs. unfold IsChatRequest.
    rewrite Message_appendAll by now apply typed_afterMerge.
    destruct (String.eqb_spec (foldl AppendMessage (Message (afterMerge L w).1) segs) "")
      as [E|]; [|reflexivity].
    exfalso. revert E. apply foldl_AppendMessage_nonempty. now right. }
  destruct Hin as [(a & Ha & Hne')|(Hpipe & Heof & Hd)].
  - case_match; cbn [fst]; apply Hne; exists a; (split; [|exact Hne']);
      unfold segments; rewrite Ha; change (option_list (Some a)) with [a];
      rewrite ?elem_of_app, list_elem_of_singleton; auto.
  - rewrite Hpipe, Heof. cbn [negb andb fst]. apply Hne.
    exists (stdin_data w). split; [|exact Hd]. unfold segments. rewrite Hpipe.
    rewrite elem_of_app, list_elem_of_singleton. now right.
Qed.

(** ** [filepath.Ext] and [validateImageFile] *)

Lemma rev_app_append s t u : String.rev_app s t +:+ u = String.rev_app s (t +:+ u).
Proof. revert t. induction s as [|c s IH]; intros t; cbn; [reflexivity|apply IH]. Qed.

Lemma rev_cons c s : String.rev (String c s) = String.rev s +:+ String c "".
Proof. unfold String.rev. cbn. now rewrite rev_app_append. Qed.

Lemma rev_append (s t : string) : String.rev (s +:+ t) = String.rev t +:+ String.rev s.
Proof.
  induction s as [|c s IH].
  - cbn. change (String.rev "") with "". now rewrite append_nil_r.
  - change (String c s +:+ t) with (String c (s +:+ t)).
    now rewrite !rev_cons, IH, append_assoc.
Qed.

Lemma rev_involutive (s : string) : String.rev (String.rev s) = s.
Proof.
  induction s as [|c s IH]; [reflexivity|].
  rewrite rev_cons, rev_append, IH. reflexivity.
Qed.

Lemma plainName_app s t : plainName (s +:+ t) = plainName s && plainName t.
Proof.
  induction s as [|c s IH]; cbn; [reflexivity|]. rewrite IH.
  now rewrite !andb_assoc.
Qed.

Lemma plainName_rev s : plainName (String.rev s) = plainName s.
Proof.
  induction s as [|c s IH]; [reflexivity|].
  rewrite rev_cons, plainName_app, IH. cbn. rewrite andb_true_r. apply andb_comm.
Qed.

Lemma noDot_app s t : noDot (s +:+ t) = noDot s && noDot t.
Proof.
  induction s as [|c s IH]; cbn; [reflexivity|]. rewrite IH.
  now rewrite !andb_assoc.
Qed.

Lemma noDot_rev s : noDot (String.rev s) = noDot s.
Proof.
  induction s as [|c s IH]; [reflexivity|].
  rewrite rev_cons, noDot_app, IH. cbn. rewrite andb_true_r. apply andb_comm.
Qed.

Lemma Ext_loop_dot r x suffix :
  plainName r = true →
  filepath.Ext_loop (r +:+ String "." x) suffix = String "." (String.rev r +:+ suffix).
Proof.
  revert suffix. induction r as [|c r IH]; intros suffix H.
  - reflexivity.
  - cbn in H. apply andb_true_iff in H as [H H3]. apply andb_true_iff in H as [H1 H2].
    apply negb_true_iff in H1, H2. rewrite rev_cons, append_assoc.
    change (String c r +:+ String "." x) with (String c (r +:+ String "." x)).
    cbn [filepath.Ext_loop]. rewrite H1, H2. now apply IH.
Qed.

Lemma Ext_loop_noDot r suffix : noDot r = true → filepath.Ext_loop r suffix = "".
Proof.
  revert suffix. induction r as [|c r IH]; intros suffix H; cbn; [reflexivity|].
  cbn in H. apply andb_true_iff in H as [H1 H2]. apply negb_true_iff in H1.
  rewrite H1. destruct (Ascii.eqb c "/"); [reflexivity|]. now apply IH.
Qed.

(** The extension [filepath.Ext] returns starts at the last dot of the
    last element of the path: after a name without dot or separator it is
    that name with its dot, whatever stands before. *)
Lemma Ext_plain p e : plainName e = true → filepath.Ext (p +:+ "." +:+ e) = "." +:+ e.
Proof.
  intros H. unfold filepath.Ext.
  change ("." +:+ e) with (String "." e). rewrite rev_append, rev_cons, append_assoc.
  change (String "." "" +:+ String.rev p) with (String "." (String.rev p)).
  rewrite Ext_loop_dot by now rewrite plainName_rev.
  now rewrite rev_involutive, append_nil_r.
Qed.

Lemma among_elem s l : among s l = true ↔ s ∈ l.
Proof.
  unfold among. rewrite existsb_exists, list_elem_of_In. split.
  - intros (x & Hx & E). now apply String.eqb_eq in E as ->.
  - intros H. exists s. split; [exact H|apply String.eqb_refl].
Qed.

Lemma lowerASCII_isASCII_dot e :
  isASCII e = true → ∀ E, strings_ToLower E ("." +:+ e) = "." +:+ lowerASCII e.
Proof. intros H E. unfold strings_ToLower. cbn. now rewrite H. Qed.

Lemma eqb_cons c s t : String.eqb (String c s) (String c t) = String.eqb s t.
Proof. cbn. now rewrite Ascii.eqb_refl. Qed.

(** For a path that ends in a dot and a name, [validateImageFile] accepts
    exactly when no file is there and the name is one of the four
    formats, in upper or lower case. *)
Theorem validateImageFile_extension E p e :
  plainName e = true → isASCII e = true →
  validateImageFile E (p +:+ "." +:+ e) = None
  ↔ os_Stat E (p +:+ "." +:+ e) = false
    ∧ lowerASCII e ∈ ["png"; "jpeg"; "jpg"; "webp"].
Proof.
  intros Hplain Hascii. unfold validateImageFile.
  replace (String.eqb (p +:+ "." +:+ e) "") with false by now destruct p.
  rewrite Ext_plain by exact Hplain. rewrite lowerASCII_isASCII_dot by exact Hascii.
  rewrite <- among_elem. cbv zeta. cbn [among existsb String.append].
  rewrite !eqb_cons. destruct (os_Stat E _); [split; [discriminate|now intros [? _]]|].
  destruct (_ || _); split; try done. now intros [_ ?].
Qed.

(** A path without any dot is never accepted: its extension is empty. *)
Theorem validateImageFile_no_extension E imagePath :
  imagePath ≠ "" → noDot imagePath = true → os_Stat E imagePath = false →
  validateImageFile E imagePath = Some (InvalidExtension "").
Proof.
  intros Hne Hdot Hstat. unfold validateImageFile.
  destruct (String.eqb_spec imagePath ""); [done|]. rewrite Hstat.
  unfold filepath.Ext. rewrite Ext_loop_noDot by now rewrite noDot_rev.
  reflexivity.
Qed.

Lemma validateImageFile_passes E imagePath :
  validateImageFile E imagePath = None →
  imagePath = ""
  ∨ (os_Stat E imagePath = false
     ∧ strings_ToLower E (filepath.Ext imagePath) ∈ [".png"; ".jpeg"; ".jpg"; ".webp"]).
Proof.
  unfold validateImageFile. destruct (String.eqb_spec imagePath ""); [now left|].
  destruct (os_Stat E imagePath); [discriminate|]. cbv zeta.
  destruct (among _ _) eqn:Ha; [|discriminate]. intros _. right.
  split; [reflexivity|]. now apply among_elem.
Qed.

(** ** [validateImageParameters] *)

Lemma guard_among s l :
  negb (String.eqb s "") && negb (among s l) = false ↔ s ∈ "" :: l.
Proof.
  rewrite elem_of_cons, <- among_elem.
  destruct (String.eqb_spec s ""), (among s l); cbn; intuition congruence.
Qed.

Lemma guard_format compression ext :
  negb (compression =? 0)
  && (negb (String.eqb ext ".jpg") && negb (String.eqb ext ".jpeg")
      && negb (String.eqb ext ".webp")) = false
  ↔ (compression ≠ 0 → ext ∈ [".jpg"; ".jpeg"; ".webp"]).
Proof.
  rewrite <- among_elem. cbn [among existsb].
  destruct (Z.eqb_spec compression 0), (String.eqb ext ".jpg"),
    (String.eqb ext ".jpeg"), (String.eqb ext ".webp"); cbn; intuition congruence.
Qed.

Lemma guard_range compression :
  negb (compression =? 0) && ((compression <? 0) || (100 <? compression)) = false
  ↔ 0 <= compression <= 100.
Proof.
  destruct (Z.eqb_spec compression 0), (Z.ltb_spec compression 0),
    (Z.ltb_spec 100 compression); cbn; split; (lia || discriminate || reflexivity).
Qed.

Lemma guard_transparent background ext :
  String.eqb background "transparent"
  && (negb (String.eqb ext ".png") && negb (String.eqb ext ".webp")) = false
  ↔ (background = "transparent" → ext ∈ [".png"; ".webp"]).
Proof.
  rewrite <- among_elem. cbn [among existsb].
  destruct (String.eqb_spec background "transparent"), (String.eqb ext ".png"),
    (String.eqb ext ".webp"); cbn; intuition congruence.
Qed.

Lemma validateImageParameters_passes E imagePath size quality background compression :
  validateImageParameters E imagePath size quality background compression = None ↔
  (imagePath = "" ∧ size = "" ∧ quality = "" ∧ background = "" ∧ compression = 0)
  ∨ (imagePath ≠ ""
     ∧ size ∈ [""; "1024x1024"; "1536x1024"; "1024x1536"; "auto"]
     ∧ quality ∈ [""; "low"; "medium"; "high"; "auto"]
     ∧ background ∈ [""; "opaque"; "transparent"]
     ∧ (compression ≠ 0 →
        strings_ToLower E (filepath.Ext imagePath) ∈ [".jpg"; ".jpeg"; ".webp"])
     ∧ 0 <= compression <= 100
     ∧ (background = "transparent" →
        strings_ToLower E (filepath.Ext imagePath) ∈ [".png"; ".webp"])).
Proof.
  rewrite <- !guard_among, <- guard_format, <- guard_range, <- guard_transparent.
  unfold validateImageParameters. cbv zeta.
  destruct (String.eqb_spec imagePath "") as [Hp|Hp].
  - destruct (String.eqb_spec size ""), (String.eqb_spec quality ""),
      (String.eqb_spec background ""), (Z.eqb_spec compression 0); cbn;
      intuition congruence.
  - repeat match goal with
           | |- context [if ?b then _ else _] => destruct b
           end; intuition congruence.
Qed.

(** [validateImageParameters] accepts exactly these settings: without an
    image file none of the four options; with one, a size, quality and
    background that is unset or among the supported ones, a compression
    from 1 to 100 only for a JPEG or WebP file, and a transparent
    background only for a PNG or WebP file. *)
Theorem validateImageParameters_accepts E imagePath size quality background compression :
  validateImageParameters E imagePath size quality background compression = None ↔
  if String.eqb imagePath "" then
    size = "" ∧ quality = "" ∧ background = "" ∧ compression = 0
  else
    size ∈ [""; "1024x1024"; "1536x1024"; "1024x1536"; "auto"]
    ∧ quality ∈ [""; "low"; "medium"; "high"; "auto"]
    ∧ background ∈ [""; "opaque"; "transparent"]
    ∧ (compression ≠ 0 →
       strings_ToLower E (filepath.Ext imagePath) ∈ [".jpg"; ".jpeg"; ".webp"]
       ∧ 1 <= compression <= 100)
    ∧ (background = "transparent" →
       strings_ToLower E (filepath.Ext imagePath) ∈ [".png"; ".webp"]).
Proof.
  rewrite validateImageParameters_passes.
  destruct (String.eqb_spec imagePath "") as [Hp|Hp].
  - intuition congruence.
  - split.
    + intros [[? _]|(_ & ? & ? & ? & ? & ? & ?)]; [done|].
      repeat split; try assumption; try lia; auto.
    + intros (? & ? & ? & Hc & ?). right. repeat split; try assumption.
      * intros Hne. now apply Hc.
      * destruct (Z.eq_dec compression 0); [lia|]. apply Hc in n. lia.
      * destruct (Z.eq_dec compression 0); [lia|]. apply Hc in n. lia.
Qed.

(** Compression and a transparent background are accepted together only
    for a WebP file, and nothing outside 0 to 100 is accepted as
    compression. *)
Theorem compression_with_transparency E imagePath size quality compression :
  validateImageParameters E imagePath size quality "transparent" compression = None →
  0 <= compression <= 100
  ∧ (compression ≠ 0 → strings_ToLower E (filepath.Ext imagePath) = ".webp").
Proof.
  intros H. apply validateImageParameters_passes in H
    as [(_ & _ & _ & ? & _)|(_ & _ & _ & _ & Hc & Hr & Ht)]; [done|].
  split; [exact Hr|]. intros Hne. specialize (Hc Hne). specialize (Ht eq_refl).
  rewrite <- among_elem in Hc, Ht. cbn [among existsb] in Hc, Ht.
  destruct (String.eqb_spec (strings_ToLower E (filepath.Ext imagePath)) ".webp")
    as [->|Hw]; [reflexivity|].
  destruct (String.eqb_spec (strings_ToLower E (filepath.Ext imagePath)) ".png")
    as [E1|_]; [|discriminate].
  rewrite E1 in Hc. discriminate.
Qed.

(** ** [BuildChatOptions] *)

Lemma BuildChatOptions_inl E o opts :
  BuildChatOptions E o = inl opts →
  validateImageFile E (getString o "ImageFile") = None
  ∧ validateImageParameters E (getString o "ImageFile") (getString o "ImageSize")
      (getString o "ImageQuality") (getString o "ImageBackground")
      (getInt o "ImageCompression") = None
  ∧ domain.ImageFile opts = getString o "ImageFile"
  ∧ domain.ImageSize opts = getString o "ImageSize"
  ∧ domain.ImageQuality opts = getString o "ImageQuality"
  ∧ domain.ImageBackground opts = getString o "ImageBackground"
  ∧ domain.ImageCompression opts = getInt o "ImageCompression"
  ∧ domain.ThinkStartTag opts
    = (if String.eqb (getString o "ThinkStartTag") "" then "<think>"
       else getString o "ThinkStartTag")
  ∧ domain.ThinkEndTag opts
    = (if String.eqb (getString o "ThinkEndTag") "" then "</think>"
       else getString o "ThinkEndTag").
Proof.
  unfold BuildChatOptions.
  destruct (validateImageFile E _); [discriminate|].
  destruct (validateImageParameters E _ _ _ _ _); [discriminate|].
  intros H. injection H as <-. repeat split; reflexivity.
Qed.

(** The options [BuildChatOptions] returns are checked: the think tags
    are not empty, the compression is between 0 and 100, the image
    options are unset when there is no image file, and otherwise no file
    is at its path and its extension is one of the four formats. *)
Theorem BuildChatOptions_checked E o opts :
  BuildChatOptions E o = inl opts →
  domain.ThinkStartTag opts ≠ "" ∧ domain.ThinkEndTag opts ≠ ""
  ∧ 0 <= domain.ImageCompression opts <= 100
  ∧ (domain.ImageFile opts = "" →
     domain.ImageSize opts = "" ∧ domain.ImageQuality opts = ""
     ∧ domain.ImageBackground opts = "" ∧ domain.ImageCompression opts = 0)
  ∧ (domain.ImageFile opts ≠ "" →
     os_Stat E (domain.ImageFile opts) = false
     ∧ strings_ToLower E (filepath.Ext (domain.ImageFile opts))
       ∈ [".png"; ".jpeg"; ".jpg"; ".webp"]).
Proof.
  intros H. apply BuildChatOptions_inl in H
    as (Hf & Hp & -> & -> & -> & -> & -> & -> & ->).
  split; [destruct (String.eqb_spec (getString o "ThinkStartTag") ""); [discriminate|assumption]|].
  split; [destruct (String.eqb_spec (getString o "ThinkEndTag") ""); [discriminate|assumption]|].
  apply validateImageFile_passes in Hf. apply validateImageParameters_passes in Hp.
  split; [|split].
  - destruct Hp as [(_ & _ & _ & _ & ->)|(_ & _ & _ & _ & _ & ? & _)]; [lia|assumption].
  - intros Hi. destruct Hp as [(_ & ? & ? & ? & ?)|(? & _)]; [auto|contradiction].
  - intros Hi. destruct Hf as [?|?]; [contradiction|assumption].
Qed.

(** An error of [BuildChatOptions] about the format names the one format
    that is left: compression is refused only for a PNG file, and a
    transparent background only for a JPEG file. *)
Theorem BuildChatOptions_format_error E o err :
  BuildChatOptions E o = inr err →
  match err with
  | CompressionFormat ext => ext = ".png"
  | TransparentFormat ext => ext = ".jpeg" ∨ ext = ".jpg"
  | CompressionRange compression =>
      compression = getInt o "ImageCompression" ∧ (compression < 0 ∨ 100 < compression)
  | ParametersWithoutFile => getString o "ImageFile" = ""
  | _ => getString o "ImageFile" ≠ ""
  end.
Proof.
  unfold BuildChatOptions.
  destruct (validateImageFile E (getString o "ImageFile")) as [e|] eqn:Hf.
  - intros H. injection H as <-. unfold validateImageFile in Hf.
    destruct (String.eqb_spec (getString o "ImageFile") ""); [discriminate|].
    repeat case_match; simplify_eq; assumption.
  - apply validateImageFile_passes in Hf.
    destruct (validateImageParameters E _ _ _ _ _) as [e|] eqn:Hp; [|discriminate].
    intros H. injection H as <-. unfold validateImageParameters in Hp.
    destruct (String.eqb_spec (getString o "ImageFile") "") as [Hi|Hi].
    + repeat case_match; simplify_eq; assumption.
    + destruct Hf as [?|[_ Hext]]; [done|]. cbv zeta in Hp.
      rewrite <- among_elem in Hext. cbn [among existsb] in Hext.
      repeat match type of Hp with
             | (if ?b then _ else _) = _ => destruct b eqn:?
             end; simplify_eq; try assumption.
      * repeat match goal with
               | Hg : _ && _ = true |- _ => apply andb_true_iff in Hg as [? ?]
               | Hg : negb _ = true |- _ => apply negb_true_iff in Hg
               end.
        repeat match goal with
               | Hg : String.eqb ?a ?b = false |- _ => rewrite Hg in Hext
               end.
        cbn in Hext. rewrite orb_false_r in Hext. now apply String.eqb_eq.
      * split; [reflexivity|].
        repeat match goal with
               | Hg : _ && _ = true |- _ => apply andb_true_iff in Hg as [? ?]
               end.
        match goal with
        | Hg : _ || _ = true |- _ => apply orb_true_iff in Hg as [Hg|Hg]
        end; lia.
      * repeat match goal with
               | Hg : _ && _ = true |- _ => apply andb_true_iff in Hg as [? ?]
               | Hg : negb _ = true |- _ => apply negb_true_iff in Hg
               end.
        repeat match goal with
               | Hg : String.eqb ?a ?b = false |- _ => rewrite Hg in Hext
               end.
        cbn in Hext. apply orb_true_iff in Hext as [Hext|Hext].
        -- left. now apply String.eqb_eq.
        -- right. rewrite orb_false_r in Hext. now apply String.eqb_eq.
Qed.

(** ** [BuildChatRequest] *)

Lemma attachAll_inl E attachments MultiContent parts :
  attachAll E attachments MultiContent = inl parts →
  Forall (attaches E) attachments
  ∧ ∃ urls, parts = MultiContent ++ (imagePart <$> urls)
            ∧ length urls = length attachments.
Proof.
  revert MultiContent. induction attachments as [|a l IH]; intros M; cbn.
  - intros H. injection H as <-. split; [constructor|].
    exists []. now rewrite app_nil_r.
  - destruct (domain_NewAttachment E a) as [attachment|] eqn:Ha; [|discriminate].
    destruct (attachmentURL attachment) as [url|] eqn:Hu; [|discriminate].
    intros H. apply IH in H as (Hl & urls & -> & Hlen). split.
    + constructor; [|exact Hl]. now exists attachment, url.
    + exists (url :: urls). cbn. rewrite <- app_assoc, Hlen. now split.
Qed.

Lemma attachAll_inr E attachments MultiContent err :
  attachAll E attachments MultiContent = inr err → ¬ Forall (attaches E) attachments.
Proof.
  revert MultiContent. induction attachments as [|a l IH]; intros M; cbn; [discriminate|].
  intros H Hall. apply Forall_cons in Hall as [(attachment & url & Ha & Hu) Hl].
  rewrite Ha, Hu in H. now apply IH in H.
Qed.

Lemma BuildChatRequest_attachments E o Meta a l :
  getSlice o "Attachments" = a :: l →
  BuildChatRequest E o Meta =
  match attachAll E (a :: l)
          (if negb (String.eqb (Message o) "")
           then [textPart (strings_TrimSpace E (Message o))] else []) with
  | inr err => ((BuildChatRequest E o Meta).1, Some err)
  | inl parts => ((BuildChatRequest E o Meta).1, None)
  end.
Proof.
  intros Hs. unfold BuildChatRequest. rewrite Hs.
  change (0 <? Z.of_nat (length (a :: l))) with true. cbv beta iota zeta.
  destruct (attachAll E (a :: l) _); reflexivity.
Qed.

Lemma BuildChatRequest_plain E o Meta :
  getSlice o "Attachments" = [] →
  (BuildChatRequest E o Meta).2 = None
  ∧ request.Message (BuildChatRequest E o Meta).1 =
    if negb (String.eqb (Message o) "")
    then Some {| chat.Role_ := Some chat.ChatMessageRoleUser;
                 chat.Content := strings_TrimSpace E (Message o);
                 chat.MultiContent := [] |}
    else None.
Proof.
  intros Hs. unfold BuildChatRequest. rewrite Hs.
  change (0 <? Z.of_nat (length [])) with false. cbv beta iota zeta.
  destruct (negb (String.eqb (Message o) "")); split; reflexivity.
Qed.

(** [BuildChatRequest] fails exactly when one of the attachments cannot be
    made into a URL; neither the message nor the language makes it
    fail. *)
Theorem BuildChatRequest_fails E o Meta :
  (BuildChatRequest E o Meta).2 = None ↔ Forall (attaches E) (getSlice o "Attachments").
Proof.
  destruct (getSlice o "Attachments") as [|a l] eqn:Hs.
  - split; [constructor|]. intros _. now apply BuildChatRequest_plain.
  - rewrite (BuildChatRequest_attachments E o Meta a l Hs).
    destruct (attachAll E (a :: l) _) as [parts|err] eqn:Ha; cbn [snd].
    + apply attachAll_inl in Ha as [Hall _]. split; [intros _; exact Hall|reflexivity].
    + apply attachAll_inr in Ha. split; [discriminate|intros Hall; contradiction].
Qed.

Lemma attachmentURL_inl attachment url :
  attachmentURL attachment = inl url →
  match domain.URL attachment with
  | Some u => url = u
  | None =>
      ∃ base64Image mimeType,
        domain.Base64Content attachment = inl base64Image
        ∧ domain.ResolveType attachment = inl mimeType
        ∧ url = "data:" +:+ mimeType +:+ ";base64," +:+ base64Image
  end.
Proof.
  unfold attachmentURL. destruct (domain.URL attachment) as [u|].
  - intros H. now injection H as <-.
  - destruct (domain.Base64Content attachment) as [base64Image|]; [|discriminate].
    destruct (domain.ResolveType attachment) as [mimeType|]; [|discriminate].
    intros H. injection H as <-. now exists base64Image, mimeType.
Qed.

Lemma attachAll_urls E attachments MultiContent parts :
  attachAll E attachments MultiContent = inl parts →
  ∃ urls, parts = MultiContent ++ (imagePart <$> urls)
          ∧ Forall2 (sent_as E) attachments urls.
Proof.
  revert MultiContent. induction attachments as [|a l IH]; intros M; cbn.
  - intros H. injection H as <-. exists []. split; [now rewrite app_nil_r|constructor].
  - destruct (domain_NewAttachment E a) as [attachment|] eqn:Ha; [|discriminate].
    destruct (attachmentURL attachment) as [url|] eqn:Hu; [|discriminate].
    intros H. apply IH in H as (urls & -> & Hl).
    exists (url :: urls). split; [cbn; now rewrite <- app_assoc|].
    constructor; [|exact Hl]. exists attachment. split; [exact Ha|].
    now apply attachmentURL_inl.
Qed.

(** With attachments, the message of the request is of the user and has
    no [Content]: its parts are the trimmed text, if the message is not
    empty, and then for each attachment, in their order, an image part
    with the URL the attachment has or, if it has none, the data URL of
    its type and content. *)
Theorem BuildChatRequest_parts E o Meta ret :
  BuildChatRequest E o Meta = (ret, None) → getSlice o "Attachments" ≠ [] →
  ∃ message urls,
    request.Message ret = Some message
    ∧ chat.Role_ message = Some chat.ChatMessageRoleUser
    ∧ chat.Content message = ""
    ∧ chat.MultiContent message
      = (if String.eqb (Message o) "" then []
         else [{| chat.Type_ := Some chat.ChatMessagePartTypeText;
                  chat.Text := strings_TrimSpace E (Message o);
                  chat.ImageURL := None |}])
        ++ ((λ url, {| chat.Type_ := Some chat.ChatMessagePartTypeImageURL;
                       chat.Text := "";
                       chat.ImageURL := Some url |}) <$> urls)
    ∧ Forall2 (sent_as E) (getSlice o "Attachments") urls
    ∧ length urls = length (getSlice o "Attachments").
Proof.
  unfold BuildChatRequest. intros H Hne.
  destruct (getSlice o "Attachments") as [|a l] eqn:Hs; [contradiction|].
  change (0 <? Z.of_nat (length (a :: l))) with true in H.
  cbv beta iota zeta in H.
  destruct (attachAll E (a :: l) _) as [parts|err] eqn:Ha; [|discriminate H].
  apply attachAll_urls in Ha as (urls & -> & Hurls).
  injection H as <-. eexists _, urls.
  cbn [request.Message chat.Role_ chat.Content chat.MultiContent].
  split; [reflexivity|]. split; [reflexivity|]. split; [reflexivity|].
  split; [|split; [exact Hurls|symmetry; eapply Forall2_length, Hurls]].
  destruct (String.eqb (Message o) ""); reflexivity.
Qed.

(** For a struct that is no chat request, [BuildChatRequest] returns a
    request without message, context, session and pattern, and no
    error. *)
Theorem BuildChatRequest_no_chat E o Meta :
  IsChatRequest o = false →
  (BuildChatRequest E o Meta).2 = None
  ∧ request.Message (BuildChatRequest E o Meta).1 = None
  ∧ request.ContextName (BuildChatRequest E o Meta).1 = ""
  ∧ request.SessionName (BuildChatRequest E o Meta).1 = ""
  ∧ request.PatternName (BuildChatRequest E o Meta).1 = "".
Proof.
  unfold IsChatRequest. intros H.
  apply orb_false_iff in H as [H Hp]. apply orb_false_iff in H as [H Hs].
  apply orb_false_iff in H as [H Hc]. apply orb_false_iff in H as [Hm Ha].
  apply negb_false_iff, String.eqb_eq in Hp, Hs, Hc.
  assert (Hl : getSlice o "Attachments" = []).
  { destruct (getSlice o "Attachments"); [reflexivity|discriminate Ha]. }
  destruct (BuildChatRequest_plain E o Meta Hl) as [He Hmsg].
  rewrite Hm in Hmsg. split; [exact He|]. split; [exact Hmsg|].
  unfold BuildChatRequest. rewrite Hl.
  change (0 <? Z.of_nat (length [])) with false. cbv beta iota zeta. rewrite Hm.
  cbv beta iota. cbn [fst request.ContextName request.SessionName request.PatternName].
  repeat split; assumption.
Qed.

(** ** Runs of the properties above *)

Lemma Ref_ParseInt_range s z : Ref.ParseInt s = Some z → - 2 ^ 63 <= z < 2 ^ 63.
Proof.
  unfold Ref.ParseInt. destruct (Ref.integer s) as [z'|]; [|discriminate].
  cbn [mbind option_bind].
  destruct (Z.leb_spec (- 2 ^ 63) z') as [Hlo|Hlo], (Z.ltb_spec z' (2 ^ 63)) as [Hhi|Hhi];
    cbn [andb]; try discriminate.
  intros Hz. injection Hz as <-. lia.
Qed.

Lemma dashes_not_distinguished_witness :
  ("model" ≠ "" ∧ strings.HasPrefix "model" "-" = false)
  ∧ extractFlag ("-" +:+ "model") = extractFlag ("--" +:+ "model")
  ∧ scanArg ∅ ("-" +:+ "model") = scanArg ∅ ("--" +:+ "model").
Proof.
  assert (H1 : "model" ≠ "") by discriminate.
  assert (H2 : strings.HasPrefix "model" "-" = false) by reflexivity.
  exact (conj (conj H1 H2) (dashes_not_distinguished "model" ∅ H1 H2)).
Defined.

Lemma scanArgs_set_witness :
  (∀ tok, tok ∈ ["-m"; "x"; "-m"] ↔ tok ∈ ["x"; "-m"])
  ∧ scanArgs ["-m"; "x"; "-m"] = scanArgs ["x"; "-m"].
Proof.
  assert (H : ∀ tok : string, tok ∈ ["-m"; "x"; "-m"] ↔ tok ∈ ["x"; "-m"]).
  { intros tok. rewrite !elem_of_cons, !elem_of_nil. tauto. }
  exact (conj H (scanArgs_set ["-m"; "x"; "-m"] ["x"; "-m"] H)).
Defined.

Lemma converted_int_range_witness :
  ((∀ s z, strconv_ParseInt Ref.lib s = Some z → - 2 ^ 63 <= z < 2 ^ 63)
   ∧ assignWithConversion Ref.lib (VInt 0) (VString "42") = (VInt 42, None))
  ∧ - 2 ^ 63 <= 42 < 2 ^ 63.
Proof.
  assert (H1 : ∀ s z, strconv_ParseInt Ref.lib s = Some z → - 2 ^ 63 <= z < 2 ^ 63)
    by exact Ref_ParseInt_range.
  assert (H2 : assignWithConversion Ref.lib (VInt 0) (VString "42") = (VInt 42, None))
    by (vm_compute; reflexivity).
  exact (conj (conj H1 H2) (converted_int_range Ref.lib 0 "42" 42 H1 H2)).
Defined.

Lemma applyYAML_all_used_witness :
  let usedFlags := scanArgs SampleEnv.all_options in
  let yamlVal := (Ref.Unmarshal (line "temperature: 0.9") Flags_zero).1 in
  let ret := parsed Ref.lib w_terminal in
  (∀ sf, sf ∈ FlagsType → yaml sf ≠ "" → used usedFlags (yaml sf) = true)
  ∧ applyYAML Ref.lib usedFlags yamlVal ret = ret.
Proof.
  intros usedFlags yamlVal ret.
  assert (H : ∀ sf, sf ∈ FlagsType → yaml sf ≠ "" → used usedFlags (yaml sf) = true).
  { apply (proj1 (Forall_forall
                    (λ sf, yaml sf ≠ "" → used usedFlags (yaml sf) = true) FlagsType)).
    apply (bool_decide_unpack _). vm_compute. exact I. }
  exact (conj H (applyYAML_all_used Ref.lib usedFlags yamlVal ret H)).
Defined.

Lemma AppendMessage_assoc_witness :
  "b" ≠ ""
  ∧ AppendMessage (AppendMessage "a" "b") "c" = AppendMessage "a" (AppendMessage "b" "c")
  ∧ ("a" ≠ "" → AppendMessage (AppendMessage "a" "") "c" = "a" +:+ nl +:+ nl +:+ "c").
Proof.
  assert (H : "b" ≠ "") by discriminate.
  exact (conj H (AppendMessage_assoc "a" "b" "c" H)).
Defined.

Lemma Init_typed_witness :
  typed (parsed Ref.lib w_seed_text) ∧ typed (Init Ref.lib w_seed_text).1.
Proof.
  assert (H : typed (parsed Ref.lib w_seed_text)) by (vm_compute; reflexivity).
  exact (conj H (Init_typed Ref.lib w_seed_text H)).
Defined.

Lemma Init_Message_witness :
  let w := SampleEnv.w_message in
  typed (parsed Ref.lib w)
  ∧ ((∃ yamlFlags, loadYAMLConfig Ref.lib w "/c.yaml" = inl yamlFlags
                    ∧ Message yamlFlags = "from the file")
     ∧ Message (Init Ref.lib w).1 = "b" +:+ nl +:+ line "line1" +:+ "line2")
  ∧ Message (afterMerge Ref.lib w).1 = Message (parsed Ref.lib w)
  ∧ Message (Init Ref.lib w).1 =
    foldl AppendMessage (Message (parsed Ref.lib w))
      (match parseError Ref.lib w, (afterMerge Ref.lib w).2 with
       | None, None =>
           if pipedToStdin w && negb (errors_Is_EOF (stdin_end w))
           then option_list (last (positional Ref.lib w))
           else segments w (positional Ref.lib w)
       | _, _ => []
       end).
Proof.
  intros w.
  assert (H : typed (parsed Ref.lib w)) by (vm_compute; reflexivity).
  split; [exact H|]. split.
  - split; [eexists; split; vm_compute; reflexivity|vm_compute; reflexivity].
  - exact (Init_Message Ref.lib w H).
Defined.

Lemma Init_keeps_cli_only_witness :
  (FlagsType !! 2%nat = Some (fieldAt 2) ∧ yaml (fieldAt 2) = ""
   ∧ Name (fieldAt 2) ≠ "Message" ∧ Name (fieldAt 2) ≠ "Config")
  ∧ (Init Ref.lib w_seed_number).1 !! 2%nat = parsed Ref.lib w_seed_number !! 2%nat.
Proof.
  assert (H1 : FlagsType !! 2%nat = Some (fieldAt 2)) by reflexivity.
  assert (H2 : yaml (fieldAt 2) = "") by reflexivity.
  assert (H3 : Name (fieldAt 2) ≠ "Message") by discriminate.
  assert (H4 : Name (fieldAt 2) ≠ "Config") by discriminate.
  split; [tauto|].
  exact (Init_keeps_cli_only Ref.lib w_seed_number 2 (fieldAt 2) H1 H2 H3 H4).
Defined.

Lemma Init_Config_witness :
  let w := w_seed_number in
  (parseError Ref.lib w = None ∧ typed (parsed Ref.lib w))
  ∧ Config (Init Ref.lib w).1 =
    if negb (String.eqb (Config (parsed Ref.lib w)) "") then Config (parsed Ref.lib w)
    else match defaultLocation w with
         | inl d => if bool_decide (is_Some (files w !! d)) then d else ""
         | inr _ => ""
         end.
Proof.
  intros w.
  assert (H1 : parseError Ref.lib w = None) by reflexivity.
  assert (H2 : typed (parsed Ref.lib w)) by (vm_compute; reflexivity).
  exact (conj (conj H1 H2) (Init_Config Ref.lib w H1 H2)).
Defined.

Lemma AppendMessage_chat_request_witness :
  typed Flags_zero
  ∧ IsChatRequest (Flags_AppendMessage Flags_zero "hello")
    = IsChatRequest Flags_zero || negb (String.eqb "hello" "").
Proof.
  assert (H : typed Flags_zero) by (vm_compute; reflexivity).
  exact (conj H (AppendMessage_chat_request Flags_zero "hello" H)).
Defined.

Lemma Init_chat_request_witness :
  let w := w_piped_args in
  (parseError Ref.lib w = None ∧ (afterMerge Ref.lib w).2 = None
   ∧ typed (parsed Ref.lib w)
   ∧ ((∃ a, last (positional Ref.lib w) = Some a ∧ a ≠ "")
      ∨ (pipedToStdin w = true ∧ errors_Is_EOF (stdin_end w) = true
         ∧ stdin_data w ≠ "")))
  ∧ IsChatRequest (Init Ref.lib w).1 = true.
Proof.
  intros w.
  assert (H1 : parseError Ref.lib w = None) by reflexivity.
  assert (H2 : (afterMerge Ref.lib w).2 = None) by (vm_compute; reflexivity).
  assert (H3 : typed (parsed Ref.lib w)) by (vm_compute; reflexivity).
  assert (H4 : (∃ a, last (positional Ref.lib w) = Some a ∧ a ≠ "")
               ∨ (pipedToStdin w = true ∧ errors_Is_EOF (stdin_end w) = true
                  ∧ stdin_data w ≠ "")).
  { left. exists "b". split; [vm_compute; reflexivity|discriminate]. }
  split; [tauto|]. exact (Init_chat_request Ref.lib w H1 H2 H3 H4).
Defined.

Lemma validateImageFile_extension_witness :
  (plainName "PNG" = true ∧ isASCII "PNG" = true)
  ∧ (validateImageFile SampleEnv.env ("out" +:+ "." +:+ "PNG") = None
     ↔ os_Stat SampleEnv.env ("out" +:+ "." +:+ "PNG") = false
       ∧ lowerASCII "PNG" ∈ ["png"; "jpeg"; "jpg"; "webp"]).
Proof.
  assert (H1 : plainName "PNG" = true) by reflexivity.
  assert (H2 : isASCII "PNG" = true) by reflexivity.
  exact (conj (conj H1 H2) (validateImageFile_extension SampleEnv.env "out" "PNG" H1 H2)).
Defined.

Lemma validateImageFile_no_extension_witness :
  ("picture" ≠ "" ∧ noDot "picture" = true ∧ os_Stat SampleEnv.env "picture" = false)
  ∧ validateImageFile SampleEnv.env "picture" = Some (InvalidExtension "").
Proof.
  assert (H1 : "picture" ≠ "") by discriminate.
  assert (H2 : noDot "picture" = true) by reflexivity.
  assert (H3 : os_Stat SampleEnv.env "picture" = false) by reflexivity.
  split; [tauto|].
  exact (validateImageFile_no_extension SampleEnv.env "picture" H1 H2 H3).
Defined.

Lemma compression_with_transparency_witness :
  validateImageParameters SampleEnv.env "a.webp" "" "high" "transparent" 80 = None
  ∧ 0 <= 80 <= 100
  ∧ (80 ≠ 0 → strings_ToLower SampleEnv.env (filepath.Ext "a.webp") = ".webp").
Proof.
  assert (H : validateImageParameters SampleEnv.env "a.webp" "" "high" "transparent" 80
              = None) by (vm_compute; reflexivity).
  exact (conj H (compression_with_transparency SampleEnv.env "a.webp" "" "high" 80 H)).
Defined.

Lemma BuildChatOptions_checked_witness :
  ∃ opts, BuildChatOptions SampleEnv.env SampleEnv.o_webp = inl opts
    ∧ domain.ThinkStartTag opts ≠ "" ∧ domain.ThinkEndTag opts ≠ ""
    ∧ 0 <= domain.ImageCompression opts <= 100
    ∧ (domain.ImageFile opts = "" →
       domain.ImageSize opts = "" ∧ domain.ImageQuality opts = ""
       ∧ domain.ImageBackground opts = "" ∧ domain.ImageCompression opts = 0)
    ∧ (domain.ImageFile opts ≠ "" →
       os_Stat SampleEnv.env (domain.ImageFile opts) = false
       ∧ strings_ToLower SampleEnv.env (filepath.Ext (domain.ImageFile opts))
         ∈ [".png"; ".jpeg"; ".jpg"; ".webp"]).
Proof.
  eexists. refine ((λ H, conj H (BuildChatOptions_checked SampleEnv.env SampleEnv.o_webp _ H)) _).
  vm_compute. reflexivity.
Defined.

Lemma BuildChatOptions_format_error_witness :
  BuildChatOptions SampleEnv.env SampleEnv.o_png = inr (CompressionFormat ".png")
  ∧ ".png" = ".png".
Proof.
  assert (H : BuildChatOptions SampleEnv.env SampleEnv.o_png
              = inr (CompressionFormat ".png")) by (vm_compute; reflexivity).
  exact (conj H (BuildChatOptions_format_error SampleEnv.env SampleEnv.o_png _ H)).
Defined.

Lemma BuildChatRequest_parts_witness :
  let o := SampleEnv.o_attachments in
  ∃ ret, (BuildChatRequest SampleEnv.env o "" = (ret, None)
          ∧ getSlice o "Attachments" ≠ [])
    ∧ ∃ message urls,
        request.Message ret = Some message
        ∧ chat.Role_ message = Some chat.ChatMessageRoleUser
        ∧ chat.Content message = ""
        ∧ chat.MultiContent message
          = (if String.eqb (Message o) "" then []
             else [{| chat.Type_ := Some chat.ChatMessagePartTypeText;
                      chat.Text := strings_TrimSpace SampleEnv.env (Message o);
                      chat.ImageURL := None |}])
            ++ ((λ url, {| chat.Type_ := Some chat.ChatMessagePartTypeImageURL;
                           chat.Text := "";
                           chat.ImageURL := Some url |}) <$> urls)
        ∧ Forall2 (sent_as SampleEnv.env) (getSlice o "Attachments") urls
        ∧ length urls = length (getSlice o "Attachments").
Proof.
  intros o. eexists.
  refine ((λ H1 H2, conj (conj H1 H2)
             (BuildChatRequest_parts SampleEnv.env o "" _ H1 H2)) _ _).
  - vm_compute. reflexivity.
  - vm_compute. discriminate.
Defined.

Lemma BuildChatRequest_no_chat_witness :
  IsChatRequest Flags_zero = false
  ∧ (BuildChatRequest SampleEnv.env Flags_zero "").2 = None
  ∧ request.Message (BuildChatRequest SampleEnv.env Flags_zero "").1 = None
  ∧ request.ContextName (BuildChatRequest SampleEnv.env Flags_zero "").1 = ""
  ∧ request.SessionName (BuildChatRequest SampleEnv.env Flags_zero "").1 = ""
  ∧ request.PatternName (BuildChatRequest SampleEnv.env Flags_zero "").1 = "".
Proof.
  assert (H : IsChatRequest Flags_zero = false) by reflexivity.
  exact (conj H (BuildChatRequest_no_chat SampleEnv.env Flags_zero "" H)).
Defined.

(** What the sample runs give. *)

Example run_BuildChatRequest :
  BuildChatRequest SampleEnv.env SampleEnv.o_attachments "" =
  ({| request.ContextName := ""; request.SessionName := "";
      request.PatternName := ""; request.StrategyName := "";
      request.PatternVariables := ∅; request.InputHasVars := false;
      request.Meta := "";
      request.Message := Some {|
        chat.Role_ := Some chat.ChatMessageRoleUser;
        chat.Content := "";
        chat.MultiContent :=
          [textPart "what is this?";
           imagePart "http://example.com/cat.png";
           imagePart "data:image/png;base64,aGVsbG8="] |};
      request.Language := "" |}, None).
Proof. vm_compute. reflexivity. Qed.

Example run_decoder :
  let Seed data := (Sample.get "Seed" (Ref.Unmarshal (line data) Flags_zero).1,
                    (Ref.Unmarshal (line data) Flags_zero).2) in
  Seed "seed: 42.9" = (Some (VInt 42), None)
  ∧ Seed "seed: 010" = (Some (VInt 8), None)
  ∧ Seed "seed: 0x10" = (Some (VInt 16), None)
  ∧ Seed "seed: 1_000" = (Some (VInt 1000), None)
  ∧ (Ref.Unmarshal (line "temperature: 1e400") Flags_zero).2
    = Some (lib_error "yaml: unmarshal errors").
Proof. repeat split; vm_compute; reflexivity. Qed.

Example run_image_checks :
  validateImageFile SampleEnv.env "taken.png" = Some (ImageFileExists "taken.png")
  ∧ validateImageFile SampleEnv.env "dir.png/out" = Some (InvalidExtension "")
  ∧ validateImageFile SampleEnv.env "out.JPEG" = None
  ∧ validateImageParameters SampleEnv.env "" "" "" "" 5 = Some ParametersWithoutFile
  ∧ validateImageParameters SampleEnv.env "a.jpg" "" "" "" 101 = Some (CompressionRange 101)
  ∧ validateImageParameters SampleEnv.env "a.jpg" "" "" "transparent" 0
    = Some (TransparentFormat ".jpg").
Proof. repeat split; vm_compute; reflexivity. Qed.
